(** * Tree Style Tab: the sidebar cache, the tab signature and the tree
    structures

    A shallow embedding of [webextensions/sidebar/sidebar-cache.js] and of the
    functions of [webextensions/background/index.js] that compute the
    signature of a window's tabs, save and load the tree structures under
    it, and wait for the restoration of the session.

    The asynchronous functions of the sidebar cache are modelled as
    computations over an explicit [World] (the module's variables, the
    browser's session store, its timers and the sidebar's DOM).  A computation
    yields the effects it performed on the browser, the world it leaves and
    how it completed: normally, or by a thrown exception (for an [async]
    function: a rejected promise).  Each function runs to completion; calls to
    [log] and [MetricsData.add] touch none of the modelled state and are left
    out. *)

From Stdlib Require Import ZArith Ascii String List Lia.
From Stdlib Require Import DecimalString DecimalPos DecimalZ.
From stdpp Require Import base option list sorting gmap strings.

Local Open Scope Z_scope.
Local Open Scope string_scope.
Local Open Scope list_scope.

(** ** Data model *)

(** A tab object of the browser ([tabs.Tab]): the fields the code reads.
    [audible], [title] and [url] are optional in the WebExtensions API. *)
Record ApiTab := {
  id        : Z;
  windowId  : Z;
  audible   : option bool;
  incognito : bool;
  pinned    : bool;
  title     : option string;
  url       : option string
}.

(** The three keys under which the cache is kept on the owner tab
    ([Constants.kWINDOW_STATE_CACHED_SIDEBAR] and its two dirty flags). *)
Inductive CacheKey :=
| kWINDOW_STATE_CACHED_SIDEBAR
| kWINDOW_STATE_CACHED_SIDEBAR_TABS_DIRTY
| kWINDOW_STATE_CACHED_SIDEBAR_COLLAPSED_DIRTY.

#[global] Instance CacheKey_eq_dec : EqDecision CacheKey.
Proof. solve_decision. Defined.

Definition CacheKey_code (k : CacheKey) : nat :=
  match k with
  | kWINDOW_STATE_CACHED_SIDEBAR => 0
  | kWINDOW_STATE_CACHED_SIDEBAR_TABS_DIRTY => 1
  | kWINDOW_STATE_CACHED_SIDEBAR_COLLAPSED_DIRTY => 2
  end%nat.

Definition CacheKey_of_code (n : nat) : CacheKey :=
  match n with
  | O => kWINDOW_STATE_CACHED_SIDEBAR
  | S O => kWINDOW_STATE_CACHED_SIDEBAR_TABS_DIRTY
  | _ => kWINDOW_STATE_CACHED_SIDEBAR_COLLAPSED_DIRTY
  end.

#[global] Program Instance CacheKey_countable : Countable CacheKey :=
  inj_countable' CacheKey_code CacheKey_of_code _.
Next Obligation. by intros []. Qed.

(** [cache.tabbar]: the part written by [updateCachedTabbar], and the two
    dirty flags [getEffectiveWindowCache] attaches ([None]: not set). *)
Record Tabbar := {
  contents        : string;
  style           : option string;
  pinnedTabsCount : Z;
  tabsDirty       : option bool;
  collapsedDirty  : option bool
}.

(** The cache object.  [tabs] is the truthiness of its property [tabs], which
    [getEffectiveWindowCache] tests; [offset] and [actualSignature] are the
    properties [getEffectiveWindowCache] adds on success. *)
Record Cache := {
  version         : Z;
  tabs            : bool;
  tabbar          : Tabbar;
  indent          : string;
  signature       : string;
  offset          : option nat;
  actualSignature : option string
}.

(** A value kept in the session store. *)
Inductive Value :=
| VBool (b : bool)
| VCache (c : Cache).

(** What a debounce timer runs when it fires. *)
Inductive TimerTask :=
| TaskUpdateCachedTabbar
| TaskMarkWindowCacheDirty (akey : CacheKey).

(** An element of the sidebar for one tab. *)
Record TabElement := {
  apiTab       : ApiTab;
  subtreeCollapsed : bool
}.

(** The container of a window's tab elements ([#window-N]). *)
Record Container := {
  allTabsRestored : bool;
  tabElements     : list TabElement
}.

(** One item of a tree structure: the index of the parent tab (-1: none). *)
Record StructureItem := {
  parent    : Z;
  collapsed : bool
}.

Record World := {
  (* variables of sidebar-cache.js *)
  mTracking             : bool;
  mLastWindowCacheOwner : option ApiTab;
  mTargetWindow         : Z;
  mTabBarStyle          : option string;
  waiting               : option positive;   (* updateCachedTabbar.waiting *)
  timeout               : option positive;   (* markWindowCacheDirty.timeout *)
  observingConfigs      : bool;
  (* configs *)
  useCachedTree         : bool;
  animation             : bool;
  (* the browser *)
  currentWindow         : Z;
  browserTabs           : list ApiTab;
  sessionValues         : gmap (Z * CacheKey) Value;
  timers                : gmap positive TimerTask;
  nextTimer             : positive;
  (* the background page's tree of each window *)
  treeStructures        : gmap Z (list StructureItem);
  (* the Tabs module: the sidebar's DOM *)
  containers            : gmap Z Container;
  creatingTab           : bool
}.

Definition set_mTracking (b : bool) (w : World) : World :=
  {| mTracking := b; mLastWindowCacheOwner := mLastWindowCacheOwner w;
     mTargetWindow := mTargetWindow w; mTabBarStyle := mTabBarStyle w;
     waiting := waiting w; timeout := timeout w;
     observingConfigs := observingConfigs w; useCachedTree := useCachedTree w;
     animation := animation w;
     currentWindow := currentWindow w; browserTabs := browserTabs w;
     sessionValues := sessionValues w; timers := timers w;
     nextTimer := nextTimer w; treeStructures := treeStructures w;
     containers := containers w; creatingTab := creatingTab w |}.

Definition set_mLastWindowCacheOwner (o : option ApiTab) (w : World) : World :=
  {| mTracking := mTracking w; mLastWindowCacheOwner := o;
     mTargetWindow := mTargetWindow w; mTabBarStyle := mTabBarStyle w;
     waiting := waiting w; timeout := timeout w;
     observingConfigs := observingConfigs w; useCachedTree := useCachedTree w;
     animation := animation w;
     currentWindow := currentWindow w; browserTabs := browserTabs w;
     sessionValues := sessionValues w; timers := timers w;
     nextTimer := nextTimer w; treeStructures := treeStructures w;
     containers := containers w; creatingTab := creatingTab w |}.

Definition set_mTargetWindow (i : Z) (w : World) : World :=
  {| mTracking := mTracking w; mLastWindowCacheOwner := mLastWindowCacheOwner w;
     mTargetWindow := i; mTabBarStyle := mTabBarStyle w;
     waiting := waiting w; timeout := timeout w;
     observingConfigs := observingConfigs w; useCachedTree := useCachedTree w;
     animation := animation w;
     currentWindow := currentWindow w; browserTabs := browserTabs w;
     sessionValues := sessionValues w; timers := timers w;
     nextTimer := nextTimer w; treeStructures := treeStructures w;
     containers := containers w; creatingTab := creatingTab w |}.

Definition set_mTabBarStyle (s : option string) (w : World) : World :=
  {| mTracking := mTracking w; mLastWindowCacheOwner := mLastWindowCacheOwner w;
     mTargetWindow := mTargetWindow w; mTabBarStyle := s;
     waiting := waiting w; timeout := timeout w;
     observingConfigs := observingConfigs w; useCachedTree := useCachedTree w;
     animation := animation w;
     currentWindow := currentWindow w; browserTabs := browserTabs w;
     sessionValues := sessionValues w; timers := timers w;
     nextTimer := nextTimer w; treeStructures := treeStructures w;
     containers := containers w; creatingTab := creatingTab w |}.

Definition set_waiting (t : option positive) (w : World) : World :=
  {| mTracking := mTracking w; mLastWindowCacheOwner := mLastWindowCacheOwner w;
     mTargetWindow := mTargetWindow w; mTabBarStyle := mTabBarStyle w;
     waiting := t; timeout := timeout w;
     observingConfigs := observingConfigs w; useCachedTree := useCachedTree w;
     animation := animation w;
     currentWindow := currentWindow w; browserTabs := browserTabs w;
     sessionValues := sessionValues w; timers := timers w;
     nextTimer := nextTimer w; treeStructures := treeStructures w;
     containers := containers w; creatingTab := creatingTab w |}.

Definition set_timeout (t : option positive) (w : World) : World :=
  {| mTracking := mTracking w; mLastWindowCacheOwner := mLastWindowCacheOwner w;
     mTargetWindow := mTargetWindow w; mTabBarStyle := mTabBarStyle w;
     waiting := waiting w; timeout := t;
     observingConfigs := observingConfigs w; useCachedTree := useCachedTree w;
     animation := animation w;
     currentWindow := currentWindow w; browserTabs := browserTabs w;
     sessionValues := sessionValues w; timers := timers w;
     nextTimer := nextTimer w; treeStructures := treeStructures w;
     containers := containers w; creatingTab := creatingTab w |}.

Definition set_observingConfigs (b : bool) (w : World) : World :=
  {| mTracking := mTracking w; mLastWindowCacheOwner := mLastWindowCacheOwner w;
     mTargetWindow := mTargetWindow w; mTabBarStyle := mTabBarStyle w;
     waiting := waiting w; timeout := timeout w;
     observingConfigs := b; useCachedTree := useCachedTree w;
     animation := animation w;
     currentWindow := currentWindow w; browserTabs := browserTabs w;
     sessionValues := sessionValues w; timers := timers w;
     nextTimer := nextTimer w; treeStructures := treeStructures w;
     containers := containers w; creatingTab := creatingTab w |}.

Definition set_sessionValues (m : gmap (Z * CacheKey) Value) (w : World) : World :=
  {| mTracking := mTracking w; mLastWindowCacheOwner := mLastWindowCacheOwner w;
     mTargetWindow := mTargetWindow w; mTabBarStyle := mTabBarStyle w;
     waiting := waiting w; timeout := timeout w;
     observingConfigs := observingConfigs w; useCachedTree := useCachedTree w;
     animation := animation w;
     currentWindow := currentWindow w; browserTabs := browserTabs w;
     sessionValues := m; timers := timers w;
     nextTimer := nextTimer w; treeStructures := treeStructures w;
     containers := containers w; creatingTab := creatingTab w |}.

Definition set_timers (m : gmap positive TimerTask) (n : positive) (w : World) : World :=
  {| mTracking := mTracking w; mLastWindowCacheOwner := mLastWindowCacheOwner w;
     mTargetWindow := mTargetWindow w; mTabBarStyle := mTabBarStyle w;
     waiting := waiting w; timeout := timeout w;
     observingConfigs := observingConfigs w; useCachedTree := useCachedTree w;
     animation := animation w;
     currentWindow := currentWindow w; browserTabs := browserTabs w;
     sessionValues := sessionValues w; timers := m;
     nextTimer := n; treeStructures := treeStructures w;
     containers := containers w; creatingTab := creatingTab w |}.

Definition set_containers (m : gmap Z Container) (w : World) : World :=
  {| mTracking := mTracking w; mLastWindowCacheOwner := mLastWindowCacheOwner w;
     mTargetWindow := mTargetWindow w; mTabBarStyle := mTabBarStyle w;
     waiting := waiting w; timeout := timeout w;
     observingConfigs := observingConfigs w; useCachedTree := useCachedTree w;
     animation := animation w;
     currentWindow := currentWindow w; browserTabs := browserTabs w;
     sessionValues := sessionValues w; timers := timers w;
     nextTimer := nextTimer w; treeStructures := treeStructures w;
     containers := m; creatingTab := creatingTab w |}.

Definition set_creatingTab (b : bool) (w : World) : World :=
  {| mTracking := mTracking w; mLastWindowCacheOwner := mLastWindowCacheOwner w;
     mTargetWindow := mTargetWindow w; mTabBarStyle := mTabBarStyle w;
     waiting := waiting w; timeout := timeout w;
     observingConfigs := observingConfigs w; useCachedTree := useCachedTree w;
     animation := animation w;
     currentWindow := currentWindow w; browserTabs := browserTabs w;
     sessionValues := sessionValues w; timers := timers w;
     nextTimer := nextTimer w; treeStructures := treeStructures w;
     containers := containers w; creatingTab := b |}.

(** ** Effects, exceptions and the computation monad *)

(** The calls on the browser (and the one assignment) a computation is
    observed by. *)
Inductive Event :=
| EvClearTimeout (t : positive)
| EvSetTimeout (t : positive) (task : TimerTask)
| EvTabsQuery
| EvOwnerAssigned (o : option ApiTab)
| EvGetTabValue (tabId : Z) (key : CacheKey)
| EvSetTabValue (tabId : Z) (key : CacheKey) (v : Value)
| EvRemoveTabValue (tabId : Z) (key : CacheKey)
| EvPullTreeStructure (windowId : Z)
| EvRestoredDispatched
| EvReload.

Inductive Exn :=
| TypeError (what : string)
| MessagingError.

Inductive Completion (A : Type) :=
| Normal (a : A)
| Thrown (e : Exn).
Arguments Normal {A} a.
Arguments Thrown {A} e.

Record Run (A : Type) := mkRun {
  events     : list Event;
  world      : World;
  completion : Completion A
}.
Arguments mkRun {A} _ _ _.
Arguments events {A} _.
Arguments world {A} _.
Arguments completion {A} _.

Definition M (A : Type) : Type := World -> Run A.

Definition ret {A} (a : A) : M A := fun w => mkRun [] w (Normal a).

Definition bind {A B} (m : M A) (f : A -> M B) : M B := fun w =>
  let r := m w in
  match completion r with
  | Normal a =>
      let r' := f a (world r) in
      mkRun (events r ++ events r') (world r') (completion r')
  | Thrown e => mkRun (events r) (world r) (Thrown e)
  end.

Definition throw {A} (e : Exn) : M A := fun w => mkRun [] w (Thrown e).
Definition emit (e : Event) : M unit := fun w => mkRun [e] w (Normal tt).
Definition read {A} (f : World -> A) : M A := fun w => mkRun [] w (Normal (f w)).
Definition update (f : World -> World) : M unit := fun w => mkRun [] (f w) (Normal tt).

Declare Scope js_scope.
Delimit Scope js_scope with js.
Notation "x <- m ;; k" := (bind m (fun x => k))
  (at level 100, m at next level, right associativity) : js_scope.
Notation "m ;; k" := (bind m (fun _ => k))
  (at level 100, right associativity) : js_scope.
Local Open Scope js_scope.

(** [if (c) body] *)
Definition when (c : bool) (body : M unit) : M unit :=
  if c then body else ret tt.

(** ** Timers of the browser *)

Definition setTimeout (task : TimerTask) : M positive := fun w =>
  let t := nextTimer w in
  mkRun [EvSetTimeout t task]
        (set_timers (<[t := task]> (timers w)) (Pos.succ t) w)
        (Normal t).

Definition clearTimeout (t : positive) : M unit := fun w =>
  mkRun [EvClearTimeout t]
        (set_timers (delete t (timers w)) (nextTimer w) w)
        (Normal tt).

(** ** The Tabs module *)

Definition getTabsContainer (windowId : Z) (w : World) : option Container :=
  containers w !! windowId.

Definition allTabElements (w : World) : list TabElement :=
  concat (map (fun p => tabElements (snd p)) (map_to_list (containers w))).

(** [Tabs.getTabById(apiTab)]: the element of that tab, if the sidebar has one. *)
Definition getTabById (o : ApiTab) (w : World) : option TabElement :=
  head (filter (fun t => id (apiTab t) = id o) (allTabElements w)).

(** [Tabs.getAllTabs()] and [Tabs.getLastTab()], on the target window. *)
Definition getAllTabs (w : World) : list TabElement :=
  match getTabsContainer (mTargetWindow w) w with
  | Some c => tabElements c
  | None => []
  end.

Definition getLastTab (w : World) : option TabElement := last (getAllTabs w).

Definition getPinnedTabs (c : Container) : list TabElement :=
  filter (fun t => pinned (apiTab t) = true) (tabElements c).

(** ** The string and array operations of JavaScript the code uses

    A string is the sequence of its code units, and the operations are
    defined on that sequence; [string] holds the code units below 256. *)
Module JS.

Definition chars (s : string) : list ascii := list_ascii_of_string s.
Definition text (l : list ascii) : string := string_of_list_ascii l.

(** A non-empty string is truthy. *)
Definition truthy (s : string) : bool := negb (String.eqb s "").

(** White space and line terminators, as [String.prototype.trim] strips
    them: TAB, LF, VT, FF, CR, SP and NBSP. *)
Definition isWhiteSpace (c : ascii) : bool :=
  let n := nat_of_ascii c in
  ((9 <=? n) && (n <=? 13) || (n =? 32) || (n =? 160))%nat.

Fixpoint trimStart_chars (l : list ascii) : list ascii :=
  match l with
  | c :: l' => if isWhiteSpace c then trimStart_chars l' else l
  | [] => []
  end.

Definition trimEnd_chars (l : list ascii) : list ascii :=
  rev (trimStart_chars (rev l)).

(** [s.trim()] *)
Definition trim (s : string) : string :=
  text (trimEnd_chars (trimStart_chars (chars s))).

Fixpoint isPrefix_chars (p l : list ascii) : bool :=
  match p, l with
  | [], _ => true
  | a :: p', b :: l' => if ascii_dec a b then isPrefix_chars p' l' else false
  | _ :: _, [] => false
  end.

Fixpoint replace_chars (pattern replacement l : list ascii) : list ascii :=
  if isPrefix_chars pattern l then replacement ++ drop (length pattern) l
  else match l with
       | [] => []
       | c :: l' => c :: replace_chars pattern replacement l'
       end.

(** [s.replace(pattern, replacement)] for a string [pattern] and a
    [replacement] without [$]: the first occurrence is replaced. *)
Definition replace (s pattern replacement : string) : string :=
  text (replace_chars (chars pattern) (chars replacement) (chars s)).

Fixpoint split_chars (sep : ascii) (l : list ascii) : list (list ascii) :=
  match l with
  | [] => [[]]
  | c :: l' =>
      if ascii_dec c sep then [] :: split_chars sep l'
      else match split_chars sep l' with
           | part :: parts => (c :: part) :: parts
           | [] => [[c]]
           end
  end.

(** [s.split(sep)] for a separator of one code unit. *)
Definition split (s : string) (sep : ascii) : list string :=
  map text (split_chars sep (chars s)).

(** [parts.join(sep)] *)
Definition join (parts : list string) (sep : string) : string :=
  String.concat sep parts.

(** [String(n)] for an integer [n]. *)
Definition stringOfInt (n : Z) : string :=
  DecimalString.NilEmpty.string_of_int (Z.to_int n).

(** [String(v)] for a string or [null]. *)
Definition stringOfNullable (v : option string) : string :=
  match v with Some s => s | None => "null" end.

End JS.

Definition LF : ascii := ascii_of_nat 10.
Definition LFs : string := String LF EmptyString.

Record Options := { ignorePinnedTabs : bool }.

Record Params := {
  params_tabs   : list ApiTab;
  params_offset : option Z
}.

(** What the tab-related listeners of the module receive. *)
Inductive TabsEvent :=
| onFaviconUpdated | onUpdated | onLabelUpdated | onParentTabUpdated
| onCreated | onRemoved | onMoved | onLevelChanged
| onTabsDetached (tab : TabElement)
| onTreeAttached | onTreeDetached
| onPinned | onUnpinned | onShown | onHidden.

Definition with_contents (s : string) (t : Tabbar) : Tabbar :=
  {| contents := s; style := style t; pinnedTabsCount := pinnedTabsCount t;
     tabsDirty := tabsDirty t; collapsedDirty := collapsedDirty t |}.

Definition with_dirty (td cd : option bool) (t : Tabbar) : Tabbar :=
  {| contents := contents t; style := style t;
     pinnedTabsCount := pinnedTabsCount t;
     tabsDirty := td; collapsedDirty := cd |}.

Definition with_tabbar (t : Tabbar) (c : Cache) : Cache :=
  {| version := version c; tabs := tabs c; tabbar := t; indent := indent c;
     signature := signature c; offset := offset c;
     actualSignature := actualSignature c |}.

Definition with_signature (s : string) (c : Cache) : Cache :=
  {| version := version c; tabs := tabs c; tabbar := tabbar c;
     indent := indent c; signature := s; offset := offset c;
     actualSignature := actualSignature c |}.

Definition with_offset (n : nat) (actual : string) (c : Cache) : Cache :=
  {| version := version c; tabs := tabs c; tabbar := tabbar c;
     indent := indent c; signature := signature c; offset := Some n;
     actualSignature := Some actual |}.

(** A stored value read as the cache object: a boolean has none of the
    properties the code reads, and ends as [null] like an absent value. *)
Definition asCache (v : option Value) : option Cache :=
  match v with
  | Some (VCache c) => Some c
  | _ => None
  end.

(** A stored value read as a dirty flag: its truthiness. *)
Definition asFlag (v : option Value) : option bool :=
  match v with
  | Some (VBool b) => Some b
  | Some (VCache _) => Some true
  | None => None
  end.

Definition flagSet (f : option bool) : bool :=
  match f with Some b => b | None => false end.

(** ** background/index.js: the signature of a window's tabs *)

Definition DQUOTE : ascii := ascii_of_nat 34.
Definition BACKSLASH : ascii := ascii_of_nat 92.

Module JSON.

Definition hexDigits : list ascii := JS.chars "0123456789abcdef".

Definition hexDigit (n : nat) : ascii := nth n hexDigits "0"%char.

(** [QuoteJSONString], one code unit: the short escapes, [\u00xx] for the
    other control characters, the code unit itself otherwise. *)
Definition escape (c : ascii) : list ascii :=
  let n := nat_of_ascii c in
  if (n =? 8)%nat then [BACKSLASH; "b"%char]
  else if (n =? 9)%nat then [BACKSLASH; "t"%char]
  else if (n =? 10)%nat then [BACKSLASH; "n"%char]
  else if (n =? 12)%nat then [BACKSLASH; "f"%char]
  else if (n =? 13)%nat then [BACKSLASH; "r"%char]
  else if (n =? 34)%nat then [BACKSLASH; DQUOTE]
  else if (n =? 92)%nat then [BACKSLASH; BACKSLASH]
  else if (n <? 32)%nat
       then [BACKSLASH; "u"%char; "0"%char; "0"%char;
             hexDigit (n / 16); hexDigit (n mod 16)]
       else [c].

Definition quote_chars (s : list ascii) : list ascii :=
  DQUOTE :: concat (map escape s) ++ [DQUOTE].

(** [JSON.stringify] of a string. *)
Definition quote (s : string) : string := JS.text (quote_chars (JS.chars s)).

(** [JSON.stringify] of a boolean. *)
Definition boolean (b : bool) : string := if b then "true" else "false".

(** One property of an object, [None] when its value is [undefined] (the
    property is left out). *)
Definition property (key : string) (value : option string) : option string :=
  match value with
  | Some v => Some (String.append (quote key) (String.append ":" v))
  | None => None
  end.

(** [JSON.stringify] of an object, given its properties in order. *)
Definition object (properties : list (option string)) : string :=
  String.append "{"
    (String.append (JS.join (omap (fun p => p) properties) ",") "}").

(** [JSON.stringify] of an array, given the texts of its elements. *)
Definition array (elements : list string) : string :=
  String.append "[" (String.append (JS.join elements ",") "]").

End JSON.

(** What [getTabsSignatureSource] keeps of a tab. *)
Record SignatureSource := {
  source_audible   : option bool;
  source_incognito : bool;
  source_pinned    : bool;
  source_title     : option string;
  source_url       : option string
}.

Definition getTabsSignatureSource (aApiTabs : list ApiTab) : list SignatureSource :=
  map (fun aTab =>
         {| source_audible := audible aTab;
            source_incognito := incognito aTab;
            source_pinned := pinned aTab;
            source_title := title aTab;
            source_url := url aTab |})
      aApiTabs.

(** [JSON.stringify(getTabsSignatureSource(aApiTabs))] *)
Definition stringifySource (s : SignatureSource) : string :=
  JSON.object
    [ JSON.property "audible" (option_map JSON.boolean (source_audible s));
      JSON.property "incognito" (Some (JSON.boolean (source_incognito s)));
      JSON.property "pinned" (Some (JSON.boolean (source_pinned s)));
      JSON.property "title" (option_map JSON.quote (source_title s));
      JSON.property "url" (option_map JSON.quote (source_url s)) ].

Definition stringify (sources : list SignatureSource) : string :=
  JSON.array (map stringifySource sources).

Section TabsSignature.

(** The digest function the page loads: a string to its digest, written as
    hexadecimal digits. *)
Variable md5 : string -> string.

Definition getTabsSignature (aApiTabs : list ApiTab) : string :=
  md5 (stringify (getTabsSignatureSource aApiTabs)).

End TabsSignature.

(** A digest of 128 bits in hexadecimal: 32 digits. *)
Definition isDigest (s : string) : Prop :=
  length (JS.chars s) = 32%nat /\
  Forall (fun c => c ∈ JSON.hexDigits) (JS.chars s).

(** *** A reader of the serialization

    It reads back what [stringify] writes; the serialization is injective
    for that reason. *)

Definition hexValue (c : ascii) : nat :=
  match find (fun p => if ascii_dec (snd p) c then true else false)
             (combine (seq 0 16) JSON.hexDigits) with
  | Some p => fst p
  | None => 0
  end.

Definition unescape (e : ascii) : option ascii :=
  if ascii_dec e "b"%char then Some (ascii_of_nat 8)
  else if ascii_dec e "t"%char then Some (ascii_of_nat 9)
  else if ascii_dec e "n"%char then Some (ascii_of_nat 10)
  else if ascii_dec e "f"%char then Some (ascii_of_nat 12)
  else if ascii_dec e "r"%char then Some (ascii_of_nat 13)
  else if ascii_dec e DQUOTE then Some DQUOTE
  else if ascii_dec e BACKSLASH then Some BACKSLASH
  else None.

Definition consFirst (c : ascii) (p : option (list ascii * list ascii))
  : option (list ascii * list ascii) :=
  match p with
  | Some (s, rest) => Some (c :: s, rest)
  | None => None
  end.

(** Reads the code units of a quoted string up to its closing quote. *)
Fixpoint readQuoted (l : list ascii) : option (list ascii * list ascii) :=
  match l with
  | [] => None
  | c :: l' =>
      if ascii_dec c DQUOTE then Some ([], l')
      else if ascii_dec c BACKSLASH then
        match l' with
        | e :: l'' =>
            if ascii_dec e "u"%char then
              match l'' with
              | _ :: _ :: h :: k :: l3 =>
                  consFirst (ascii_of_nat (16 * hexValue h + hexValue k))
                            (readQuoted l3)
              | _ => None
              end
            else
              match unescape e with
              | Some d => consFirst d (readQuoted l'')
              | None => None
              end
        | [] => None
        end
      else consFirst c (readQuoted l')
  end.

Definition readString (l : list ascii) : option (list ascii * list ascii) :=
  match l with
  | c :: l' => if ascii_dec c DQUOTE then readQuoted l' else None
  | [] => None
  end.

(** Takes a literal off the front. *)
Definition strip (literal l : list ascii) : option (list ascii) :=
  if JS.isPrefix_chars literal l then Some (drop (length literal) l) else None.

Definition readBoolean (l : list ascii) : option (bool * list ascii) :=
  match strip (JS.chars "true") l with
  | Some rest => Some (true, rest)
  | None =>
      match strip (JS.chars "false") l with
      | Some rest => Some (false, rest)
      | None => None
      end
  end.

Definition keyChars (separator key : string) : list ascii :=
  JS.chars separator ++ JS.chars (JSON.quote key) ++ [":"%char].

(** Reads one object written by [stringifySource]. *)
Definition readSource (l : list ascii) : option (SignatureSource * list ascii) :=
  match strip ["{"%char] l with
  | None => None
  | Some l1 =>
      let audible :=
        match strip (keyChars "" "audible") l1 with
        | Some r =>
            match readBoolean r with
            | Some (b, r') =>
                match strip [","%char] r' with
                | Some r'' => Some (Some b, r'')
                | None => None
                end
            | None => None
            end
        | None => Some (None, l1)
        end in
      match audible with
      | None => None
      | Some (a, l2) =>
          match strip (keyChars "" "incognito") l2 with
          | None => None
          | Some l3 =>
              match readBoolean l3 with
              | None => None
              | Some (i, l4) =>
                  match strip (keyChars "," "pinned") l4 with
                  | None => None
                  | Some l5 =>
                      match readBoolean l5 with
                      | None => None
                      | Some (p, l6) =>
                          let title :=
                            match strip (keyChars "," "title") l6 with
                            | Some r =>
                                match readString r with
                                | Some (s, r') => Some (Some (JS.text s), r')
                                | None => None
                                end
                            | None => Some (None, l6)
                            end in
                          match title with
                          | None => None
                          | Some (t, l7) =>
                              let url :=
                                match strip (keyChars "," "url") l7 with
                                | Some r =>
                                    match readString r with
                                    | Some (s, r') => Some (Some (JS.text s), r')
                                    | None => None
                                    end
                                | None => Some (None, l7)
                                end in
                              match url with
                              | None => None
                              | Some (u, l8) =>
                                  match strip ["}"%char] l8 with
                                  | None => None
                                  | Some l9 =>
                                      Some ({| source_audible := a;
                                               source_incognito := i;
                                               source_pinned := p;
                                               source_title := t;
                                               source_url := u |}, l9)
                                  end
                              end
                          end
                      end
                  end
              end
          end
      end
  end.

(** The value of a digest: its digits read as a number in base 16, the
    first digit the lowest. *)
Fixpoint digestValue (l : list ascii) : N :=
  match l with
  | [] => 0
  | c :: l' => N.of_nat (hexValue c) + 16 * digestValue l'
  end.

(** The number of digests. *)
Definition digestCount : N := 16 ^ 32.

(** ** background/index.js: saving and loading the tree structures

    The background page keeps, for each window, the signature of its tabs
    and the structure of its tree ([gTreeStructures]), and saves to
    [configs.treeStructure] the structures under their signatures. *)

(** A value of [gTreeStructures]. *)
Record TreeEntry := {
  entry_signature : string;
  entry_structure : list StructureItem
}.

(** The container of a window in the background page: the timer of its
    scheduled save ([waitingToSaveTreeStructure]) and its tab elements
    ([getAllTabs(windowId)]). *)
Record TabsContainer := {
  waitingToSaveTreeStructure : option positive;
  containerTabs              : list TabElement
}.

(** The state of the background page.  The object [gTreeStructures] is its
    properties ([gTreeStructures], by window id) and the order in which its
    present keys were created ([gTreeStructuresKeys]), which [Object.keys]
    follows for the keys that do not index an array; window ids are the
    integers of the browser, numbers that are represented exactly.
    [normalWindows] is what
    [browser.windows.getAll] answers: the normal windows with their tabs, the
    windows the page builds containers for.
    [treeStructure] is [configs.treeStructure]; its keys are signatures, that
    is digests, none of which names a property every object has.
    [saveTimers] are the timers of the scheduled saves, each with the window
    id its callback is given. *)
Record Background := {
  gTreeStructures : gmap N TreeEntry;
  gTreeStructuresKeys : list N;
  tabsContainers  : gmap N TabsContainer;
  normalWindows   : list (N * list ApiTab);
  treeStructure   : option (gmap string (list StructureItem));
  saveTimers      : gmap positive N;
  nextSaveTimer   : positive
}.

Definition set_gTreeStructures (m : gmap N TreeEntry) (keys : list N)
           (b : Background) : Background :=
  {| gTreeStructures := m; gTreeStructuresKeys := keys;
     tabsContainers := tabsContainers b;
     normalWindows := normalWindows b; treeStructure := treeStructure b;
     saveTimers := saveTimers b; nextSaveTimer := nextSaveTimer b |}.

Definition set_tabsContainers (m : gmap N TabsContainer) (b : Background)
  : Background :=
  {| gTreeStructures := gTreeStructures b;
     gTreeStructuresKeys := gTreeStructuresKeys b; tabsContainers := m;
     normalWindows := normalWindows b; treeStructure := treeStructure b;
     saveTimers := saveTimers b; nextSaveTimer := nextSaveTimer b |}.

Definition set_treeStructure (s : option (gmap string (list StructureItem)))
           (b : Background) : Background :=
  {| gTreeStructures := gTreeStructures b;
     gTreeStructuresKeys := gTreeStructuresKeys b;
     tabsContainers := tabsContainers b;
     normalWindows := normalWindows b; treeStructure := s;
     saveTimers := saveTimers b; nextSaveTimer := nextSaveTimer b |}.

Definition set_saveTimers (m : gmap positive N) (n : positive)
           (b : Background) : Background :=
  {| gTreeStructures := gTreeStructures b;
     gTreeStructuresKeys := gTreeStructuresKeys b;
     tabsContainers := tabsContainers b;
     normalWindows := normalWindows b; treeStructure := treeStructure b;
     saveTimers := m; nextSaveTimer := n |}.

(** How an [async] function of the background page ends. *)
Inductive Outcome := Fulfilled | Rejected.

(** [browser.windows.get(aWindowId, { populate: true })]: the tabs of the
    window, if the browser has it (the promise is rejected otherwise). *)
Definition windowsGet (aWindowId : N) (b : Background) : option (list ApiTab) :=
  option_map snd
    (List.find (fun window => (fst window =? aWindowId)%N) (normalWindows b)).

(** A key that indexes an array: an integer below 2^32 - 1. *)
Definition isArrayIndex (k : N) : bool := (k <? 4294967295)%N.

(** [Object.keys(gTreeStructures)]: the keys that index an array in ascending
    order, then the other keys in the order of their creation. *)
Definition objectKeys (m : gmap N TreeEntry) (created : list N) : list N :=
  merge_sort N.le
    (filter (fun k => isArrayIndex k = true) (map fst (map_to_list m)))
  ++ filter (fun k => isArrayIndex k = false /\ is_Some (m !! k)) created.

(** The keys in the order of their creation after [delete object[aId]] and
    after [object[aId] = value]: a key that is present keeps its place, a
    new one comes last. *)
Definition keysAfterDelete (aId : N) (created : list N) : list N :=
  filter (fun k => k <> aId) created.

Definition keysAfterAssign (m : gmap N TreeEntry) (aId : N) (created : list N)
  : list N :=
  if decide (is_Some (m !! aId)) then created else created ++ [aId].

(** One turn of the loop of [saveTreeStructure] that builds
    [sanitizedStructure], and the loop. *)
Definition sanitizeEntry (m : gmap N TreeEntry)
           (sanitizedStructure : gmap string (list StructureItem)) (aId : N)
  : gmap string (list StructureItem) :=
  match m !! aId with
  | Some structure =>
      <[entry_signature structure := entry_structure structure]>
        sanitizedStructure
  | None => sanitizedStructure
  end.

Definition sanitize (m : gmap N TreeEntry) (created : list N)
  : gmap string (list StructureItem) :=
  foldl (sanitizeEntry m) ∅ (objectKeys m created).

(** [aHint] is the id of the window, as in the call of the timer. *)
Definition reserveToSaveTreeStructure (aHint : N) (b : Background)
  : Background :=
  match tabsContainers b !! aHint with
  | None => b
  | Some container =>
      let timers :=
        match waitingToSaveTreeStructure container with
        | Some t => delete t (saveTimers b)
        | None => saveTimers b
        end in
      let t := nextSaveTimer b in
      set_tabsContainers
        (<[aHint := {| waitingToSaveTreeStructure := Some t;
                       containerTabs := containerTabs container |}]>
           (tabsContainers b))
        (set_saveTimers (<[t := aHint]> timers) (Pos.succ t) b)
  end.

Section TreeStructures.

Variable md5 : string -> string.
(** [getTreeStructureFromTabs] and [applyTreeStructureToTabs], of the common
    code: the structure of a list of tab elements, and its application to
    the tab elements of a window in the page. *)
Variable getTreeStructureFromTabs : list TabElement -> list StructureItem.
Variable applyTreeStructureToTabs :
  N -> list StructureItem -> gmap N TabsContainer -> gmap N TabsContainer.

Definition saveTreeStructure (aWindowId : N) (b : Background)
  : Background * Outcome :=
  match tabsContainers b !! aWindowId with
  | None =>
      let b1 :=
        set_gTreeStructures
          (delete aWindowId (gTreeStructures b))
          (keysAfterDelete aWindowId (gTreeStructuresKeys b)) b in
      (set_treeStructure
         (Some (sanitize (gTreeStructures b1) (gTreeStructuresKeys b1))) b1,
       Fulfilled)
  | Some container =>
      let b1 :=
        set_tabsContainers
          (<[aWindowId := {| waitingToSaveTreeStructure := None;
                             containerTabs := containerTabs container |}]>
             (tabsContainers b)) b in
      match windowsGet aWindowId b1 with
      | None => (b1, Rejected)
      | Some tabs =>
          let b2 :=
            set_gTreeStructures
              (<[aWindowId :=
                   {| entry_signature := getTabsSignature md5 tabs;
                      entry_structure :=
                        getTreeStructureFromTabs (containerTabs container) |}]>
                 (gTreeStructures b1))
              (keysAfterAssign (gTreeStructures b1) aWindowId
                 (gTreeStructuresKeys b1)) b1 in
          (set_treeStructure
             (Some (sanitize (gTreeStructures b2) (gTreeStructuresKeys b2)))
             b2,
           Fulfilled)
      end
  end.

(** The timer of a scheduled save fires: [saveTreeStructure] is called with
    the window id, and not awaited. *)
Definition fireSaveTimer (t : positive) (b : Background) : Background :=
  match saveTimers b !! t with
  | None => b
  | Some aWindowId =>
      fst (saveTreeStructure aWindowId
             (set_saveTimers (delete t (saveTimers b)) (nextSaveTimer b) b))
  end.

(** One turn of the loop of [loadTreeStructure]; [sent] are the messages
    [kCOMMAND_APPLY_TREE_STRUCTURE] sent so far. *)
Definition loadWindow (structures : gmap string (list StructureItem))
           (state : Background * list (N * list StructureItem))
           (window : N * list ApiTab)
  : Background * list (N * list StructureItem) :=
  let signature := getTabsSignature md5 (snd window) in
  match structures !! signature with
  | Some structure =>
      (set_tabsContainers
         (applyTreeStructureToTabs (fst window) structure
            (tabsContainers (fst state))) (fst state),
       snd state ++ [(fst window, structure)])
  | None => state
  end.

Definition loadTreeStructure (b : Background)
  : Background * list (N * list StructureItem) :=
  match treeStructure b with
  | None => (b, [])
  | Some structures => foldl (loadWindow structures) (b, []) (normalWindows b)
  end.

End TreeStructures.

(** The discipline on the timers of the scheduled saves: a timer is the one
    the container of its window holds. *)
Definition saveTracked (b : Background) : Prop :=
  forall t aWindowId,
    saveTimers b !! t = Some aWindowId ->
    exists container,
      tabsContainers b !! aWindowId = Some container
      /\ waitingToSaveTreeStructure container = Some t.

(** The keys of [gTreeStructures] are in the list of their creation. *)
Definition keysRecorded (b : Background) : Prop :=
  forall k, is_Some (gTreeStructures b !! k) -> k ∈ gTreeStructuresKeys b.

(** In the list [keys], no key after [j] has a record with signature [s]:
    the record of [j] is the last the loop of [saveTreeStructure] sees with
    that signature. *)
Definition lastWithSignature (m : gmap N TreeEntry) (keys : list N) (j : N)
           (s : string) : Prop :=
  exists keys1 keys2,
    keys = keys1 ++ j :: keys2
    /\ forall k, k ∈ keys2 ->
                 forall e, m !! k = Some e -> entry_signature e <> s.

(** Among the windows recorded with signature [s], window [i] has the
    greatest id. *)
Definition greatestWithSignature (m : gmap N TreeEntry) (i : N) (s : string)
  : Prop :=
  forall k e, m !! k = Some e -> entry_signature e = s -> (k <= i)%N.

(** ** background/index.js: waiting for the restoration of the session

    [waitUntilCompletelyRestored] returns a promise that a timer resolves;
    each tab the browser creates in the meantime replaces the timer.  The
    state is what the closure holds: the timer ([timeout]), whether
    [onNewTabRestored] still listens to [browser.tabs.onCreated], and how
    often [aResolve] has been called; the timers are those of this promise,
    each with its delay in milliseconds. *)
Record Restoring := {
  restoringTimeout   : option positive;
  onCreatedListening : bool;
  resolutions        : nat;
  restoringTimers    : gmap positive nat;
  nextRestoringTimer : positive
}.

(** The call: the listener is added and the first timer is set. *)
Definition waitUntilCompletelyRestored (next : positive) : Restoring :=
  {| restoringTimeout := Some next;
     onCreatedListening := true;
     resolutions := 0;
     restoringTimers := {[ next := 500%nat ]};
     nextRestoringTimer := Pos.succ next |}.

(** [browser.tabs.onCreated] fires: [onNewTabRestored] runs if it listens. *)
Definition onNewTabRestored (r : Restoring) : Restoring :=
  if onCreatedListening r then
    let timers :=
      match restoringTimeout r with
      | Some t => delete t (restoringTimers r)
      | None => restoringTimers r
      end in
    let t := nextRestoringTimer r in
    {| restoringTimeout := Some t;
       onCreatedListening := true;
       resolutions := resolutions r;
       restoringTimers := <[t := 100%nat]> timers;
       nextRestoringTimer := Pos.succ t |}
  else r.

(** A timer fires: [resolver] runs, unless the timer was cleared. *)
Definition resolver (t : positive) (r : Restoring) : Restoring :=
  match restoringTimers r !! t with
  | Some _ =>
      {| restoringTimeout := None;
         onCreatedListening := false;
         resolutions := S (resolutions r);
         restoringTimers := delete t (restoringTimers r);
         nextRestoringTimer := nextRestoringTimer r |}
  | None => r
  end.

(** What happens while the promise is pending or after. *)
Inductive RestoringEvent :=
| TabCreated
| TimerFired (t : positive).

Definition restoringStep (r : Restoring) (e : RestoringEvent) : Restoring :=
  match e with
  | TabCreated => onNewTabRestored r
  | TimerFired t => resolver t r
  end.

Definition isTabCreated (e : RestoringEvent) : bool :=
  match e with TabCreated => true | TimerFired _ => false end.

(** The delay of the pending timer: 100 ms after a tab was created, the
    initial 500 ms before. *)
Definition pendingDelay (trace : list RestoringEvent) : nat :=
  if existsb isTabCreated trace then 100%nat else 500%nat.

(** ** sidebar-cache.js *)

Section SidebarCache.

(** [Constants.kSIDEBAR_CONTENTS_VERSION] *)
Variable kSIDEBAR_CONTENTS_VERSION : Z.

(** The functions of [common/cache.js] the module calls on strings. *)
Variable signatureFromTabsCache : string -> string.
Variable trimTabsCache : string -> Z -> string.
Variable trimSignature : string -> Z -> string.
(** [Cache.matcheSignatures({ actual, cached })] *)
Variable matcheSignatures : string -> option string -> bool.
(** The record (one line) a tab contributes to the window's signature. *)
Variable signatureRecord : ApiTab -> string.

(** [Cache.restoreTabsFromCacheInternal], [Tree.getTreeStructureFromTabs],
    [Tree.collapseExpandSubtree] and [Tabs.ensureLivingTab], as functions of
    the sidebar's DOM; the markup of [Tabs.allTabsContainer] and
    [Indent.getCacheInfo()]. *)
Variable restoreTabsFromCacheInternal :
  Z -> list ApiTab -> Z -> string -> option bool ->
  gmap Z Container -> bool * gmap Z Container.
Variable getTreeStructureFromTabs : list TabElement -> list StructureItem.
Variable collapseExpandSubtree :
  TabElement -> bool -> gmap Z Container -> gmap Z Container.
Variable ensureLivingTab : TabElement -> bool.
Variable innerHTML : gmap Z Container -> string.
Variable getCacheInfo : World -> string.

(** Modelled from the spec: [Cache.getWindowSignature] of [common/cache.js],
    the signature of a window's live tabs.  The spec has it order-sensitive
    and with one record per tab, in tab order, in "a line-per-tab
    serialization": the records of the tabs, joined by line feeds. *)
Definition computeSignature (tabs : list ApiTab) : string :=
  JS.join (map signatureRecord tabs) LFs.

Definition tabsOfWindow (i : Z) (w : World) : list ApiTab :=
  filter (fun t => windowId t = i) (browserTabs w).

Definition getWindowSignature (i : Z) (w : World) : string :=
  computeSignature (tabsOfWindow i w).

(** [Tabs.hasCreatingTab()] and [Tabs.waitUntilAllTabsAreCreated()] *)
Definition hasCreatingTab : M bool := read creatingTab.
Definition waitUntilAllTabsAreCreated : M unit := update (set_creatingTab false).

Definition removeContainer (i : Z) : M unit :=
  update (fun w => set_containers (delete i (containers w)) w).

(** A call of an [async] function that is not awaited: what it throws
    rejects a promise nobody holds. *)
Definition detached (m : M unit) : M unit := fun w =>
  let r := m w in mkRun (events r) (world r) (Normal tt).

(** A call whose result nobody looks at: the call of a listener, or of a
    callback of a timer. *)
Definition settled {A : Type} (m : M A) : M unit := fun w =>
  let r := m w in mkRun (events r) (world r) (Normal tt).

Definition init : M unit :=
  update (fun w => set_mTargetWindow (currentWindow w) w).

Definition startTracking : M unit :=
  update (set_mTracking true) ;;
  update (set_observingConfigs true).

(** The assignment to [mLastWindowCacheOwner]. *)
Definition assignOwner (o : option ApiTab) : M unit :=
  emit (EvOwnerAssigned o) ;;
  update (set_mLastWindowCacheOwner o).

Definition getWindowCache (key : CacheKey) : M (option Value) :=
  owner <- read mLastWindowCacheOwner ;;
  match owner with
  | None => ret None
  | Some o =>
      emit (EvGetTabValue (id o) key) ;;
      read (fun w => sessionValues w !! (id o, key))
  end.

(** [value]: [None] is [undefined]. *)
Definition updateWindowCache (key : CacheKey) (value : option Value) : M unit :=
  owner <- read mLastWindowCacheOwner ;;
  match owner with
  | None => ret tt
  | Some o =>
      tab <- read (getTabById o) ;;
      match tab with
      | None => ret tt
      | Some _ =>
          match value with
          | None =>
              emit (EvRemoveTabValue (id o) key) ;;
              update (fun w =>
                set_sessionValues (delete (id o, key) (sessionValues w)) w)
          | Some v =>
              emit (EvSetTabValue (id o) key v) ;;
              update (fun w =>
                set_sessionValues (<[(id o, key) := v]> (sessionValues w)) w)
          end
      end
  end.

Definition clearWindowCache : M unit :=
  updateWindowCache kWINDOW_STATE_CACHED_SIDEBAR None ;;
  updateWindowCache kWINDOW_STATE_CACHED_SIDEBAR_TABS_DIRTY None ;;
  updateWindowCache kWINDOW_STATE_CACHED_SIDEBAR_COLLAPSED_DIRTY None.

Definition markWindowCacheDirty (akey : CacheKey) : M unit :=
  t <- read timeout ;;
  match t with
  | Some t => clearTimeout t
  | None => ret tt
  end ;;
  t' <- setTimeout (TaskMarkWindowCacheDirty akey) ;;
  update (set_timeout (Some t')).

Definition getWindowCacheOwner (w : World) : option ApiTab :=
  match getLastTab w with
  | Some tab => Some (apiTab tab)
  | None => None
  end.

Definition reserveToUpdateCachedTabbar : M unit :=
  tracking <- read mTracking ;;
  use <- read useCachedTree ;;
  if negb tracking || negb use then ret tt
  else
    creating <- hasCreatingTab ;;
    when creating waitUntilAllTabsAreCreated ;;
    container <- read (fun w => getTabsContainer (mTargetWindow w) w) ;;
    match container with
    | None => throw (TypeError "container is null")
    | Some c =>
        if allTabsRestored c then ret tt
        else
          clearWindowCache ;;
          t <- read waiting ;;
          match t with
          | Some t => clearTimeout t
          | None => ret tt
          end ;;
          t' <- setTimeout TaskUpdateCachedTabbar ;;
          update (set_waiting (Some t'))
    end.

Definition cancelReservedUpdateCachedTabbar : M unit :=
  t <- read waiting ;;
  match t with
  | Some t => clearTimeout t ;; update (set_waiting None)
  | None => ret tt
  end.

(** The object [updateCachedTabbar] stores (lines 275-284). *)
Definition newCache (c : Container) (signature : string) (w : World) : Cache :=
  {| version := kSIDEBAR_CONTENTS_VERSION;
     tabs := false;
     tabbar := {| contents := innerHTML (containers w);
                  style := mTabBarStyle w;
                  pinnedTabsCount := Z.of_nat (length (getPinnedTabs c));
                  tabsDirty := None;
                  collapsedDirty := None |};
     indent := getCacheInfo w;
     signature := signature;
     offset := None;
     actualSignature := None |}.

Definition updateCachedTabbar : M unit :=
  use <- read useCachedTree ;;
  if negb use then ret tt
  else
    creating <- hasCreatingTab ;;
    when creating waitUntilAllTabsAreCreated ;;
    container <- read (fun w => getTabsContainer (mTargetWindow w) w) ;;
    signature <- read (fun w => getWindowSignature (mTargetWindow w) w) ;;
    match container with
    | None => throw (TypeError "container is null")
    | Some c =>
        if allTabsRestored c then ret tt
        else
          owner <- read getWindowCacheOwner ;;
          assignOwner owner ;;
          cache <- read (newCache c signature) ;;
          updateWindowCache kWINDOW_STATE_CACHED_SIDEBAR (Some (VCache cache))
    end.

(** A timer of the browser fires: its callback runs, unless the timer was
    cleared. *)
Definition fireTimer (t : positive) : M unit :=
  task <- read (fun w => timers w !! t) ;;
  match task with
  | None => ret tt
  | Some task =>
      update (fun w => set_timers (delete t (timers w)) (nextTimer w) w) ;;
      match task with
      | TaskUpdateCachedTabbar =>
          update (set_waiting None) ;;
          detached updateCachedTabbar
      | TaskMarkWindowCacheDirty akey =>
          update (set_timeout None) ;;
          updateWindowCache akey (Some (VBool true))
      end
  end.

(** The test of lines 69-72: the cache has [tabs], a signature, and the
    signature is not the one of its own contents. *)
Definition isBroken (cache : option Cache) (cachedSignature : option string)
  : bool :=
  match cache, cachedSignature with
  | Some c, Some s =>
      tabs c && JS.truthy s &&
      negb (String.eqb s (signatureFromTabsCache (contents (tabbar c))))
  | _, _ => false
  end.

(** Lines 80-87: with [ignorePinnedTabs], the contents and the signature are
    trimmed by the cache's count of pinned tabs. *)
Definition trimPinned (options : Options)
           (checked : option Cache * option string)
  : option Cache * option string :=
  match checked with
  | (Some c, Some s) =>
      if ignorePinnedTabs options &&
         JS.truthy (contents (tabbar c)) && JS.truthy s
      then (Some (with_tabbar
                    (with_contents
                       (trimTabsCache (contents (tabbar c))
                                      (pinnedTabsCount (tabbar c)))
                       (tabbar c)) c),
            Some (trimSignature s (pinnedTabsCount (tabbar c))))
      else checked
  | _ => checked
  end.

(** Lines 93-102: a cache of the current version gets the dirty flags and the
    signature; any other becomes [null]. *)
Definition verifyVersion (tabsDirty collapsedDirty : option Value)
           (trimmed : option Cache * option string)
  : option Cache * option string :=
  match trimmed with
  | (Some c, cachedSignature) =>
      if (version c =? kSIDEBAR_CONTENTS_VERSION)%Z
      then (Some (with_signature
                    (JS.stringOfNullable cachedSignature)
                    (with_tabbar
                       (with_dirty (asFlag tabsDirty) (asFlag collapsedDirty)
                                   (tabbar c)) c)),
            cachedSignature)
      else (None, cachedSignature)
  | (None, cachedSignature) => (None, cachedSignature)
  end.

(** The first of the two concurrent blocks of [getEffectiveWindowCache]:
    it leaves the local variables [cache] and [cachedSignature]. *)
Definition fetchStoredCache (options : Options)
  : M (option Cache * option string) :=
  emit EvTabsQuery ;;
  apiTabs <- read (fun w => tabsOfWindow (currentWindow w) w) ;;
  assignOwner (last apiTabs) ;;
  v <- getWindowCache kWINDOW_STATE_CACHED_SIDEBAR ;;
  tabsDirty <- getWindowCache kWINDOW_STATE_CACHED_SIDEBAR_TABS_DIRTY ;;
  collapsedDirty <- getWindowCache kWINDOW_STATE_CACHED_SIDEBAR_COLLAPSED_DIRTY ;;
  let cache := asCache v in
  let cachedSignature := option_map signature cache in
  owner <- read mLastWindowCacheOwner ;;
  match owner with
  | None => throw (TypeError "mLastWindowCacheOwner is undefined")
  | Some _ =>
      checked <- (if isBroken cache cachedSignature
                  then clearWindowCache ;; ret (None, None)
                  else ret (cache, cachedSignature)) ;;
      ret (verifyVersion tabsDirty collapsedDirty (trimPinned options checked))
  end.

(** [cache.offset]: the records of [actualSignature] left when the first
    occurrence of [cachedSignature] is taken out. *)
Definition offsetOf (actualSignature : string) (cachedSignature : option string)
  : nat :=
  length (filter (fun part => JS.truthy part = true)
            (JS.split
               (JS.trim (JS.replace actualSignature
                           (JS.stringOfNullable cachedSignature) ""))
               LF)).

Definition getEffectiveWindowCache (options : Options) : M (option Cache) :=
  cancelReservedUpdateCachedTabbar ;;
  fetched <- fetchStoredCache options ;;
  actualSignature <- read (fun w => getWindowSignature (mTargetWindow w) w) ;;
  let cache := fst fetched in
  let cachedSignature := snd fetched in
  let signatureMatched := matcheSignatures actualSignature cachedSignature in
  match cache with
  | Some c =>
      if signatureMatched
      then ret (Some (with_offset (offsetOf actualSignature cachedSignature)
                                  actualSignature c))
      else clearWindowCache ;; ret None
  | None => clearWindowCache ;; ret None
  end.

(** The [forEach] over the reversed tabs, reading [structure[index]]. *)
Fixpoint collapseExpandAll (tabs : list TabElement)
         (structure : list StructureItem) : M unit :=
  match tabs with
  | [] => ret tt
  | tab :: tabs' =>
      match structure with
      | [] => throw (TypeError "structure[index] is undefined")
      | item :: structure' =>
          update (fun w =>
            set_containers
              (collapseExpandSubtree tab (collapsed item) (containers w)) w) ;;
          collapseExpandAll tabs' structure'
      end
  end.

(** [browser.runtime.sendMessage({ type: kCOMMAND_PULL_TREE_STRUCTURE })]:
    the background page answers with the structure of the window. *)
Definition pullTreeStructure (i : Z) : M (list StructureItem) :=
  emit (EvPullTreeStructure i) ;;
  answer <- read (fun w => treeStructures w !! i) ;;
  match answer with
  | Some structure => ret structure
  | None => throw MessagingError
  end.

Definition parentChain (structure : list StructureItem) : string :=
  JS.join (map (fun item => JS.stringOfInt (parent item)) structure) ",".

(** The call of [Cache.restoreTabsFromCacheInternal]: it works on the
    sidebar's DOM and tells whether it restored the tabs. *)
Definition restoreInternal (windowId : Z) (tabs : list ApiTab) (offset : Z)
           (cache : string) (shouldUpdate : option bool) : M bool := fun w =>
  let r := restoreTabsFromCacheInternal windowId tabs offset cache shouldUpdate
             (containers w) in
  mkRun [] (set_containers (snd r) w) (Normal (fst r)).

(** Lines 134-148 of [restoreTabsFromCache]: the container is replaced (for
    an offset of zero) and the cached contents are applied.  [cache] is the
    [tabbar] part of an effective cache. *)
Definition applyCache (cache : Tabbar) (params : Params) : M bool :=
  let offset := match params_offset params with
                | Some n => n
                | None => 0
                end in
  target <- read mTargetWindow ;;
  container <- read (getTabsContainer target) ;;
  when (offset <=? 0)%Z
    (match container with
     | Some _ => removeContainer target
     | None => ret tt
     end ;;
     update (set_mTabBarStyle (Some (JS.stringOfNullable (style cache))))) ;;
  restoreInternal target (params_tabs params) offset
    (contents cache) (tabsDirty cache).

Definition restoreTabsFromCache (cache : Tabbar) (params : Params) : M bool :=
  restored <- applyCache cache params ;;
  if restored : bool then
    target <- read mTargetWindow ;;
    masterStructure <- pullTreeStructure target ;;
    allTabs <- read getAllTabs ;;
    let currentStructrue := getTreeStructureFromTabs allTabs in
    restored <-
      (if negb (String.eqb (parentChain currentStructrue)
                           (parentChain masterStructure))
       then
         container <- read (getTabsContainer target) ;;
         match container with
         | Some _ => removeContainer target
         | None => ret tt
         end ;;
         ret false
       else ret true) ;;
    when (restored && flagSet (collapsedDirty cache))
      (collapseExpandAll (rev allTabs) (rev currentStructrue)) ;;
    emit EvRestoredDispatched ;;
    ret restored
  else ret false.

(** The listeners the module adds to the events of [Tabs] and [Tree]. *)
Definition onTabsEvent (e : TabsEvent) : M unit :=
  match e with
  | onFaviconUpdated | onUpdated | onLabelUpdated | onParentTabUpdated =>
      markWindowCacheDirty kWINDOW_STATE_CACHED_SIDEBAR_TABS_DIRTY
  | onRemoved =>
      animated <- read animation ;;
      when animated reserveToUpdateCachedTabbar
  | onTabsDetached tab =>
      if ensureLivingTab tab then detached reserveToUpdateCachedTabbar
      else ret tt
  | _ => detached reserveToUpdateCachedTabbar
  end.

Definition onConfigChange (changedKey : string) : M unit :=
  if String.eqb changedKey "useCachedTree" then
    use <- read useCachedTree ;;
    if negb use then detached reserveToUpdateCachedTabbar
    else clearWindowCache ;; emit EvReload
  else ret tt.

(** ** The validator and the rebuild at their awaits

    An [async] function runs until it awaits, and other callbacks of the
    page run before it resumes.  [getEffectiveWindowCache] awaits the tabs
    of the window (line 55), the three stored values (lines 60-64) and the
    signature of the window (line 105); [updateCachedTabbar] awaits the
    signature of the window (line 268).  The parts between the awaits are
    the segments below; [getEffectiveWindowCache] and [updateCachedTabbar]
    above are these segments run without anything between them. *)

(** Lines 46-55 and 105: the scheduled rebuild is canceled, the tabs are
    asked for, and the signature of [mTargetWindow] is asked for. *)
Definition validatorBegins : M Z :=
  cancelReservedUpdateCachedTabbar ;;
  emit EvTabsQuery ;;
  read mTargetWindow.

(** Lines 55-64: with the tabs, the owner is assigned and the three values
    are asked for from the store. *)
Definition validatorReads : M (option Value * option Value * option Value) :=
  apiTabs <- read (fun w => tabsOfWindow (currentWindow w) w) ;;
  assignOwner (last apiTabs) ;;
  v <- getWindowCache kWINDOW_STATE_CACHED_SIDEBAR ;;
  tabsDirty <- getWindowCache kWINDOW_STATE_CACHED_SIDEBAR_TABS_DIRTY ;;
  collapsedDirty <- getWindowCache kWINDOW_STATE_CACHED_SIDEBAR_COLLAPSED_DIRTY ;;
  ret (v, tabsDirty, collapsedDirty).

(** Lines 65-102: with the stored values, the checks of the first block. *)
Definition validatorChecks (options : Options)
           (stored : option Value * option Value * option Value)
  : M (option Cache * option string) :=
  let cache := asCache (fst (fst stored)) in
  let cachedSignature := option_map signature cache in
  owner <- read mLastWindowCacheOwner ;;
  match owner with
  | None => throw (TypeError "mLastWindowCacheOwner is undefined")
  | Some _ =>
      checked <- (if isBroken cache cachedSignature
                  then clearWindowCache ;; ret (None, None)
                  else ret (cache, cachedSignature)) ;;
      ret (verifyVersion (snd (fst stored)) (snd stored)
             (trimPinned options checked))
  end.

(** Lines 105-130: with the signature of the window, the comparison. *)
Definition validatorCompares (target : Z)
           (fetched : option Cache * option string) : M (option Cache) :=
  actualSignature <- read (getWindowSignature target) ;;
  let cache := fst fetched in
  let cachedSignature := snd fetched in
  let signatureMatched := matcheSignatures actualSignature cachedSignature in
  match cache with
  | Some c =>
      if signatureMatched
      then ret (Some (with_offset (offsetOf actualSignature cachedSignature)
                                  actualSignature c))
      else clearWindowCache ;; ret None
  | None => clearWindowCache ;; ret None
  end.

(** A call of [updateCachedTabbar] that awaits the signature (line 268): it
    holds the window it asked the signature of and the container it found.
    Nothing that runs meanwhile changes a container. *)
Record SuspendedRebuild := {
  heldTarget    : Z;
  heldContainer : option Container
}.

(** Lines 264-268: up to the await; [None] when the function has
    returned. *)
Definition updateCachedTabbarBegins : M (option SuspendedRebuild) :=
  use <- read useCachedTree ;;
  if negb use then ret None
  else
    creating <- hasCreatingTab ;;
    when creating waitUntilAllTabsAreCreated ;;
    container <- read (fun w => getTabsContainer (mTargetWindow w) w) ;;
    target <- read mTargetWindow ;;
    ret (Some {| heldTarget := target; heldContainer := container |}).

(** Lines 268-284: from the await on. *)
Definition updateCachedTabbarResumes (s : SuspendedRebuild) : M unit :=
  signature <- read (getWindowSignature (heldTarget s)) ;;
  match heldContainer s with
  | None => throw (TypeError "container is null")
  | Some c =>
      if allTabsRestored c then ret tt
      else
        owner <- read getWindowCacheOwner ;;
        assignOwner owner ;;
        cache <- read (newCache c signature) ;;
        updateWindowCache kWINDOW_STATE_CACHED_SIDEBAR (Some (VCache cache))
  end.

(** What runs while a function is suspended: the callback of a timer of the
    browser, a listener of the tabs, the observer of the configs, or a
    suspended rebuild that resumes. *)
Inductive Interruption :=
| TimerElapses (t : positive)
| ListenerCalled (e : TabsEvent)
| ConfigObserved (changedKey : string)
| RebuildResumes (n : nat).

(** The callback of timer [t], up to its await: a rebuild that begins joins
    the suspended ones. *)
Definition timerElapses (t : positive) (suspended : list SuspendedRebuild)
  : M (list SuspendedRebuild) :=
  task <- read (fun w => timers w !! t) ;;
  match task with
  | None => ret suspended
  | Some task =>
      update (fun w => set_timers (delete t (timers w)) (nextTimer w) w) ;;
      match task with
      | TaskUpdateCachedTabbar =>
          update (set_waiting None) ;;
          s <- updateCachedTabbarBegins ;;
          ret (match s with
               | Some s => suspended ++ [s]
               | None => suspended
               end)
      | TaskMarkWindowCacheDirty akey =>
          update (set_timeout None) ;;
          updateWindowCache akey (Some (VBool true)) ;;
          ret suspended
      end
  end.

Definition interrupt (i : Interruption) (suspended : list SuspendedRebuild)
  : M (list SuspendedRebuild) :=
  match i with
  | TimerElapses t => timerElapses t suspended
  | ListenerCalled e => settled (onTabsEvent e) ;; ret suspended
  | ConfigObserved changedKey =>
      settled (onConfigChange changedKey) ;; ret suspended
  | RebuildResumes n =>
      match suspended !! n with
      | Some s =>
          settled (updateCachedTabbarResumes s) ;; ret (delete n suspended)
      | None => ret suspended
      end
  end.

Fixpoint interrupts (l : list Interruption) (suspended : list SuspendedRebuild)
  : M (list SuspendedRebuild) :=
  match l with
  | [] => ret suspended
  | i :: l' => suspended' <- interrupt i suspended ;; interrupts l' suspended'
  end.

(** One pass of the validator, with what runs at its three awaits. *)
Definition getEffectiveWindowCacheInterrupted (options : Options)
           (suspended : list SuspendedRebuild)
           (atQuery atRead atSignature : list Interruption)
  : M (option Cache) :=
  target <- validatorBegins ;;
  suspended1 <- interrupts atQuery suspended ;;
  stored <- validatorReads ;;
  suspended2 <- interrupts atRead suspended1 ;;
  fetched <- validatorChecks options stored ;;
  interrupts atSignature suspended2 ;;
  validatorCompares target fetched.


(** ** Example worlds *)

Definition tabA : ApiTab :=
  {| id := 1; windowId := 1; audible := Some false; incognito := false;
     pinned := false; title := Some "A"; url := Some "about:blank" |}.

Definition tabB : ApiTab :=
  {| id := 2; windowId := 1; audible := Some false; incognito := false;
     pinned := false; title := Some "B"; url := Some "about:newtab" |}.

Definition elementOf (t : ApiTab) : TabElement :=
  {| apiTab := t; subtreeCollapsed := false |}.

(** A sidebar that has just been opened on window 1, with no tab yet. *)
Definition freshWorld : World :=
  {| mTracking := false; mLastWindowCacheOwner := None; mTargetWindow := 1;
     mTabBarStyle := None; waiting := None; timeout := None;
     observingConfigs := false; useCachedTree := true; animation := true;
     currentWindow := 1; browserTabs := []; sessionValues := ∅;
     timers := ∅; nextTimer := 1%positive; treeStructures := ∅;
     containers := ∅; creatingTab := false |}.

(** The same window with its two tabs shown by the sidebar. *)
Definition shownWorld : World :=
  {| mTracking := true; mLastWindowCacheOwner := None; mTargetWindow := 1;
     mTabBarStyle := None; waiting := None; timeout := None;
     observingConfigs := true; useCachedTree := true; animation := true;
     currentWindow := 1; browserTabs := [tabA; tabB]; sessionValues := ∅;
     timers := ∅; nextTimer := 1%positive;
     treeStructures := {[ 1 := [ {| parent := -1; collapsed := false |};
                                 {| parent := 0; collapsed := false |} ] ]};
     containers := {[ 1 := {| allTabsRestored := false;
                              tabElements := [elementOf tabA; elementOf tabB] |} ]};
     creatingTab := false |}.

(** The sidebar after its container was taken out of the document. *)
Definition uncontainedWorld : World := set_containers ∅ shownWorld.

(** The sidebar whose owner tab has been closed since. *)
Definition staleOwnerWorld : World :=
  set_mLastWindowCacheOwner
    (Some {| id := 7; windowId := 1; audible := None; incognito := false;
             pinned := false; title := None; url := None |})
    shownWorld.

(** ** Notions the statements use *)

(** The owner handle is absent, or the tab it refers to is gone. *)
Definition ownerUnusable (w : World) : Prop :=
  match mLastWindowCacheOwner w with
  | None => True
  | Some o => getTabById o w = None
  end.

(** Nothing is stored under the owner's keys. *)
Definition nothingStored (w : World) : Prop :=
  forall o key, mLastWindowCacheOwner w = Some o ->
                sessionValues w !! (id o, key) = None.

(** The world a full clear leaves. *)
Definition cleared (w : World) : World :=
  match mLastWindowCacheOwner w with
  | Some o =>
      match getTabById o w with
      | Some _ =>
          set_sessionValues
            (delete (id o, kWINDOW_STATE_CACHED_SIDEBAR_COLLAPSED_DIRTY)
               (delete (id o, kWINDOW_STATE_CACHED_SIDEBAR_TABS_DIRTY)
                  (delete (id o, kWINDOW_STATE_CACHED_SIDEBAR)
                     (sessionValues w)))) w
      | None => w
      end
  | None => w
  end.

(** The tab [getEffectiveWindowCache] takes as owner: the last of the
    current window. *)
Definition fetchedOwner (w : World) : option ApiTab :=
  last (tabsOfWindow (currentWindow w) w).

(** The world [cancelReservedUpdateCachedTabbar] leaves. *)
Definition canceled (w : World) : World :=
  match waiting w with
  | Some t => set_waiting None (set_timers (delete t (timers w)) (nextTimer w) w)
  | None => w
  end.

(** The values stored under the three keys of owner [o]. *)
Definition storedCache (o : ApiTab) (w : World) : option Cache :=
  asCache (sessionValues w !! (id o, kWINDOW_STATE_CACHED_SIDEBAR)).

Definition storedTabsDirty (o : ApiTab) (w : World) : option Value :=
  sessionValues w !! (id o, kWINDOW_STATE_CACHED_SIDEBAR_TABS_DIRTY).

Definition storedCollapsedDirty (o : ApiTab) (w : World) : option Value :=
  sessionValues w !! (id o, kWINDOW_STATE_CACHED_SIDEBAR_COLLAPSED_DIRTY).

(** What the first block leaves in [cache] and [cachedSignature] when the
    owner is [o]. *)
Definition validated (options : Options) (o : ApiTab) (w : World)
  : option Cache * option string :=
  let cache := storedCache o w in
  let cachedSignature := option_map signature cache in
  verifyVersion (storedTabsDirty o w) (storedCollapsedDirty o w)
    (trimPinned options
       (if isBroken cache cachedSignature then (None, None)
        else (cache, cachedSignature))).

(** A computation leaves a component of the world as it found it. *)
Definition unchanged {A X : Type} (proj : World -> X) (m : M A) : Prop :=
  forall w, proj (world (m w)) = proj w.

(** Every effect of a computation satisfies [P]. *)
Definition effects {A : Type} (P : Event -> Prop) (m : M A) : Prop :=
  forall w, Forall P (events (m w)).

(** The world after the two blocks of [getEffectiveWindowCache], with owner
    [o]: the timer canceled, the owner assigned, and the store cleared if the
    cache was found broken. *)
Definition fetched (o : ApiTab) (w : World) : World :=
  let w1 := set_mLastWindowCacheOwner (Some o) (canceled w) in
  if isBroken (storedCache o w) (option_map signature (storedCache o w))
  then cleared w1 else w1.

(** What [getEffectiveWindowCache] returns with owner [o]. *)
Definition effectiveCache (options : Options) (o : ApiTab) (w : World)
  : option Cache :=
  let actual := getWindowSignature (mTargetWindow w) w in
  match validated options o w with
  | (Some c, cachedSignature) =>
      if matcheSignatures actual cachedSignature
      then Some (with_offset (offsetOf actual cachedSignature) actual c)
      else None
  | (None, _) => None
  end.

Definition isStorageRead (e : Event) : Prop :=
  match e with EvGetTabValue _ _ => True | _ => False end.

Definition isTimerEffect (e : Event) : Prop :=
  match e with EvClearTimeout _ | EvSetTimeout _ _ => True | _ => False end.

Definition isOwnerAssignment (e : Event) : Prop :=
  match e with EvOwnerAssigned _ => True | _ => False end.

(** The store accesses among the effects, each with the tab it is made on. *)
Definition storageTab (e : Event) : option Z :=
  match e with
  | EvGetTabValue i _ | EvSetTabValue i _ _ | EvRemoveTabValue i _ => Some i
  | _ => None
  end.

(** The parts of a text, joined by a separator (on code units). *)
Fixpoint intercalate (sep : ascii) (parts : list (list ascii)) : list ascii :=
  match parts with
  | [] => []
  | [part] => part
  | part :: rest => part ++ sep :: intercalate sep rest
  end.

(** The lines of a text, joined by line feeds. *)
Abbreviation unlines := (intercalate LF).

(** A sequence of code units with something else than white space. *)
Definition nonBlank (l : list ascii) : Prop :=
  Exists (fun c => JS.isWhiteSpace c = false) l.

(** A record of a signature is one line, and not a blank one: it has no line
    feed, and a code unit that is not white space. *)
Definition isRecord (l : list ascii) : Prop :=
  Forall (fun c => c <> LF) l /\ nonBlank l.

(** The records of these tabs are well formed. *)
Definition wellFormedRecords (tabs : list ApiTab) : Prop :=
  Forall (fun t => isRecord (JS.chars (signatureRecord t))) tabs.

(** The owner handles assigned among the effects, in order. *)
Definition ownerAssignments (evs : list Event) : list (option ApiTab) :=
  omap (fun e => match e with EvOwnerAssigned o => Some o | _ => None end) evs.

(** A computation never assigns the owner handle. *)
Definition ownerUntouched {A : Type} (m : M A) : Prop :=
  unchanged mLastWindowCacheOwner m /\
  effects (fun e => ~ isOwnerAssignment e) m.

(** Every store access among the effects is made on tab [i]. *)
Definition storageOn (i : Z) (evs : list Event) : Prop :=
  Forall (fun e => storageTab e = None \/ storageTab e = Some i) evs.

(** A write of a cache object under the snapshot's key. *)
Definition isSnapshotWrite (e : Event) : Prop :=
  match e with
  | EvSetTabValue _ kWINDOW_STATE_CACHED_SIDEBAR (VCache _) => True
  | _ => False
  end.

(** What an effect does to the timers of the browser. *)
Definition timerEffect (tm : gmap positive TimerTask) (e : Event)
  : gmap positive TimerTask :=
  match e with
  | EvClearTimeout t => delete t tm
  | EvSetTimeout t task => <[t := task]> tm
  | _ => tm
  end.

(** The timers after a sequence of effects. *)
Definition timersAfter (tm : gmap positive TimerTask) (evs : list Event)
  : gmap positive TimerTask :=
  foldl timerEffect tm evs.

(** No rebuild of the snapshot is scheduled. *)
Definition noRebuildPending (tm : gmap positive TimerTask) : Prop :=
  forall t, tm !! t <> Some TaskUpdateCachedTabbar.

(** The module's discipline on the rebuild timer: a scheduled rebuild is the
    one [updateCachedTabbar.waiting] holds. *)
Definition rebuildTracked (w : World) : Prop :=
  forall t, timers w !! t = Some TaskUpdateCachedTabbar -> waiting w = Some t.

(** [updateCachedTabbar] gets as far as its write: the configuration is on
    and the target window has a container that is not being restored. *)
Definition rebuilds (w : World) : bool :=
  useCachedTree w &&
  match getTabsContainer (mTargetWindow w) w with
  | Some c => negb (allTabsRestored c)
  | None => false
  end.

(** A run after some earlier effects. *)
Definition prepend {A : Type} (evs : list Event) (r : Run A) : Run A :=
  mkRun (evs ++ events r) (world r) (completion r).

(** Sample collaborators, for the examples: the version in use, the tab's id
    as its record, a markup that is its own signature, no trimming, a
    matcher that takes the cached signature when the live one begins with it,
    an application of the cache that shows the given tabs, and a tree without
    parents. *)
Definition sampleVersion : Z := 5.

Definition sampleRecord (t : ApiTab) : string := JS.stringOfInt (id t).

Definition sampleSignatureFromTabsCache (contents : string) : string := contents.

Definition sampleTrim (s : string) (count : Z) : string := s.

Definition sampleMatch (actual : string) (cached : option string) : bool :=
  match cached with
  | Some c => JS.truthy actual && JS.truthy c && String.prefix c actual
  | None => false
  end.

Definition sampleRestore (windowId : Z) (tabs : list ApiTab) (offset : Z)
           (cache : string) (shouldUpdate : option bool)
           (dom : gmap Z Container) : bool * gmap Z Container :=
  (true, <[windowId := {| allTabsRestored := true;
                          tabElements := map elementOf tabs |}]> dom).

Definition sampleTree (tabs : list TabElement) : list StructureItem :=
  map (fun _ => {| parent := -1; collapsed := false |}) tabs.

Definition sampleCollapse (tab : TabElement) (collapsed : bool)
           (dom : gmap Z Container) : gmap Z Container := dom.

Definition sampleTabbar : Tabbar :=
  {| contents := "<li>A</li><li>B</li>"; style := None; pinnedTabsCount := 0;
     tabsDirty := None; collapsedDirty := None |}.

(** A snapshot as [updateCachedTabbar] writes it, taken when the window had
    the tabs 1 and 2; its signature is not the one of its contents. *)
Definition sampleCache : Cache :=
  {| version := 5; tabs := false; tabbar := sampleTabbar; indent := "";
     signature := JS.join ["1"; "2"] LFs;
     offset := None; actualSignature := None |}.


(** The snapshot of an earlier release. *)
Definition oldCache : Cache :=
  {| version := 4; tabs := false; tabbar := sampleTabbar; indent := "";
     signature := JS.join ["1"; "2"] LFs;
     offset := None; actualSignature := None |}.

(** The snapshot taken when the window had the tab 1 only. *)
Definition shortCache : Cache :=
  {| version := 5; tabs := false; tabbar := sampleTabbar; indent := "";
     signature := "1"; offset := None; actualSignature := None |}.

Definition storing (c : Cache) : World :=
  set_sessionValues {[ (2, kWINDOW_STATE_CACHED_SIDEBAR) := VCache c ]} shownWorld.

(** The sidebar with a rebuild of the snapshot scheduled. *)
Definition pendingWorld : World :=
  set_waiting (Some 1%positive)
    (set_timers {[ 1%positive := TaskUpdateCachedTabbar ]} 2%positive
       (storing sampleCache)).

Definition noOptions : Options := {| ignorePinnedTabs := false |}.

Definition sampleParams : Params :=
  {| params_tabs := [tabA; tabB]; params_offset := None |}.

Definition sampleHTML (dom : gmap Z Container) : string := "<li>A</li><li>B</li>".

Definition sampleIndent (w : World) : string := "".

(** The module's discipline on the timer of the dirty flags: a scheduled
    write of a flag is the one [markWindowCacheDirty.timeout] holds. *)
Definition dirtyTracked (w : World) : Prop :=
  forall t akey,
    timers w !! t = Some (TaskMarkWindowCacheDirty akey) -> timeout w = Some t.

(** The listeners that call [reserveToUpdateCachedTabbar]. *)
Definition isStructural (e : TabsEvent) : bool :=
  match e with
  | onFaviconUpdated | onUpdated | onLabelUpdated | onParentTabUpdated => false
  | _ => true
  end.

(** A write of a value to the store. *)
Definition isStoreWrite (e : Event) : Prop :=
  match e with EvSetTabValue _ _ _ => True | _ => False end.

(** The number of times [onRestored] is dispatched among the effects. *)
Definition isRestoredDispatch (e : Event) : bool :=
  match e with EvRestoredDispatched => true | _ => false end.

Definition restoredDispatches (evs : list Event) : nat :=
  length (filter (fun e => isRestoredDispatch e = true) evs).

(** The sidebar whose owner is the last tab, with a snapshot stored. *)
Definition ownedWorld : World :=
  set_mLastWindowCacheOwner (Some tabB) (storing sampleCache).

(** The same with the write of a dirty flag scheduled. *)
Definition dirtyPendingWorld : World :=
  set_timeout (Some 1%positive)
    (set_timers
       {[ 1%positive :=
            TaskMarkWindowCacheDirty kWINDOW_STATE_CACHED_SIDEBAR_TABS_DIRTY ]}
       2%positive ownedWorld).

(** The sidebar of a window whose tree the background page does not have. *)
Definition unansweredWorld : World :=
  {| mTracking := true; mLastWindowCacheOwner := None; mTargetWindow := 1;
     mTabBarStyle := None; waiting := None; timeout := None;
     observingConfigs := true; useCachedTree := true; animation := true;
     currentWindow := 1; browserTabs := [tabA; tabB]; sessionValues := ∅;
     timers := ∅; nextTimer := 1%positive; treeStructures := ∅;
     containers := {[ 1 := {| allTabsRestored := false;
                              tabElements := [elementOf tabA; elementOf tabB] |} ]};
     creatingTab := false |}.

(** A background page with the container of window 1 and nothing recorded;
    then with the window closed in the browser; then without its
    container. *)
Definition sampleBackground : Background :=
  {| gTreeStructures := ∅;
     gTreeStructuresKeys := [];
     tabsContainers :=
       {[ 1%N := {| waitingToSaveTreeStructure := None;
                    containerTabs := [elementOf tabA; elementOf tabB] |} ]};
     normalWindows := [(1%N, [tabA; tabB])];
     treeStructure := None;
     saveTimers := ∅;
     nextSaveTimer := 1%positive |}.

(** Two tabs of another window, window 0, that agree with [tabA] and [tabB]
    on the fields of the signature; a background page that has recorded
    that window. *)
Definition twinA : ApiTab :=
  {| id := 3; windowId := 0; audible := Some false; incognito := false;
     pinned := false; title := Some "A"; url := Some "about:blank" |}.

Definition twinB : ApiTab :=
  {| id := 4; windowId := 0; audible := Some false; incognito := false;
     pinned := false; title := Some "B"; url := Some "about:newtab" |}.

Definition recordedBackground : Background :=
  {| gTreeStructures :=
       {[ 0%N := {| entry_signature :=
                      stringify (getTabsSignatureSource [twinA; twinB]);
                    entry_structure := [] |} ]};
     gTreeStructuresKeys := [0%N];
     tabsContainers :=
       {[ 1%N := {| waitingToSaveTreeStructure := None;
                    containerTabs := [elementOf tabA; elementOf tabB] |} ]};
     normalWindows := [(0%N, [twinA; twinB]); (1%N, [tabA; tabB])];
     treeStructure := None;
     saveTimers := ∅;
     nextSaveTimer := 1%positive |}.

Definition closedBackground : Background :=
  {| gTreeStructures := ∅;
     gTreeStructuresKeys := [];
     tabsContainers :=
       {[ 1%N := {| waitingToSaveTreeStructure := None;
                    containerTabs := [elementOf tabA; elementOf tabB] |} ]};
     normalWindows := [];
     treeStructure := None;
     saveTimers := ∅;
     nextSaveTimer := 1%positive |}.

Definition emptiedBackground : Background :=
  {| gTreeStructures :=
       {[ 1%N := {| entry_signature := "s"; entry_structure := [] |} ]};
     gTreeStructuresKeys := [1%N];
     tabsContainers := ∅;
     normalWindows := [];
     treeStructure := None;
     saveTimers := ∅;
     nextSaveTimer := 1%positive |}.

(** A digest function for the examples: the text itself. *)
Definition sampleDigest (s : string) : string := s.

Definition sampleApply (aWindowId : N) (structure : list StructureItem)
           (dom : gmap N TabsContainer) : gmap N TabsContainer := dom.


(** The owner handle after some effects, from the handle [current]: the one
    assigned last. *)
Fixpoint handleAfter (current : option ApiTab) (evs : list Event)
  : option ApiTab :=
  match evs with
  | [] => current
  | EvOwnerAssigned o :: evs' => handleAfter o evs'
  | _ :: evs' => handleAfter current evs'
  end.

(** Every store access among the effects is made on the tab of the owner
    handle as it is at that moment, [current] at first. *)
Fixpoint onCurrentHandle (current : option ApiTab) (evs : list Event) : Prop :=
  match evs with
  | [] => True
  | e :: evs' =>
      match storageTab e with
      | Some i => exists o, current = Some o /\ id o = i
      | None => True
      end
      /\ onCurrentHandle (handleAfter current [e]) evs'
  end.

(** A computation makes its store accesses on the owner handle of the
    moment, and leaves in [mLastWindowCacheOwner] the handle assigned
    last. *)
Definition tracks {A : Type} (m : M A) : Prop :=
  forall w,
    onCurrentHandle (mLastWindowCacheOwner w) (events (m w))
    /\ mLastWindowCacheOwner (world (m w))
       = handleAfter (mLastWindowCacheOwner w) (events (m w)).

(** An effect that is neither a store access nor an assignment of the
    owner handle. *)
Definition isPlain (e : Event) : bool :=
  match e with
  | EvOwnerAssigned _ | EvGetTabValue _ _ | EvSetTabValue _ _ _
  | EvRemoveTabValue _ _ => false
  | _ => true
  end.

(** The operations of the module: the calls of its exported functions, the
    events its listeners receive and the firing of its timers. *)
Inductive Operation :=
| CallInit
| CallStartTracking
| CallGetEffectiveWindowCache (options : Options)
| CallRestoreTabsFromCache (cache : Tabbar) (params : Params)
| CallMarkWindowCacheDirty (akey : CacheKey)
| CallReserveToUpdateCachedTabbar
| TimerFires (t : positive)
| TabsEventFires (e : TabsEvent)
| ConfigChanges (changedKey : string).

Definition perform (op : Operation) : M unit :=
  match op with
  | CallInit => init
  | CallStartTracking => startTracking
  | CallGetEffectiveWindowCache options =>
      settled (getEffectiveWindowCache options)
  | CallRestoreTabsFromCache cache params =>
      settled (restoreTabsFromCache cache params)
  | CallMarkWindowCacheDirty akey => markWindowCacheDirty akey
  | CallReserveToUpdateCachedTabbar => settled reserveToUpdateCachedTabbar
  | TimerFires t => fireTimer t
  | TabsEventFires e => settled (onTabsEvent e)
  | ConfigChanges changedKey => onConfigChange changedKey
  end.

(** Operations one after the other. *)
Fixpoint performAll (ops : list Operation) : M unit :=
  match ops with
  | [] => ret tt
  | op :: ops' => perform op ;; performAll ops'
  end.

(** The sidebar that does not show the window's last tab yet: the browser
    has the tabs 1 and 2, the sidebar the element of tab 1 only. *)
Definition laggingWorld : World :=
  set_containers
    {[ 1 := {| allTabsRestored := false; tabElements := [elementOf tabA] |} ]}
    shownWorld.

(** The effects after the first read of the stored snapshot. *)
Fixpoint afterSnapshotRead (evs : list Event) : list Event :=
  match evs with
  | [] => []
  | EvGetTabValue _ kWINDOW_STATE_CACHED_SIDEBAR :: evs' => evs'
  | _ :: evs' => afterSnapshotRead evs'
  end.

Definition isSnapshotWriteb (e : Event) : bool :=
  match e with
  | EvSetTabValue _ kWINDOW_STATE_CACHED_SIDEBAR (VCache _) => true
  | _ => false
  end.

(** A snapshot is written after the stored snapshot was read. *)
Definition writesAfterRead (evs : list Event) : bool :=
  existsb isSnapshotWriteb (afterSnapshotRead evs).





(** While no rebuild is scheduled, a computation writes no snapshot and
    schedules no rebuild. *)
Definition quiet {A : Type} (m : M A) : Prop :=
  forall w, noRebuildPending (timers w) ->
            Forall (fun e => ~ isSnapshotWrite e) (events (m w))
            /\ noRebuildPending (timers (world (m w))).

(** * Verification *)

(** ** Laws of the computations *)

Lemma run_eta {A} (r : Run A) :
  mkRun (events r) (world r) (completion r) = r.
Proof. by destruct r. Qed.

Lemma bind_silent {A B} (m : M A) (f : A -> M B) (w : World) a :
  m w = mkRun [] w (Normal a) -> bind m f w = f a w.
Proof. unfold bind. intros ->. simpl. by destruct (f a w). Qed.

Lemma bind_ret {A B} (a : A) (f : A -> M B) (w : World) :
  bind (ret a) f w = f a w.
Proof. by apply bind_silent. Qed.

Lemma bind_read {A B} (g : World -> A) (f : A -> M B) (w : World) :
  bind (read g) f w = f (g w) w.
Proof. by apply bind_silent. Qed.

Lemma bind_update {B} (g : World -> World) (f : unit -> M B) (w : World) :
  bind (update g) f w = f tt (g w).
Proof. unfold bind, update. simpl. by destruct (f tt (g w)). Qed.

Lemma bind_emit {B} (e : Event) (f : unit -> M B) (w : World) :
  bind (emit e) f w
  = mkRun (e :: events (f tt w)) (world (f tt w)) (completion (f tt w)).
Proof. reflexivity. Qed.

Lemma bind_assoc {A B C} (m : M A) (f : A -> M B) (g : B -> M C) (w : World) :
  bind (bind m f) g w = bind m (fun a => bind (f a) g) w.
Proof.
  unfold bind. destruct (completion (m w)); simpl; [|done].
  destruct (completion (f a (world (m w)))); simpl; by rewrite ?app_assoc.
Qed.

Lemma bind_world {A B} (m : M A) (f : A -> M B) (w : World) a :
  completion (m w) = Normal a ->
  world (bind m f w) = world (f a (world (m w))).
Proof. unfold bind. intros ->. reflexivity. Qed.

Lemma bind_completion {A B} (m : M A) (f : A -> M B) (w : World) a :
  completion (m w) = Normal a ->
  completion (bind m f w) = completion (f a (world (m w))).
Proof. unfold bind. intros ->. reflexivity. Qed.

Lemma bind_events {A B} (m : M A) (f : A -> M B) (w : World) a :
  completion (m w) = Normal a ->
  events (bind m f w) = events (m w) ++ events (f a (world (m w))).
Proof. unfold bind. intros ->. reflexivity. Qed.

Lemma bind_thrown {A B} (m : M A) (f : A -> M B) (w w' : World) ev e :
  m w = mkRun ev w' (Thrown e) -> bind m f w = mkRun ev w' (Thrown e).
Proof. unfold bind. intros ->. reflexivity. Qed.

Lemma bind_run {A B} (m : M A) (f : A -> M B) (w w' : World) ev a :
  m w = mkRun ev w' (Normal a) ->
  bind m f w
  = mkRun (ev ++ events (f a w')) (world (f a w')) (completion (f a w')).
Proof. unfold bind. intros ->. reflexivity. Qed.

Lemma bind_emit_prepend {B} (e : Event) (f : unit -> M B) (w : World) :
  bind (emit e) f w = prepend [e] (f tt w).
Proof. reflexivity. Qed.

Lemma bind_prepend {A B} (m : M A) (f : A -> M B) (w : World) a :
  completion (m w) = Normal a ->
  bind m f w = prepend (events (m w)) (f a (world (m w))).
Proof. unfold bind, prepend. intros ->. reflexivity. Qed.

(** ** Scheduling a rebuild *)

(** C10: when tracking has not been started, or [useCachedTree] is off,
    [reserveToUpdateCachedTabbar] returns at once: it performs no effect (no
    store access, no timer armed or cleared), leaves every part of the world
    as it was and completes normally. *)
Theorem reserveToUpdateCachedTabbar_not_tracking (w : World) :
  mTracking w = false \/ useCachedTree w = false ->
  reserveToUpdateCachedTabbar w = mkRun [] w (Normal tt).
Proof.
  intros H. unfold reserveToUpdateCachedTabbar, bind, read. simpl.
  destruct H as [-> | ->]; [reflexivity|].
  by rewrite orb_true_r.
Qed.

Lemma reserveToUpdateCachedTabbar_not_tracking_witness :
  reserveToUpdateCachedTabbar freshWorld = mkRun [] freshWorld (Normal tt).
Proof.
  apply (reserveToUpdateCachedTabbar_not_tracking freshWorld).
  left. reflexivity.
Defined.

(** C8: in a world where tracking is on and [useCachedTree] is enabled, no
    tab is being created and the target window has no container,
    [reserveToUpdateCachedTabbar] reads [allTabsRestored] of [null] and
    throws. *)
Theorem reserveToUpdateCachedTabbar_null_container (w : World) :
  mTracking w = true ->
  useCachedTree w = true ->
  creatingTab w = false ->
  getTabsContainer (mTargetWindow w) w = None ->
  reserveToUpdateCachedTabbar w
  = mkRun [] w (Thrown (TypeError "container is null")).
Proof.
  intros Ht Hu Hc Hn.
  unfold reserveToUpdateCachedTabbar, bind, read, hasCreatingTab, when. simpl.
  rewrite Ht, Hu. simpl. rewrite Hc. simpl. rewrite Hn. reflexivity.
Qed.

Lemma reserveToUpdateCachedTabbar_null_container_witness :
  reserveToUpdateCachedTabbar uncontainedWorld
  = mkRun [] uncontainedWorld (Thrown (TypeError "container is null")).
Proof.
  apply (reserveToUpdateCachedTabbar_null_container uncontainedWorld);
    reflexivity.
Defined.

(** ** The store adapter *)

Lemma set_sessionValues_id (w : World) :
  set_sessionValues (sessionValues w) w = w.
Proof. by destruct w. Qed.

Lemma updateWindowCache_unusable (key : CacheKey) (value : option Value) (w : World) :
  ownerUnusable w -> updateWindowCache key value w = mkRun [] w (Normal tt).
Proof.
  unfold ownerUnusable, updateWindowCache, bind, read. simpl.
  destruct (mLastWindowCacheOwner w) as [o|]; [|reflexivity].
  intros ->. reflexivity.
Qed.

Lemma updateWindowCache_completion (key : CacheKey) (value : option Value) (w : World) :
  completion (updateWindowCache key value w) = Normal tt.
Proof.
  unfold updateWindowCache, bind, read. simpl.
  destruct (mLastWindowCacheOwner w) as [o|]; [|reflexivity]. simpl.
  destruct (getTabById o w); [|reflexivity].
  destruct value; reflexivity.
Qed.

(** What a delete does to the world: only the store changes, by [delete]
    under the owner's key when the owner is usable. *)
Lemma updateWindowCache_delete_world (key : CacheKey) (w : World) :
  world (updateWindowCache key None w)
  = match mLastWindowCacheOwner w with
    | Some o =>
        match getTabById o w with
        | Some _ => set_sessionValues (delete (id o, key) (sessionValues w)) w
        | None => w
        end
    | None => w
    end.
Proof.
  unfold updateWindowCache, bind, read. simpl.
  destruct (mLastWindowCacheOwner w) as [o|]; [|reflexivity]. simpl.
  destruct (getTabById o w); reflexivity.
Qed.

Lemma getTabById_set_sessionValues (o : ApiTab) m (w : World) :
  getTabById o (set_sessionValues m w) = getTabById o w.
Proof. reflexivity. Qed.

Lemma clearWindowCache_completion (w : World) :
  completion (clearWindowCache w) = Normal tt.
Proof.
  unfold clearWindowCache.
  rewrite (bind_completion _ _ _ tt) by apply updateWindowCache_completion.
  rewrite (bind_completion _ _ _ tt) by apply updateWindowCache_completion.
  apply updateWindowCache_completion.
Qed.

Lemma clearWindowCache_world (w : World) :
  world (clearWindowCache w) = cleared w.
Proof.
  unfold clearWindowCache, cleared.
  rewrite (bind_world _ _ _ tt) by apply updateWindowCache_completion.
  rewrite (bind_world _ _ _ tt) by apply updateWindowCache_completion.
  rewrite !updateWindowCache_delete_world.
  destruct (mLastWindowCacheOwner w) as [o|] eqn:Ho;
    [destruct (getTabById o w) eqn:Hg|];
    repeat (simpl; rewrite ?Ho, ?getTabById_set_sessionValues, ?Hg);
    reflexivity.
Qed.

Lemma clearWindowCache_unusable (w : World) :
  ownerUnusable w -> clearWindowCache w = mkRun [] w (Normal tt).
Proof.
  intros H. unfold clearWindowCache.
  rewrite !(bind_silent _ _ w tt) by by apply updateWindowCache_unusable.
  by apply updateWindowCache_unusable.
Qed.

Lemma cleared_nothingStored (w : World) : nothingStored w -> cleared w = w.
Proof.
  intros H. unfold cleared.
  destruct (mLastWindowCacheOwner w) as [o|] eqn:Ho; [|reflexivity].
  destruct (getTabById o w); [|reflexivity].
  rewrite 3!(delete_id (sessionValues w)) by (by apply H).
  apply set_sessionValues_id.
Qed.

Lemma cleared_idemp (w : World) : cleared (cleared w) = cleared w.
Proof.
  unfold cleared.
  destruct (mLastWindowCacheOwner w) as [o|] eqn:Ho; [|by rewrite Ho].
  destruct (getTabById o w) eqn:Hg; [|by rewrite Ho, Hg].
  simpl. rewrite Ho, getTabById_set_sessionValues, Hg.
  unfold set_sessionValues. simpl. f_equal.
  apply map_eq. intros k. rewrite !lookup_delete.
  repeat case_decide; reflexivity.
Qed.

(** C6: with the owner handle absent or stale, a write, a delete and a full
    clear perform no effect, change nothing and complete normally; no write,
    delete or clear ever throws; a clear when nothing is stored leaves the
    world as it was; and clearing twice leaves the world one clear leaves. *)
Theorem clearWindowCache_silent_and_idempotent (w : World) :
  (ownerUnusable w ->
     (forall key value, updateWindowCache key value w = mkRun [] w (Normal tt))
     /\ clearWindowCache w = mkRun [] w (Normal tt))
  /\ (forall key value, completion (updateWindowCache key value w) = Normal tt)
  /\ completion (clearWindowCache w) = Normal tt
  /\ (nothingStored w -> world (clearWindowCache w) = w)
  /\ world ((clearWindowCache ;; clearWindowCache) w) = world (clearWindowCache w)
  /\ completion ((clearWindowCache ;; clearWindowCache) w) = Normal tt.
Proof.
  repeat split.
  - intros key value. by apply updateWindowCache_unusable.
  - by apply clearWindowCache_unusable.
  - intros key value. apply updateWindowCache_completion.
  - apply clearWindowCache_completion.
  - intros H. rewrite clearWindowCache_world. by apply cleared_nothingStored.
  - rewrite (bind_world _ _ _ tt) by apply clearWindowCache_completion.
    rewrite !clearWindowCache_world. apply cleared_idemp.
  - rewrite (bind_completion _ _ _ tt) by apply clearWindowCache_completion.
    apply clearWindowCache_completion.
Qed.

Lemma clearWindowCache_silent_and_idempotent_witness :
  (forall key value,
      updateWindowCache key value staleOwnerWorld
      = mkRun [] staleOwnerWorld (Normal tt))
  /\ clearWindowCache staleOwnerWorld = mkRun [] staleOwnerWorld (Normal tt).
Proof.
  apply (clearWindowCache_silent_and_idempotent staleOwnerWorld).
  vm_compute. reflexivity.
Defined.

(** ** Frames: what a computation leaves unchanged *)

Section Frames.

Context {X : Type} (proj : World -> X).

Lemma unchanged_ret {A} (a : A) : unchanged proj (ret a).
Proof. by intros w. Qed.

Lemma unchanged_throw {A} (e : Exn) : unchanged proj (@throw A e).
Proof. by intros w. Qed.

Lemma unchanged_emit (e : Event) : unchanged proj (emit e).
Proof. by intros w. Qed.

Lemma unchanged_read {A} (f : World -> A) : unchanged proj (read f).
Proof. by intros w. Qed.

Lemma unchanged_update (g : World -> World) :
  (forall w, proj (g w) = proj w) -> unchanged proj (update g).
Proof. intros H w. apply H. Qed.

Lemma unchanged_bind {A B} (m : M A) (f : A -> M B) :
  unchanged proj m -> (forall a, unchanged proj (f a)) ->
  unchanged proj (bind m f).
Proof.
  intros Hm Hf w. unfold bind.
  destruct (completion (m w)) as [a|e]; simpl.
  - rewrite Hf. apply Hm.
  - apply Hm.
Qed.

Lemma unchanged_when (c : bool) (m : M unit) :
  unchanged proj m -> unchanged proj (when c m).
Proof. destruct c; [done|]. intros _. apply unchanged_ret. Qed.

Lemma unchanged_detached (m : M unit) :
  unchanged proj m -> unchanged proj (detached m).
Proof. intros H w. apply H. Qed.

End Frames.

Section Effects.

Context (P : Event -> Prop).

Lemma effects_ret {A} (a : A) : effects P (ret a).
Proof. intros w. constructor. Qed.

Lemma effects_throw {A} (e : Exn) : effects P (@throw A e).
Proof. intros w. constructor. Qed.

Lemma effects_read {A} (f : World -> A) : effects P (read f).
Proof. intros w. constructor. Qed.

Lemma effects_update (g : World -> World) : effects P (update g).
Proof. intros w. constructor. Qed.

Lemma effects_emit (e : Event) : P e -> effects P (emit e).
Proof. intros H w. by repeat constructor. Qed.

Lemma effects_bind {A B} (m : M A) (f : A -> M B) :
  effects P m -> (forall a, effects P (f a)) -> effects P (bind m f).
Proof.
  intros Hm Hf w. unfold bind.
  destruct (completion (m w)) as [a|e]; simpl.
  - apply Forall_app. split; [apply Hm | apply Hf].
  - apply Hm.
Qed.

Lemma effects_when (c : bool) (m : M unit) :
  effects P m -> effects P (when c m).
Proof. destruct c; [done|]. intros _. apply effects_ret. Qed.

Lemma effects_detached (m : M unit) :
  effects P m -> effects P (detached m).
Proof. intros H w. apply H. Qed.

End Effects.

(** Decomposes a frame or effect goal along the structure of the code. *)
Ltac frame :=
  repeat lazymatch goal with
    | |- unchanged _ (bind _ _) => apply unchanged_bind
    | |- unchanged _ (ret _) => apply unchanged_ret
    | |- unchanged _ (throw _) => apply unchanged_throw
    | |- unchanged _ (emit _) => apply unchanged_emit
    | |- unchanged _ (read _) => apply unchanged_read
    | |- unchanged _ (when _ _) => apply unchanged_when
    | |- unchanged _ (detached _) => apply unchanged_detached
    | |- unchanged _ (update _) =>
        solve [apply unchanged_update; intros []; reflexivity]
    | |- effects _ (bind _ _) => apply effects_bind
    | |- effects _ (ret _) => apply effects_ret
    | |- effects _ (throw _) => apply effects_throw
    | |- effects _ (read _) => apply effects_read
    | |- effects _ (update _) => apply effects_update
    | |- effects _ (when _ _) => apply effects_when
    | |- effects _ (detached _) => apply effects_detached
    | |- effects _ (emit _) =>
        solve [apply effects_emit; simpl; first [by intros [] | done]]
    | |- unchanged _ (match ?x with _ => _ end) => destruct x
    | |- effects _ (match ?x with _ => _ end) => destruct x
    | |- unchanged _ _ => fail
    | |- effects _ _ => fail
    | |- forall _, _ => intro; cbv beta
    end.

Lemma updateWindowCache_unchanged {X} (proj : World -> X) key value :
  (forall m w, proj (set_sessionValues m w) = proj w) ->
  unchanged proj (updateWindowCache key value).
Proof.
  intros H. unfold updateWindowCache.
  frame; apply unchanged_update; intros w; apply H.
Qed.

Lemma clearWindowCache_unchanged {X} (proj : World -> X) :
  (forall m w, proj (set_sessionValues m w) = proj w) ->
  unchanged proj clearWindowCache.
Proof.
  intros H. unfold clearWindowCache.
  frame; by apply updateWindowCache_unchanged.
Qed.

(** ** The validator *)

Lemma cancel_run (w : World) :
  cancelReservedUpdateCachedTabbar w
  = mkRun match waiting w with Some t => [EvClearTimeout t] | None => [] end
          (canceled w) (Normal tt).
Proof.
  unfold cancelReservedUpdateCachedTabbar, canceled, bind, read. simpl.
  destruct (waiting w); reflexivity.
Qed.

(** The first block, run with the owner [o] at hand. *)
Lemma fetchStoredCache_run (options : Options) (w : World) (o : ApiTab) :
  fetchedOwner w = Some o ->
  let w1 := set_mLastWindowCacheOwner (Some o) w in
  let broken := isBroken (storedCache o w)
                         (option_map signature (storedCache o w)) in
  fetchStoredCache options w
  = mkRun ([EvTabsQuery; EvOwnerAssigned (Some o);
            EvGetTabValue (id o) kWINDOW_STATE_CACHED_SIDEBAR;
            EvGetTabValue (id o) kWINDOW_STATE_CACHED_SIDEBAR_TABS_DIRTY;
            EvGetTabValue (id o) kWINDOW_STATE_CACHED_SIDEBAR_COLLAPSED_DIRTY]
           ++ (if broken then events (clearWindowCache w1) else []))
          (if broken then cleared w1 else w1)
          (Normal (validated options o w)).
Proof.
  intros Ho. unfold fetchedOwner in Ho. simpl.
  unfold fetchStoredCache, validated, storedCache, storedTabsDirty,
    storedCollapsedDirty.
  unfold bind at 1 2 3 4 5 6 7, assignOwner, getWindowCache, emit, read, update.
  simpl. rewrite Ho. simpl.
  destruct (isBroken _ _) eqn:Hb.
  - unfold bind.
    pose proof (clearWindowCache_completion
                  (set_mLastWindowCacheOwner (Some o) w)) as Hc.
    pose proof (clearWindowCache_world
                  (set_mLastWindowCacheOwner (Some o) w)) as Hw.
    destruct (clearWindowCache _) as [ev wd cp]. simpl in *. subst.
    simpl. rewrite ?app_nil_r. reflexivity.
  - reflexivity.
Qed.

(** Without a tab in the current window, the first block throws. *)
Lemma fetchStoredCache_no_tab (options : Options) (w : World) :
  fetchedOwner w = None ->
  fetchStoredCache options w
  = mkRun [EvTabsQuery; EvOwnerAssigned None]
          (set_mLastWindowCacheOwner None w)
          (Thrown (TypeError "mLastWindowCacheOwner is undefined")).
Proof.
  intros Ho. unfold fetchedOwner in Ho.
  unfold fetchStoredCache, bind, assignOwner, getWindowCache, emit, read, update.
  simpl. rewrite Ho. reflexivity.
Qed.

Lemma canceled_fetchedOwner (w : World) :
  fetchedOwner (canceled w) = fetchedOwner w.
Proof. unfold canceled. by destruct (waiting w). Qed.

Lemma canceled_validated options o (w : World) :
  validated options o (canceled w) = validated options o w.
Proof. unfold canceled. by destruct (waiting w). Qed.

Lemma canceled_sessionValues (w : World) :
  sessionValues (canceled w) = sessionValues w.
Proof. unfold canceled. by destruct (waiting w). Qed.

Lemma cleared_signature i (w : World) :
  getWindowSignature i (cleared w) = getWindowSignature i w.
Proof.
  unfold cleared.
  destruct (mLastWindowCacheOwner w) as [o|]; [|done].
  by destruct (getTabById o w).
Qed.

Lemma cleared_mTargetWindow (w : World) :
  mTargetWindow (cleared w) = mTargetWindow w.
Proof.
  unfold cleared.
  destruct (mLastWindowCacheOwner w) as [o|]; [|done].
  by destruct (getTabById o w).
Qed.

Lemma clear_then_ret {A} (a : A) (w : World) :
  (clearWindowCache ;; ret a) w
  = mkRun (events (clearWindowCache w)) (cleared w) (Normal a).
Proof.
  unfold bind.
  pose proof (clearWindowCache_completion w) as Hc.
  pose proof (clearWindowCache_world w) as Hw.
  destruct (clearWindowCache w) as [ev wd cp]. simpl in *. subst.
  simpl. by rewrite app_nil_r.
Qed.

Lemma fetched_signature o (w : World) :
  getWindowSignature (mTargetWindow (fetched o w)) (fetched o w)
  = getWindowSignature (mTargetWindow w) w.
Proof.
  unfold fetched. destruct (isBroken _ _).
  - rewrite cleared_signature, cleared_mTargetWindow.
    unfold canceled. by destruct (waiting w).
  - unfold canceled. by destruct (waiting w).
Qed.

(** A run of [getEffectiveWindowCache] when the current window has a tab. *)
Lemma getEffectiveWindowCache_run options (w : World) (o : ApiTab) :
  fetchedOwner w = Some o ->
  getEffectiveWindowCache options w
  = mkRun (match waiting w with Some t => [EvClearTimeout t] | None => [] end
           ++ events (fetchStoredCache options (canceled w))
           ++ match effectiveCache options o w with
              | Some _ => []
              | None => events (clearWindowCache (fetched o w))
              end)
          (match effectiveCache options o w with
           | Some _ => fetched o w
           | None => cleared (fetched o w)
           end)
          (Normal (effectiveCache options o w)).
Proof.
  intros Ho. unfold getEffectiveWindowCache.
  rewrite (bind_run _ _ _ _ _ _ (cancel_run w)).
  assert (fetchedOwner (canceled w) = Some o) as Ho'
      by by rewrite canceled_fetchedOwner.
  pose proof (fetchStoredCache_run options _ o Ho') as Hf. simpl in Hf.
  assert (storedCache o (canceled w) = storedCache o w) as Hsc
      by (unfold canceled; by destruct (waiting w)).
  rewrite Hsc in Hf. fold (fetched o w) in Hf.
  rewrite canceled_validated in Hf.
  assert (events (fetchStoredCache options (canceled w))
          = [EvTabsQuery; EvOwnerAssigned (Some o);
             EvGetTabValue (id o) kWINDOW_STATE_CACHED_SIDEBAR;
             EvGetTabValue (id o) kWINDOW_STATE_CACHED_SIDEBAR_TABS_DIRTY;
             EvGetTabValue (id o) kWINDOW_STATE_CACHED_SIDEBAR_COLLAPSED_DIRTY]
            ++ (if isBroken (storedCache o w)
                            (option_map signature (storedCache o w))
                then events
                       (clearWindowCache
                          (set_mLastWindowCacheOwner (Some o) (canceled w)))
                else [])) as Hev by by rewrite Hf.
  rewrite Hev.
  rewrite (bind_run _ _ _ _ _ _ Hf).
  rewrite (bind_run (read _) _ (fetched o w) (fetched o w) []
             (getWindowSignature (mTargetWindow (fetched o w)) (fetched o w)))
    by reflexivity.
  rewrite fetched_signature. unfold effectiveCache. simpl.
  destruct (validated options o w) as [[c|] cs]; simpl.
  - destruct (matcheSignatures _ cs); simpl.
    + by rewrite !app_nil_r.
    + by rewrite clear_then_ret.
  - by rewrite clear_then_ret.
Qed.

Lemma trimPinned_version options p c cs :
  trimPinned options p = (Some c, cs) ->
  exists c0, fst p = Some c0 /\ version c = version c0.
Proof.
  unfold trimPinned. destruct p as [[c0|] [s|]].
  - destruct (_ && _); intros [= <- <-]; eauto.
  - intros [= <- <-]; eauto.
  - intros [=].
  - intros [=].
Qed.

Lemma validated_version options o (w : World) c cs :
  validated options o w = (Some c, cs) ->
  exists c0, storedCache o w = Some c0
             /\ version c0 = kSIDEBAR_CONTENTS_VERSION.
Proof.
  unfold validated, verifyVersion.
  destruct (trimPinned _ _) as [[c1|] cs1] eqn:Ht; [|intros [=]].
  destruct (Z.eqb_spec (version c1) kSIDEBAR_CONTENTS_VERSION) as [Hv|Hv];
    [|intros [=]].
  intros _. apply trimPinned_version in Ht as (c0 & Hc0 & Hvc).
  destruct (isBroken _ _); simpl in Hc0; [discriminate|].
  exists c0. split; [done|congruence].
Qed.

(** C3: a fetched snapshot whose version is not the current one is never
    returned: [getEffectiveWindowCache] completes with [null], whatever the
    two signatures are and whatever [matcheSignatures] says of them. *)
Theorem getEffectiveWindowCache_version_gate
        (options : Options) (w : World) (o : ApiTab) (s : Cache) :
  fetchedOwner w = Some o ->
  sessionValues w !! (id o, kWINDOW_STATE_CACHED_SIDEBAR) = Some (VCache s) ->
  version s <> kSIDEBAR_CONTENTS_VERSION ->
  completion (getEffectiveWindowCache options w) = Normal None.
Proof.
  intros Ho Hs Hv. rewrite (getEffectiveWindowCache_run options w o Ho). simpl.
  f_equal. unfold effectiveCache.
  destruct (validated options o w) as [[c|] cs] eqn:Hval; [|reflexivity].
  apply validated_version in Hval as (c0 & Hc0 & Hvc).
  unfold storedCache in Hc0. rewrite Hs in Hc0. simpl in Hc0.
  congruence.
Qed.

(** C1: a fetched snapshot of the shape [updateCachedTabbar] writes (it has
    no [tabs] property) whose signature is not the one of its own contents is
    not discarded: when its version is current and its signature matches the
    live one, [getEffectiveWindowCache] returns it, contents and signature as
    stored, and the store keeps what it held. *)
Theorem getEffectiveWindowCache_keeps_inconsistent_cache
        (options : Options) (w : World) (o : ApiTab) (s : Cache) :
  fetchedOwner w = Some o ->
  sessionValues w !! (id o, kWINDOW_STATE_CACHED_SIDEBAR) = Some (VCache s) ->
  tabs s = false ->
  signature s <> signatureFromTabsCache (contents (tabbar s)) ->
  ignorePinnedTabs options = false ->
  version s = kSIDEBAR_CONTENTS_VERSION ->
  matcheSignatures (getWindowSignature (mTargetWindow w) w)
                   (Some (signature s)) = true ->
  exists c,
    completion (getEffectiveWindowCache options w) = Normal (Some c)
    /\ contents (tabbar c) = contents (tabbar s)
    /\ signature c = signature s
    /\ sessionValues (world (getEffectiveWindowCache options w))
       = sessionValues w.
Proof.
  intros Ho Hs Ht Hne Hopt Hv Hm.
  rewrite (getEffectiveWindowCache_run options w o Ho). simpl.
  assert (storedCache o w = Some s) as Hsc
      by (unfold storedCache; by rewrite Hs).
  assert (validated options o w
          = (Some (with_signature (signature s)
                     (with_tabbar
                        (with_dirty (asFlag (storedTabsDirty o w))
                                    (asFlag (storedCollapsedDirty o w))
                                    (tabbar s)) s)),
             Some (signature s))) as Hval.
  { unfold validated. rewrite Hsc. simpl. rewrite Ht. simpl.
    rewrite Hopt. simpl. rewrite Hv, Z.eqb_refl. reflexivity. }
  unfold effectiveCache. rewrite Hval, Hm.
  eexists. split; [reflexivity|]. simpl. repeat split.
  unfold fetched. rewrite Hsc. simpl. rewrite Ht. simpl.
  apply canceled_sessionValues.
Qed.


(** ** Strings: replace, trim and split on the lines of a signature *)

Lemma chars_text (l : list ascii) : JS.chars (JS.text l) = l.
Proof. apply list_ascii_of_string_of_list_ascii. Qed.

Lemma text_chars (s : string) : JS.text (JS.chars s) = s.
Proof. apply string_of_list_ascii_of_string. Qed.

Lemma chars_append (s1 s2 : string) :
  JS.chars (String.append s1 s2) = JS.chars s1 ++ JS.chars s2.
Proof. induction s1 as [|c s1 IH]; simpl; [done|]. by rewrite <- IH. Qed.

Lemma chars_join (sep : ascii) (parts : list string) :
  JS.chars (JS.join parts (String sep EmptyString))
  = intercalate sep (map JS.chars parts).
Proof.
  unfold JS.join. induction parts as [|p [|q parts] IH]; [done..|].
  change (String.concat (String sep EmptyString) (p :: q :: parts))
    with (String.append p
            (String.append (String sep EmptyString)
               (String.concat (String sep EmptyString) (q :: parts)))).
  rewrite !chars_append, IH. reflexivity.
Qed.

Lemma chars_join_lines (parts : list string) :
  JS.chars (JS.join parts LFs) = unlines (map JS.chars parts).
Proof. apply chars_join. Qed.

Lemma truthy_text (l : list ascii) : JS.truthy (JS.text l) = true <-> l <> [].
Proof. destruct l; simpl; [|done]. split; [done|]. intros H. by destruct H. Qed.

Lemma unlines_cons (line : list ascii) (rest : list (list ascii)) :
  rest <> [] -> unlines (line :: rest) = line ++ LF :: unlines rest.
Proof. by destruct rest. Qed.

Lemma unlines_app (l1 l2 : list (list ascii)) :
  l1 <> [] -> l2 <> [] ->
  unlines (l1 ++ l2) = unlines l1 ++ LF :: unlines l2.
Proof.
  intros H1 H2. induction l1 as [|x [|y l1] IH]; [done| |].
  - simpl. by destruct l2.
  - change ((x :: y :: l1) ++ l2) with (x :: (y :: l1) ++ l2).
    rewrite unlines_cons by (simpl; discriminate). rewrite IH by done.
    rewrite (unlines_cons x) by done. by rewrite <- app_assoc.
Qed.

Lemma isPrefix_chars_app (p r : list ascii) : JS.isPrefix_chars p (p ++ r) = true.
Proof.
  induction p as [|a p IH]; simpl; [done|].
  destruct (ascii_dec a a); [apply IH|done].
Qed.

Lemma replace_chars_prefix (p r : list ascii) :
  JS.replace_chars p [] (p ++ r) = r.
Proof.
  assert (forall l, JS.isPrefix_chars p l = true ->
                    JS.replace_chars p [] l = drop (length p) l) as H.
  { intros l Hl. destruct l; simpl; by rewrite Hl. }
  rewrite H by apply isPrefix_chars_app.
  by rewrite drop_app_length.
Qed.

Lemma trimStart_app (l x : list ascii) :
  nonBlank l -> JS.trimStart_chars (l ++ x) = JS.trimStart_chars l ++ x.
Proof.
  induction 1 as [c l Hc|c l _ IH]; simpl.
  - by rewrite Hc.
  - destruct (JS.isWhiteSpace c); [apply IH|done].
Qed.

Lemma trimStart_nonBlank (l : list ascii) :
  nonBlank l -> nonBlank (JS.trimStart_chars l).
Proof.
  induction 1 as [c l Hc|c l H IH]; simpl.
  - rewrite Hc. by constructor.
  - destruct (JS.isWhiteSpace c) eqn:Hc; [apply IH|]. by constructor.
Qed.

Lemma trimStart_Forall (P : ascii -> Prop) (l : list ascii) :
  Forall P l -> Forall P (JS.trimStart_chars l).
Proof.
  induction 1 as [|c l Hc Hl IH]; simpl; [done|].
  destruct (JS.isWhiteSpace c); [apply IH|]. by constructor.
Qed.

Lemma nonBlank_rev (l : list ascii) : nonBlank l -> nonBlank (rev l).
Proof.
  apply List.Exists_rev.
Qed.

Lemma nonBlank_app_l (x l : list ascii) : nonBlank x -> nonBlank (x ++ l).
Proof. intros H. apply Exists_app. by left. Qed.

Lemma trimEnd_app (x l : list ascii) :
  nonBlank l -> JS.trimEnd_chars (x ++ l) = x ++ JS.trimEnd_chars l.
Proof.
  intros H. unfold JS.trimEnd_chars.
  rewrite rev_app_distr, trimStart_app by by apply nonBlank_rev.
  by rewrite rev_app_distr, rev_involutive.
Qed.

Lemma trimEnd_nonBlank (l : list ascii) :
  nonBlank l -> nonBlank (JS.trimEnd_chars l).
Proof.
  intros H. unfold JS.trimEnd_chars.
  apply nonBlank_rev, trimStart_nonBlank, nonBlank_rev, H.
Qed.

Lemma trimEnd_Forall (P : ascii -> Prop) (l : list ascii) :
  Forall P l -> Forall P (JS.trimEnd_chars l).
Proof.
  intros H. unfold JS.trimEnd_chars.
  apply List.Forall_rev, trimStart_Forall, List.Forall_rev, H.
Qed.

Lemma isRecord_nonempty (l : list ascii) : isRecord l -> l <> [].
Proof. intros [_ H] ->. inversion H. Qed.

Lemma unlines_nonBlank (lines : list (list ascii)) :
  lines <> [] -> Forall isRecord lines -> nonBlank (unlines lines).
Proof.
  intros Hne H. destruct H as [|x l [_ Hx] Hl]; [done|].
  destruct l; [done|]. rewrite unlines_cons by done.
  by apply nonBlank_app_l.
Qed.

(** Trimming a text of records leaves a text of as many records. *)
Lemma trimStart_unlines (lines : list (list ascii)) :
  lines <> [] -> Forall isRecord lines ->
  exists lines', JS.trimStart_chars (unlines lines) = unlines lines'
                 /\ length lines' = length lines
                 /\ Forall isRecord lines'.
Proof.
  intros Hne H. destruct H as [|x l [Hx1 Hx2] Hl]; [done|].
  exists (JS.trimStart_chars x :: l). split; [|split].
  - destruct l as [|y l]; [done|].
    rewrite !unlines_cons by done. by apply trimStart_app.
  - done.
  - constructor; [|done].
    split; [by apply trimStart_Forall | by apply trimStart_nonBlank].
Qed.

Lemma trimEnd_unlines (lines : list (list ascii)) :
  lines <> [] -> Forall isRecord lines ->
  exists lines', JS.trimEnd_chars (unlines lines) = unlines lines'
                 /\ length lines' = length lines
                 /\ Forall isRecord lines'.
Proof.
  intros Hne H. induction H as [|x l [Hx1 Hx2] Hl IH]; [done|].
  destruct l as [|y l].
  - exists [JS.trimEnd_chars x]. split; [done|]. split; [done|].
    constructor; [|done].
    split; [by apply trimEnd_Forall | by apply trimEnd_nonBlank].
  - destruct IH as (lines' & Heq & Hlen & Hall); [done|].
    exists (x :: lines'). split; [|split].
    + rewrite unlines_cons by done.
      change (x ++ LF :: unlines (y :: l))
        with (x ++ [LF] ++ unlines (y :: l)).
      rewrite app_assoc, trimEnd_app by by apply unlines_nonBlank.
      rewrite Heq, <- app_assoc.
      rewrite unlines_cons; [done|]. intros ->. discriminate Hlen.
    + simpl. by rewrite Hlen.
    + by constructor.
Qed.

Lemma split_chars_part (sep : ascii) (part : list ascii) :
  Forall (fun c => c <> sep) part -> JS.split_chars sep part = [part].
Proof.
  induction 1 as [|c l Hc Hl IH]; simpl; [done|].
  destruct (ascii_dec c sep); [done|]. by rewrite IH.
Qed.

Lemma split_chars_app (sep : ascii) (part rest : list ascii) :
  Forall (fun c => c <> sep) part ->
  JS.split_chars sep (part ++ sep :: rest) = part :: JS.split_chars sep rest.
Proof.
  induction 1 as [|c l Hc Hl IH]; simpl.
  - by destruct (ascii_dec sep sep).
  - destruct (ascii_dec c sep); [done|]. by rewrite IH.
Qed.

(** Splitting a joined text gives its parts back, when no part holds the
    separator. *)
Lemma split_chars_intercalate (sep : ascii) (parts : list (list ascii)) :
  parts <> [] -> Forall (Forall (fun c => c <> sep)) parts ->
  JS.split_chars sep (intercalate sep parts) = parts.
Proof.
  intros Hne H. induction H as [|x l Hx Hl IH]; [done|].
  destruct l as [|y l]; [by apply split_chars_part|].
  change (intercalate sep (x :: y :: l))
    with (x ++ sep :: intercalate sep (y :: l)).
  rewrite split_chars_app by done. by rewrite IH.
Qed.

Lemma split_chars_unlines (lines : list (list ascii)) :
  lines <> [] -> Forall isRecord lines ->
  JS.split_chars LF (unlines lines) = lines.
Proof.
  intros Hne H. apply split_chars_intercalate; [done|].
  eapply Forall_impl; [apply H|]. by intros l [? _].
Qed.

Lemma filter_truthy_records (lines : list (list ascii)) :
  Forall isRecord lines ->
  filter (fun part => JS.truthy part = true) (map JS.text lines)
  = map JS.text lines.
Proof.
  induction 1 as [|x l Hx Hl IH]; [done|]. simpl.
  rewrite filter_cons_True by by apply truthy_text, isRecord_nonempty.
  by rewrite IH.
Qed.

(** Counting the lines of a trimmed text of records: one per record.  The
    text may begin with a line feed. *)
Lemma count_trimmed_lines (pre : list ascii) (lines : list (list ascii)) :
  pre = [] \/ pre = [LF] ->
  lines <> [] -> Forall isRecord lines ->
  length (filter (fun part => JS.truthy part = true)
            (JS.split (JS.trim (JS.text (pre ++ unlines lines))) LF))
  = length lines.
Proof.
  intros Hpre Hne H.
  unfold JS.trim, JS.split. rewrite !chars_text.
  assert (JS.trimStart_chars (pre ++ unlines lines)
          = JS.trimStart_chars (unlines lines)) as ->.
  { destruct Hpre as [-> | ->]; reflexivity. }
  destruct (trimStart_unlines lines Hne H) as (l1 & -> & Hlen1 & H1).
  assert (l1 <> []) as Hne1 by (intros ->; by destruct lines).
  destruct (trimEnd_unlines l1 Hne1 H1) as (l2 & -> & Hlen2 & H2).
  assert (l2 <> []) as Hne2 by (intros ->; by destruct l1).
  rewrite split_chars_unlines, filter_truthy_records by done.
  rewrite length_map. congruence.
Qed.

(** The offset computed from the signature of [T] and the signature of [T]
    followed by [E] is the number of tabs of [E]. *)
Lemma offsetOf_extension (T E : list ApiTab) :
  wellFormedRecords E ->
  offsetOf (computeSignature (T ++ E)) (Some (computeSignature T)) = length E.
Proof.
  intros HE. unfold offsetOf, JS.replace, computeSignature. simpl.
  rewrite !chars_join_lines, !map_app.
  set (LT := map JS.chars (map signatureRecord T)).
  set (LE := map JS.chars (map signatureRecord E)).
  assert (Forall isRecord LE) as HLE.
  { unfold LE. rewrite map_map. apply Forall_map. apply HE. }
  assert (length LE = length E) as Hlen by (unfold LE; by rewrite !length_map).
  destruct (decide (LE = [])) as [HeE|HneE].
  - rewrite HeE in *. rewrite app_nil_r.
    rewrite <- (app_nil_r (unlines LT)) at 2.
    rewrite replace_chars_prefix. simpl in Hlen. by rewrite <- Hlen.
  - rewrite <- Hlen. destruct (decide (LT = [])) as [HeT|HneT].
    + rewrite HeT. simpl app. simpl (unlines []).
      pose proof (replace_chars_prefix [] (unlines LE)) as Hr.
      simpl app in Hr. rewrite Hr.
      by apply (count_trimmed_lines []); [left| |].
    + rewrite unlines_app by done. rewrite replace_chars_prefix.
      change (LF :: unlines LE) with ([LF] ++ unlines LE).
      by apply count_trimmed_lines; [right| |].
Qed.

Lemma fetchStoredCache_throws (options : Options) (w : World) :
  fetchedOwner w = None ->
  completion (getEffectiveWindowCache options w)
  = Thrown (TypeError "mLastWindowCacheOwner is undefined").
Proof.
  intros Ho. unfold getEffectiveWindowCache.
  rewrite (bind_run _ _ _ _ _ _ (cancel_run w)).
  assert (fetchedOwner (canceled w) = None) as Ho'
      by by rewrite canceled_fetchedOwner.
  by rewrite (bind_thrown _ _ _ _ _ _ (fetchStoredCache_no_tab options _ Ho')).
Qed.

(** C2: when the first block leaves as cached signature the signature of
    [T], the live tabs of the window are [T] followed by [E], and
    [getEffectiveWindowCache] succeeds, the offset of the cache it returns is
    the number of tabs of [E].  The records of [E] are lines of the
    signature: none has a line feed, none is blank. *)
Theorem getEffectiveWindowCache_offset
        (options : Options) (w : World) (T E : list ApiTab) (c0 c : Cache) :
  wellFormedRecords E ->
  tabsOfWindow (mTargetWindow w) w = T ++ E ->
  completion (fetchStoredCache options (canceled w))
  = Normal (Some c0, Some (computeSignature T)) ->
  completion (getEffectiveWindowCache options w) = Normal (Some c) ->
  offset c = Some (length E).
Proof.
  intros HE Hlive Hfetch Hret.
  destruct (fetchedOwner w) as [o|] eqn:Ho;
    [|by rewrite fetchStoredCache_throws in Hret].
  rewrite (getEffectiveWindowCache_run options w o Ho) in Hret. simpl in Hret.
  rewrite fetchStoredCache_run with (o := o) in Hfetch
    by by rewrite canceled_fetchedOwner.
  simpl in Hfetch. rewrite canceled_validated in Hfetch.
  injection Hfetch as Hval. injection Hret as Hret.
  unfold effectiveCache in Hret. rewrite Hval in Hret.
  unfold getWindowSignature in Hret. rewrite Hlive in Hret.
  destruct (matcheSignatures _ _); [|discriminate].
  injection Hret as <-. simpl. by rewrite offsetOf_extension.
Qed.

(** ** The owner handle *)

Create HintDb frames.

Lemma ownerUntouched_intro {A} (m : M A) :
  unchanged mLastWindowCacheOwner m ->
  effects (fun e => ~ isOwnerAssignment e) m ->
  ownerUntouched m.
Proof. by split. Qed.

Lemma owner_setTimeout task : ownerUntouched (setTimeout task).
Proof. split; intros w; simpl; [done|]. repeat constructor. by intros []. Qed.

Lemma owner_clearTimeout t : ownerUntouched (clearTimeout t).
Proof. split; intros w; simpl; [done|]. repeat constructor. by intros []. Qed.

Lemma owner_restoreInternal i tabs offset cache shouldUpdate :
  ownerUntouched (restoreInternal i tabs offset cache shouldUpdate).
Proof. split; intros w; simpl; [done|]. constructor. Qed.

#[local] Hint Resolve owner_setTimeout owner_clearTimeout owner_restoreInternal
  : frames.

(** Splits [ownerUntouched], follows the code, and closes the calls of
    functions already known not to touch the owner. *)
Ltac untouched :=
  apply ownerUntouched_intro; frame;
  lazymatch goal with
  | |- unchanged _ ?m =>
      let H := fresh in
      assert (ownerUntouched m) as H by eauto with frames; apply H
  | |- effects _ ?m =>
      let H := fresh in
      assert (ownerUntouched m) as H by eauto with frames; apply H
  end.

Lemma owner_getWindowCache key : ownerUntouched (getWindowCache key).
Proof. unfold getWindowCache. untouched. Qed.

Lemma owner_updateWindowCache key value :
  ownerUntouched (updateWindowCache key value).
Proof. unfold updateWindowCache. untouched. Qed.

#[local] Hint Resolve owner_getWindowCache owner_updateWindowCache : frames.

Lemma owner_clearWindowCache : ownerUntouched clearWindowCache.
Proof. unfold clearWindowCache. untouched. Qed.

#[local] Hint Resolve owner_clearWindowCache : frames.

Lemma owner_markWindowCacheDirty akey : ownerUntouched (markWindowCacheDirty akey).
Proof. unfold markWindowCacheDirty. untouched. Qed.

Lemma owner_reserveToUpdateCachedTabbar : ownerUntouched reserveToUpdateCachedTabbar.
Proof.
  unfold reserveToUpdateCachedTabbar, hasCreatingTab, waitUntilAllTabsAreCreated.
  untouched.
Qed.

Lemma owner_cancelReservedUpdateCachedTabbar :
  ownerUntouched cancelReservedUpdateCachedTabbar.
Proof. unfold cancelReservedUpdateCachedTabbar. untouched. Qed.

#[local] Hint Resolve owner_markWindowCacheDirty owner_reserveToUpdateCachedTabbar
  owner_cancelReservedUpdateCachedTabbar : frames.

Lemma owner_init : ownerUntouched init.
Proof. unfold init. untouched. Qed.

Lemma owner_startTracking : ownerUntouched startTracking.
Proof. unfold startTracking. untouched. Qed.

Lemma owner_collapseExpandAll tabs structure :
  ownerUntouched (collapseExpandAll tabs structure).
Proof.
  revert structure. induction tabs as [|tab tabs IH]; intros structure; simpl.
  - untouched.
  - destruct structure as [|item structure]; [untouched|].
    specialize (IH structure). untouched.
Qed.

#[local] Hint Resolve owner_collapseExpandAll : frames.

Lemma owner_restoreTabsFromCache cache params :
  ownerUntouched (restoreTabsFromCache cache params).
Proof.
  unfold restoreTabsFromCache, applyCache, pullTreeStructure, removeContainer.
  untouched.
Qed.

Lemma owner_onTabsEvent e : ownerUntouched (onTabsEvent e).
Proof. unfold onTabsEvent. destruct e; untouched. Qed.

Lemma owner_onConfigChange changedKey : ownerUntouched (onConfigChange changedKey).
Proof. unfold onConfigChange. untouched. Qed.

Lemma ownerAssignments_app (l1 l2 : list Event) :
  ownerAssignments (l1 ++ l2) = ownerAssignments l1 ++ ownerAssignments l2.
Proof. apply omap_app. Qed.

Lemma ownerAssignments_none (evs : list Event) :
  Forall (fun e => ~ isOwnerAssignment e) evs -> ownerAssignments evs = [].
Proof.
  induction 1 as [|e evs He _ IH]; [done|].
  unfold ownerAssignments in *.
  destruct e; cbn in *; try exact IH. by destruct He.
Qed.

Lemma storageOn_app i (l1 l2 : list Event) :
  storageOn i l1 -> storageOn i l2 -> storageOn i (l1 ++ l2).
Proof. intros H1 H2. by apply Forall_app. Qed.

Lemma updateWindowCache_events key value (w : World) :
  events (updateWindowCache key value w)
  = match mLastWindowCacheOwner w with
    | Some o =>
        match getTabById o w with
        | Some _ =>
            match value with
            | Some v => [EvSetTabValue (id o) key v]
            | None => [EvRemoveTabValue (id o) key]
            end
        | None => []
        end
    | None => []
    end.
Proof.
  unfold updateWindowCache, bind, read. simpl.
  destruct (mLastWindowCacheOwner w) as [o|]; [|reflexivity]. simpl.
  destruct (getTabById o w); [|reflexivity].
  destruct value; reflexivity.
Qed.

Lemma updateWindowCache_storageOn key value (w : World) o :
  mLastWindowCacheOwner w = Some o ->
  storageOn (id o) (events (updateWindowCache key value w)).
Proof.
  intros Ho. rewrite updateWindowCache_events, Ho.
  destruct (getTabById o w); [|constructor].
  destruct value; repeat constructor; by right.
Qed.

Lemma clearWindowCache_storageOn (w : World) o :
  mLastWindowCacheOwner w = Some o ->
  storageOn (id o) (events (clearWindowCache w)).
Proof.
  intros Ho. unfold clearWindowCache.
  pose proof (proj1 (owner_updateWindowCache kWINDOW_STATE_CACHED_SIDEBAR None)) as U1.
  pose proof (proj1 (owner_updateWindowCache
                       kWINDOW_STATE_CACHED_SIDEBAR_TABS_DIRTY None)) as U2.
  rewrite (bind_events _ _ _ tt) by apply updateWindowCache_completion.
  apply storageOn_app; [by apply updateWindowCache_storageOn|].
  rewrite (bind_events _ _ _ tt) by apply updateWindowCache_completion.
  apply storageOn_app; apply updateWindowCache_storageOn.
  - by rewrite U1.
  - by rewrite U2, U1.
Qed.

Lemma fetched_owner o (w : World) :
  mLastWindowCacheOwner (fetched o w) = Some o.
Proof.
  unfold fetched. destruct (isBroken _ _); [|done].
  unfold cleared. simpl. by destruct (getTabById o _).
Qed.

Lemma cancel_events_plain (w : World) :
  ownerAssignments
    match waiting w with Some t => [EvClearTimeout t] | None => [] end = []
  /\ forall i,
       storageOn i match waiting w with Some t => [EvClearTimeout t] | None => [] end.
Proof.
  destruct (waiting w); split; try done; intros i; repeat constructor.
Qed.

(** One run of [getEffectiveWindowCache] assigns the owner once, to the last
    tab of the current window. *)
Lemma getEffectiveWindowCache_assignments options (w : World) :
  ownerAssignments (events (getEffectiveWindowCache options w))
  = [fetchedOwner w]
  /\ mLastWindowCacheOwner (world (getEffectiveWindowCache options w))
     = fetchedOwner w.
Proof.
  destruct (fetchedOwner w) as [o|] eqn:Ho.
  - rewrite (getEffectiveWindowCache_run options w o Ho).
    cbn [events world completion]. split.
    + rewrite fetchStoredCache_run with (o := o)
        by by rewrite canceled_fetchedOwner.
      cbn [events world completion]. rewrite !ownerAssignments_app.
      rewrite (proj1 (cancel_events_plain w)). rewrite app_nil_l.
      assert (forall w', ownerAssignments (events (clearWindowCache w')) = [])
        as Hclear
        by (intros w'; apply ownerAssignments_none, owner_clearWindowCache).
      change (ownerAssignments
                (EvTabsQuery :: EvOwnerAssigned (Some o)
                 :: EvGetTabValue (id o) kWINDOW_STATE_CACHED_SIDEBAR
                 :: EvGetTabValue (id o) kWINDOW_STATE_CACHED_SIDEBAR_TABS_DIRTY
                 :: [EvGetTabValue (id o)
                       kWINDOW_STATE_CACHED_SIDEBAR_COLLAPSED_DIRTY]))
        with [Some o].
      assert (forall (b : bool) l, ownerAssignments l = [] ->
                ownerAssignments (if b then l else []) = []) as Hif
          by (by intros []).
      rewrite Hif by apply Hclear. cbn [app]. f_equal.
      destruct (effectiveCache options o w); [done|apply Hclear].
    + destruct (effectiveCache options o w).
      * apply fetched_owner.
      * rewrite <- clearWindowCache_world.
        rewrite (proj1 owner_clearWindowCache). apply fetched_owner.
  - unfold getEffectiveWindowCache.
    rewrite (bind_run _ _ _ _ _ _ (cancel_run w)).
    assert (fetchedOwner (canceled w) = None) as Ho'
        by by rewrite canceled_fetchedOwner.
    rewrite (bind_thrown _ _ _ _ _ _ (fetchStoredCache_no_tab options _ Ho')).
    simpl. rewrite ownerAssignments_app, (proj1 (cancel_events_plain w)).
    done.
Qed.

(** Every store access of that run is made on the tab it took as owner. *)
Lemma getEffectiveWindowCache_storageOn options (w : World) o :
  fetchedOwner w = Some o ->
  storageOn (id o) (events (getEffectiveWindowCache options w)).
Proof.
  intros Ho. rewrite (getEffectiveWindowCache_run options w o Ho).
  cbn [events world completion].
  apply storageOn_app; [apply cancel_events_plain|].
  apply storageOn_app.
  - rewrite fetchStoredCache_run with (o := o)
      by by rewrite canceled_fetchedOwner.
    cbn [events world completion]. apply storageOn_app.
    { repeat (constructor; [by (left + right)|]). constructor. }
    destruct (isBroken _ _); [|constructor].
    by apply clearWindowCache_storageOn.
  - destruct (effectiveCache options o w); [constructor|].
    apply clearWindowCache_storageOn, fetched_owner.
Qed.

(** A run of [updateCachedTabbar]: it assigns the owner once, to the last
    tab's [apiTab], when it gets as far as its write, and never otherwise;
    the write is made on that owner. *)
Lemma updateCachedTabbar_assignments (w : World) :
  ownerAssignments (events (updateCachedTabbar w))
  = (if rebuilds w then [getWindowCacheOwner w] else [])
  /\ mLastWindowCacheOwner (world (updateCachedTabbar w))
     = (if rebuilds w then getWindowCacheOwner w else mLastWindowCacheOwner w)
  /\ (Exists isSnapshotWrite (events (updateCachedTabbar w)) ->
      exists o, rebuilds w = true /\ getWindowCacheOwner w = Some o
                /\ storageOn (id o) (events (updateCachedTabbar w))).
Proof.
  assert (forall w' : World,
            getTabsContainer (mTargetWindow w') w'
            = getTabsContainer (mTargetWindow w) w ->
            getWindowCacheOwner w' = getWindowCacheOwner w ->
            mLastWindowCacheOwner w' = mLastWindowCacheOwner w ->
            useCachedTree w = true ->
            forall r,
              r = (container <- read (fun w => getTabsContainer (mTargetWindow w) w) ;;
                   signature <- read (fun w => getWindowSignature (mTargetWindow w) w) ;;
                   match container with
                   | None => throw (TypeError "container is null")
                   | Some c =>
                       if allTabsRestored c then ret tt
                       else
                         owner <- read getWindowCacheOwner ;;
                         assignOwner owner ;;
                         cache <- read (newCache c signature) ;;
                         updateWindowCache kWINDOW_STATE_CACHED_SIDEBAR
                           (Some (VCache cache))
                   end) w' ->
              ownerAssignments (events r)
              = (if rebuilds w then [getWindowCacheOwner w] else [])
              /\ mLastWindowCacheOwner (world r)
                 = (if rebuilds w then getWindowCacheOwner w
                    else mLastWindowCacheOwner w)
              /\ (Exists isSnapshotWrite (events r) ->
                  exists o, rebuilds w = true
                            /\ getWindowCacheOwner w = Some o
                            /\ storageOn (id o) (events r))) as Hcore.
  { intros w' Hc Hg Hm Hu r ->. unfold rebuilds. rewrite Hu. cbn [andb].
    rewrite !bind_read, Hc.
    destruct (getTabsContainer (mTargetWindow w) w) as [c|];
      [|by split; [|split; [|inversion 1]]].
    destruct (allTabsRestored c); cbn [negb];
      [by split; [|split; [|inversion 1]]|].
    rewrite bind_read, Hg. unfold assignOwner.
    rewrite bind_assoc, bind_emit, bind_update, bind_read.
    cbn [events world completion].
    set (w2 := set_mLastWindowCacheOwner (getWindowCacheOwner w) w').
    set (v := Some (VCache _)).
    rewrite updateWindowCache_events.
    rewrite (proj1 (owner_updateWindowCache kWINDOW_STATE_CACHED_SIDEBAR v)).
    change (mLastWindowCacheOwner w2) with (getWindowCacheOwner w).
    split; [|split; [done|]].
    - destruct (getWindowCacheOwner w) as [o|]; [|done].
      by destruct (getTabById o w2).
    - intros Hex. destruct (getWindowCacheOwner w) as [o|].
      + exists o. split; [done|]. split; [done|].
        constructor; [by left|].
        destruct (getTabById o w2); repeat constructor; by right.
      + inversion Hex as [? ? Hh|? ? Ht]; [destruct Hh|inversion Ht]. }
  unfold updateCachedTabbar. rewrite bind_read.
  destruct (useCachedTree w) eqn:Hu; cbn [negb];
    [|unfold rebuilds; rewrite Hu; by split; [|split; [|inversion 1]]].
  unfold hasCreatingTab. rewrite bind_read.
  destruct (creatingTab w); unfold when.
  - unfold waitUntilAllTabsAreCreated. rewrite bind_update.
    by apply (Hcore (set_creatingTab false w)).
  - rewrite bind_ret. by apply (Hcore w).
Qed.

(** *** The handle of the moment *)

Lemma handleAfter_app (current : option ApiTab) (l1 l2 : list Event) :
  handleAfter current (l1 ++ l2) = handleAfter (handleAfter current l1) l2.
Proof.
  revert current. induction l1 as [|e l1 IH]; intros current; [done|].
  destruct e; apply IH.
Qed.

Lemma onCurrentHandle_app (current : option ApiTab) (l1 l2 : list Event) :
  onCurrentHandle current (l1 ++ l2)
  <-> onCurrentHandle current l1
      /\ onCurrentHandle (handleAfter current l1) l2.
Proof.
  revert current. induction l1 as [|e l1 IH]; intros current.
  - cbn [app onCurrentHandle handleAfter]. split; [done|by intros [_ H]].
  - cbn [app onCurrentHandle]. rewrite IH.
    replace (handleAfter current (e :: l1))
      with (handleAfter (handleAfter current [e]) l1) by (by destruct e).
    split.
    + by intros (H1 & H2 & H3).
    + by intros ((H1 & H2) & H3).
Qed.

Lemma tracks_ret {A} (a : A) : tracks (ret a).
Proof. by intros w. Qed.

Lemma tracks_throw {A} (e : Exn) : tracks (@throw A e).
Proof. by intros w. Qed.

Lemma tracks_read {A} (f : World -> A) : tracks (read f).
Proof. by intros w. Qed.

Lemma tracks_update (g : World -> World) :
  (forall w, mLastWindowCacheOwner (g w) = mLastWindowCacheOwner w) ->
  tracks (update g).
Proof. intros H w. split; [done|apply H]. Qed.

Lemma tracks_emit (e : Event) : isPlain e = true -> tracks (emit e).
Proof. intros H w. by destruct e. Qed.

Lemma tracks_bind {A B} (m : M A) (f : A -> M B) :
  tracks m -> (forall a, tracks (f a)) -> tracks (bind m f).
Proof.
  intros Hm Hf w. unfold bind. destruct (Hm w) as [H1 H2].
  destruct (completion (m w)) as [a|e]; cbn [events world]; [|done].
  destruct (Hf a (world (m w))) as [H3 H4].
  rewrite onCurrentHandle_app, handleAfter_app, <- H2. done.
Qed.

Lemma tracks_when (c : bool) (m : M unit) : tracks m -> tracks (when c m).
Proof. destruct c; [done|]. intros _. apply tracks_ret. Qed.

Lemma tracks_detached (m : M unit) : tracks m -> tracks (detached m).
Proof. intros H w. apply H. Qed.

Lemma tracks_settled {A} (m : M A) : tracks m -> tracks (settled m).
Proof. intros H w. apply H. Qed.

Lemma tracks_assignOwner (o : option ApiTab) : tracks (assignOwner o).
Proof. by intros w. Qed.

Lemma tracks_getWindowCache key : tracks (getWindowCache key).
Proof.
  intros w. unfold getWindowCache. rewrite bind_read.
  destruct (mLastWindowCacheOwner w) as [o|] eqn:Ho; [|done].
  cbn. split; [|done]. split; [by exists o|done].
Qed.

Lemma tracks_updateWindowCache key value : tracks (updateWindowCache key value).
Proof.
  intros w. rewrite updateWindowCache_events.
  rewrite (proj1 (owner_updateWindowCache key value)).
  destruct (mLastWindowCacheOwner w) as [o|] eqn:Ho; [|done].
  destruct (getTabById o w); [|done].
  destruct value; cbn; (split; [|done]); (split; [by exists o|done]).
Qed.

Lemma tracks_setTimeout task : tracks (setTimeout task).
Proof. by intros w. Qed.

Lemma tracks_clearTimeout t : tracks (clearTimeout t).
Proof. by intros w. Qed.

Lemma tracks_restoreInternal i tabs offset cache shouldUpdate :
  tracks (restoreInternal i tabs offset cache shouldUpdate).
Proof. by intros w. Qed.

(** Follows the code, and closes the calls of the store adapter and of the
    timers. *)
Ltac tracking :=
  repeat lazymatch goal with
    | |- tracks (bind _ _) => apply tracks_bind
    | |- tracks (ret _) => apply tracks_ret
    | |- tracks (throw _) => apply tracks_throw
    | |- tracks (read _) => apply tracks_read
    | |- tracks (when _ _) => apply tracks_when
    | |- tracks (detached _) => apply tracks_detached
    | |- tracks (settled _) => apply tracks_settled
    | |- tracks (assignOwner _) => apply tracks_assignOwner
    | |- tracks (getWindowCache _) => apply tracks_getWindowCache
    | |- tracks (updateWindowCache _ _) => apply tracks_updateWindowCache
    | |- tracks (setTimeout _) => apply tracks_setTimeout
    | |- tracks (clearTimeout _) => apply tracks_clearTimeout
    | |- tracks (restoreInternal _ _ _ _ _) => apply tracks_restoreInternal
    | |- tracks (update _) =>
        solve [apply tracks_update; intros []; reflexivity]
    | |- tracks (emit _) => solve [apply tracks_emit; reflexivity]
    | |- tracks (match ?x with _ => _ end) => destruct x
    | |- tracks _ => fail
    | |- forall _, _ => intro; cbv beta
    end.

Lemma tracks_clearWindowCache : tracks clearWindowCache.
Proof. unfold clearWindowCache. tracking. Qed.

Lemma tracks_markWindowCacheDirty akey : tracks (markWindowCacheDirty akey).
Proof. unfold markWindowCacheDirty. tracking. Qed.

Lemma tracks_reserveToUpdateCachedTabbar : tracks reserveToUpdateCachedTabbar.
Proof.
  unfold reserveToUpdateCachedTabbar, hasCreatingTab,
    waitUntilAllTabsAreCreated.
  tracking; apply tracks_clearWindowCache.
Qed.

Lemma tracks_updateCachedTabbar : tracks updateCachedTabbar.
Proof.
  unfold updateCachedTabbar, hasCreatingTab, waitUntilAllTabsAreCreated.
  tracking.
Qed.

Lemma tracks_fireTimer t : tracks (fireTimer t).
Proof. unfold fireTimer. tracking. apply tracks_updateCachedTabbar. Qed.

Lemma tracks_getEffectiveWindowCache options :
  tracks (getEffectiveWindowCache options).
Proof.
  unfold getEffectiveWindowCache, cancelReservedUpdateCachedTabbar,
    fetchStoredCache.
  tracking; apply tracks_clearWindowCache.
Qed.

Lemma tracks_collapseExpandAll tabs structure :
  tracks (collapseExpandAll tabs structure).
Proof.
  revert structure. induction tabs as [|tab tabs IH]; intros structure;
    cbn [collapseExpandAll].
  - tracking.
  - destruct structure as [|item structure]; [tracking|].
    specialize (IH structure). tracking. apply IH.
Qed.

Lemma tracks_restoreTabsFromCache cache params :
  tracks (restoreTabsFromCache cache params).
Proof.
  unfold restoreTabsFromCache, applyCache, pullTreeStructure, removeContainer.
  tracking; apply tracks_collapseExpandAll.
Qed.

Lemma tracks_onTabsEvent e : tracks (onTabsEvent e).
Proof.
  unfold onTabsEvent.
  destruct e; tracking;
    first [apply tracks_markWindowCacheDirty
          | apply tracks_reserveToUpdateCachedTabbar].
Qed.

Lemma tracks_onConfigChange changedKey : tracks (onConfigChange changedKey).
Proof.
  unfold onConfigChange.
  tracking;
    first [apply tracks_reserveToUpdateCachedTabbar
          | apply tracks_clearWindowCache].
Qed.

Lemma tracks_init : tracks init.
Proof. unfold init. tracking. Qed.

Lemma tracks_startTracking : tracks startTracking.
Proof. unfold startTracking. tracking. Qed.

Lemma tracks_perform op : tracks (perform op).
Proof.
  destruct op; cbn [perform]; tracking;
    first [ apply tracks_getEffectiveWindowCache
          | apply tracks_restoreTabsFromCache
          | apply tracks_markWindowCacheDirty
          | apply tracks_reserveToUpdateCachedTabbar
          | apply tracks_fireTimer
          | apply tracks_onTabsEvent
          | apply tracks_onConfigChange
          | apply tracks_init
          | apply tracks_startTracking ].
Qed.

Lemma tracks_performAll ops : tracks (performAll ops).
Proof.
  induction ops as [|op ops IH]; cbn [performAll]; [apply tracks_ret|].
  apply tracks_bind; [apply tracks_perform|by intros _].
Qed.

Lemma getWindowCacheOwner_last (w : World) :
  getWindowCacheOwner w = option_map apiTab (getLastTab w).
Proof. unfold getWindowCacheOwner. by destruct (getLastTab w). Qed.

(** C9: every run of [getEffectiveWindowCache] assigns the owner handle
    exactly once, whether it ends with a cache, with null or by throwing: to
    the last tab of the current window (undefined when the window has no
    tab), and makes every store access of the run on that tab; a run of
    [updateCachedTabbar] that passes its guards assigns the handle exactly
    once, to the [apiTab] of the sidebar's last tab, whether it then writes
    or not, and a run that writes the snapshot writes it on that tab; no
    other function of the module assigns the handle; and in every sequence
    of calls, events and timers each store access is made on the handle
    assigned last before it, the handle the sequence leaves being the last
    one assigned. *)
Theorem owner_handle_assigned_each_run :
  (forall options w,
      ownerAssignments (events (getEffectiveWindowCache options w))
      = [last (tabsOfWindow (currentWindow w) w)]
      /\ mLastWindowCacheOwner (world (getEffectiveWindowCache options w))
         = last (tabsOfWindow (currentWindow w) w)
      /\ forall o, last (tabsOfWindow (currentWindow w) w) = Some o ->
                   storageOn (id o) (events (getEffectiveWindowCache options w)))
  /\ (forall w,
      ownerAssignments (events (updateCachedTabbar w))
      = (if rebuilds w then [option_map apiTab (getLastTab w)] else [])
      /\ mLastWindowCacheOwner (world (updateCachedTabbar w))
         = (if rebuilds w then option_map apiTab (getLastTab w)
            else mLastWindowCacheOwner w)
      /\ (Exists isSnapshotWrite (events (updateCachedTabbar w)) ->
          exists el, getLastTab w = Some el
                     /\ ownerAssignments (events (updateCachedTabbar w))
                        = [Some (apiTab el)]
                     /\ mLastWindowCacheOwner (world (updateCachedTabbar w))
                        = Some (apiTab el)
                     /\ storageOn (id (apiTab el))
                          (events (updateCachedTabbar w))))
  /\ (ownerUntouched init
      /\ ownerUntouched startTracking
      /\ (forall cache params, ownerUntouched (restoreTabsFromCache cache params))
      /\ (forall key, ownerUntouched (getWindowCache key))
      /\ (forall key value, ownerUntouched (updateWindowCache key value))
      /\ ownerUntouched clearWindowCache
      /\ (forall akey, ownerUntouched (markWindowCacheDirty akey))
      /\ ownerUntouched reserveToUpdateCachedTabbar
      /\ ownerUntouched cancelReservedUpdateCachedTabbar
      /\ (forall e, ownerUntouched (onTabsEvent e))
      /\ (forall changedKey, ownerUntouched (onConfigChange changedKey)))
  /\ (forall ops w,
      onCurrentHandle (mLastWindowCacheOwner w) (events (performAll ops w))
      /\ mLastWindowCacheOwner (world (performAll ops w))
         = handleAfter (mLastWindowCacheOwner w) (events (performAll ops w))).
Proof.
  split; [|split; [|split]].
  - intros options w.
    destruct (getEffectiveWindowCache_assignments options w) as [H1 H2].
    split; [done|]. split; [done|].
    intros o Ho. by apply getEffectiveWindowCache_storageOn.
  - intros w.
    destruct (updateCachedTabbar_assignments w) as (H1 & H2 & H3).
    rewrite getWindowCacheOwner_last in H1, H2.
    split; [done|]. split; [done|]. intros Hex.
    destruct (H3 Hex) as (o & Hr & Ho & Hs).
    rewrite getWindowCacheOwner_last in Ho.
    destruct (getLastTab w) as [el|]; [|done].
    injection Ho as <-.
    exists el. rewrite H1, H2, Hr. done.
  - repeat split;
      auto using owner_init, owner_startTracking, owner_restoreTabsFromCache,
        owner_getWindowCache, owner_updateWindowCache, owner_clearWindowCache,
        owner_markWindowCacheDirty, owner_reserveToUpdateCachedTabbar,
        owner_cancelReservedUpdateCachedTabbar, owner_onTabsEvent,
        owner_onConfigChange;
      intros; first [apply owner_restoreTabsFromCache | apply owner_getWindowCache
                    | apply owner_updateWindowCache | apply owner_markWindowCacheDirty
                    | apply owner_onTabsEvent | apply owner_onConfigChange
                    | apply owner_init | apply owner_startTracking
                    | apply owner_clearWindowCache
                    | apply owner_reserveToUpdateCachedTabbar
                    | apply owner_cancelReservedUpdateCachedTabbar ].
  - intros ops w. apply tracks_performAll.
Qed.

(** ** The pending rebuild and the validator *)

Lemma timersAfter_app tm (l1 l2 : list Event) :
  timersAfter tm (l1 ++ l2) = timersAfter (timersAfter tm l1) l2.
Proof. apply foldl_app. Qed.

Lemma timersAfter_plain tm (evs : list Event) :
  Forall (fun e => ~ isTimerEffect e) evs -> timersAfter tm evs = tm.
Proof.
  induction 1 as [|e evs He _ IH]; [done|]. simpl.
  destruct e; simpl in *; try exact IH; by destruct He.
Qed.

Lemma plain_clearWindowCache :
  effects (fun e => ~ isTimerEffect e) clearWindowCache.
Proof. unfold clearWindowCache, updateWindowCache. frame. Qed.

Lemma plain_fetchStoredCache options :
  effects (fun e => ~ isTimerEffect e) (fetchStoredCache options).
Proof.
  unfold fetchStoredCache, assignOwner, getWindowCache. frame;
    apply plain_clearWindowCache.
Qed.

Lemma timers_fetchStoredCache options :
  unchanged timers (fetchStoredCache options)
  /\ unchanged waiting (fetchStoredCache options).
Proof.
  unfold fetchStoredCache, assignOwner, getWindowCache.
  split; frame; by apply clearWindowCache_unchanged.
Qed.

(** After the cancellation no rebuild is scheduled. *)
Lemma canceled_noRebuildPending (w : World) :
  rebuildTracked w ->
  noRebuildPending (timers (canceled w)) /\ waiting (canceled w) = None.
Proof.
  intros Hinv. unfold canceled.
  destruct (waiting w) as [t|] eqn:Hw; simpl; (split; [|done]).
  - intros t' Ht'. rewrite lookup_delete in Ht'.
    case_decide as Heq; [done|].
    apply Hinv in Ht'. congruence.
  - intros t' Ht'. apply Hinv in Ht'. congruence.
Qed.

Lemma canceled_timersAfter (w : World) :
  timers (canceled w)
  = timersAfter (timers w)
      match waiting w with Some t => [EvClearTimeout t] | None => [] end.
Proof. unfold canceled. by destruct (waiting w). Qed.

(** A timer that fires when no rebuild is scheduled writes no snapshot. *)
Lemma fireTimer_no_snapshot (t : positive) (w : World) :
  noRebuildPending (timers w) ->
  Forall (fun e => ~ isSnapshotWrite e) (events (fireTimer t w)).
Proof.
  intros Hno. unfold fireTimer. rewrite bind_read.
  destruct (timers w !! t) as [[|akey]|] eqn:Ht.
  - by destruct (Hno t).
  - rewrite !bind_update, updateWindowCache_events. simpl.
    destruct (mLastWindowCacheOwner w) as [o|]; [|constructor].
    destruct (getTabById o _); repeat constructor.
    destruct akey; by intros [].
  - constructor.
Qed.

(** The rest of [getEffectiveWindowCache], after the cancellation: it
    touches no timer. *)
Lemma getEffectiveWindowCache_after_cancel options (w : World) :
  exists rest,
    events (getEffectiveWindowCache options w)
    = match waiting w with Some t => [EvClearTimeout t] | None => [] end ++ rest
    /\ Forall (fun e => ~ isTimerEffect e) rest
    /\ timers (world (getEffectiveWindowCache options w)) = timers (canceled w)
    /\ waiting (world (getEffectiveWindowCache options w)) = waiting (canceled w).
Proof.
  unfold getEffectiveWindowCache.
  rewrite (bind_run _ _ _ _ _ _ (cancel_run w)). cbn [events world].
  match goal with
  | |- context [events (?k (canceled w))] =>
      assert (effects (fun e => ~ isTimerEffect e) k) as He;
      [|assert (unchanged timers k /\ unchanged waiting k) as [Ht Hw]]
  end.
  - apply effects_bind; [apply plain_fetchStoredCache|].
    intros fetched. frame; apply plain_clearWindowCache.
  - split; (apply unchanged_bind; [apply timers_fetchStoredCache|]);
      intros fetched; frame; by apply clearWindowCache_unchanged.
  - eexists. split; [reflexivity|]. split; [apply He|]. split; [apply Ht|apply Hw].
Qed.

(** A pass with nothing at its awaits: its first effect clears the timer
    [updateCachedTabbar.waiting] holds, no later effect of the pass arms a
    timer, and from the first read of the store to the end of the pass no
    rebuild is scheduled, so that no timer firing then writes a snapshot. *)
Lemma getEffectiveWindowCache_cancels_first (options : Options) (w : World) :
  rebuildTracked w ->
  (forall t, waiting w = Some t ->
     exists rest, events (getEffectiveWindowCache options w)
                  = EvClearTimeout t :: rest
                  /\ Forall (fun e => ~ isTimerEffect e) rest)
  /\ (forall pre post,
        events (getEffectiveWindowCache options w) = pre ++ post ->
        Exists isStorageRead pre ->
        noRebuildPending (timersAfter (timers w) pre))
  /\ timers (world (getEffectiveWindowCache options w))
     = timersAfter (timers w) (events (getEffectiveWindowCache options w))
  /\ waiting (world (getEffectiveWindowCache options w)) = None
  /\ noRebuildPending (timers (world (getEffectiveWindowCache options w)))
  /\ (forall t, Forall (fun e => ~ isSnapshotWrite e)
                  (events (fireTimer t (world (getEffectiveWindowCache options w))))).
Proof.
  intros Hinv.
  destruct (getEffectiveWindowCache_after_cancel options w)
    as (rest & Hev & Hrest & Ht & Hw).
  destruct (canceled_noRebuildPending w Hinv) as [Hno Hnone].
  assert (noRebuildPending (timers (world (getEffectiveWindowCache options w))))
    as Hend by by rewrite Ht.
  split; [|split; [|split; [|split; [|split]]]].
  - intros t Hwt. rewrite Hev, Hwt. by exists rest.
  - intros pre post Hsplit Hread. rewrite Hev in Hsplit.
    apply List.app_eq_app in Hsplit as [l [[Hc Hpost]|[Hpre Hrest']]].
    + exfalso. assert (Forall (fun e => ~ isStorageRead e) pre) as Hnr.
      { assert (Forall (fun e => ~ isStorageRead e) (pre ++ l)) as Hall.
        { rewrite <- Hc. destruct (waiting w); repeat constructor; by intros []. }
        by apply Forall_app in Hall as [? _]. }
      apply Exists_exists in Hread as (e & Hin & He).
      rewrite Forall_forall in Hnr. by apply (Hnr e).
    + rewrite Hpre, timersAfter_app, <- canceled_timersAfter.
      rewrite timersAfter_plain; [done|].
      rewrite Hrest' in Hrest. by apply Forall_app in Hrest as [? _].
  - rewrite Ht, Hev, timersAfter_app, <- canceled_timersAfter.
    by rewrite timersAfter_plain.
  - by rewrite Hw.
  - done.
  - intros t. by apply fireTimer_no_snapshot.
Qed.

(** ** The validator among the other callbacks *)

Lemma bind_ext {A B} (m : M A) (f g : A -> M B) (w : World) :
  (forall a, f a (world (m w)) = g a (world (m w))) ->
  bind m f w = bind m g w.
Proof.
  intros H. unfold bind. destruct (completion (m w)); [|done].
  by rewrite H.
Qed.

(** Run without anything at its await, [updateCachedTabbar] is the segment
    up to the await followed by the one from it. *)
Lemma updateCachedTabbar_segments (w : World) :
  updateCachedTabbar w
  = (s <- updateCachedTabbarBegins ;;
     match s with
     | Some s => updateCachedTabbarResumes s
     | None => ret tt
     end) w.
Proof.
  unfold updateCachedTabbar, updateCachedTabbarBegins.
  rewrite bind_assoc. apply bind_ext. intros use.
  destruct (negb use); [by rewrite bind_ret|].
  rewrite bind_assoc. apply bind_ext. intros creating.
  rewrite bind_assoc. apply bind_ext. intros _.
  repeat first [rewrite bind_assoc | rewrite bind_read | rewrite bind_ret].
  unfold updateCachedTabbarResumes. cbn [heldTarget heldContainer].
  by rewrite bind_read.
Qed.


Lemma updateCachedTabbarBegins_completes (w : World) :
  exists s, completion (updateCachedTabbarBegins w) = Normal s.
Proof.
  unfold updateCachedTabbarBegins, hasCreatingTab, waitUntilAllTabsAreCreated.
  rewrite bind_read. destruct (negb (useCachedTree w)); [by eexists|].
  rewrite bind_read. destruct (creatingTab w); cbn [when].
  - rewrite bind_update, !bind_read. by eexists.
  - rewrite bind_ret, !bind_read. by eexists.
Qed.

Lemma delete_last {A} (l : list A) (x : A) :
  delete (length l) (l ++ [x]) = l.
Proof.
  induction l as [|y l IH]; [done|]. cbn [length app].
  change (delete (S (length l)) (y :: (l ++ [x])))
    with (y :: delete (length l) (l ++ [x])).
  by rewrite IH.
Qed.

(** The callback of a timer whose rebuild resumes at once is [fireTimer]. *)
Lemma fireTimer_segments t suspended (w : World) :
  events (interrupts [TimerElapses t; RebuildResumes (length suspended)]
            suspended w)
  = events (fireTimer t w)
  /\ world (interrupts [TimerElapses t; RebuildResumes (length suspended)]
              suspended w)
     = world (fireTimer t w)
  /\ completion (interrupts [TimerElapses t; RebuildResumes (length suspended)]
                   suspended w)
     = Normal suspended.
Proof.
  assert (suspended !! length suspended = None) as Hnone
      by by apply lookup_ge_None.
  cbn [interrupts interrupt]. unfold fireTimer, timerElapses.
  rewrite !bind_assoc, !bind_read.
  destruct (timers w !! t) as [[|akey]|].
  - rewrite !bind_assoc, !bind_update, !bind_assoc, !bind_update.
    match goal with
    | |- context [detached _ ?W] => generalize W
    end.
    intros w1. unfold detached. rewrite updateCachedTabbar_segments.
    rewrite !bind_assoc.
    destruct (updateCachedTabbarBegins_completes w1) as [s Hs].
    rewrite (bind_events _ _ _ _ Hs), (bind_world _ _ _ _ Hs),
      (bind_completion _ _ _ _ Hs).
    rewrite (bind_events _ _ _ _ Hs), (bind_world _ _ _ _ Hs).
    rewrite bind_ret.
    destruct s as [s|].
    + rewrite lookup_app_r, Nat.sub_diag by done. cbn [lookup list_lookup].
      rewrite bind_assoc.
      assert (forall w', completion
                (settled (updateCachedTabbarResumes s) w') = Normal tt)
        as Hn by done.
      rewrite (bind_events _ _ _ _ (Hn _)), (bind_world _ _ _ _ (Hn _)),
        (bind_completion _ _ _ _ (Hn _)).
      rewrite !bind_ret. cbn [ret events world completion settled].
      rewrite app_nil_r. split; [done|]. split; [done|].
      f_equal. apply delete_last.
    + rewrite Hnone, !bind_ret. cbn [ret events world completion].
      by rewrite app_nil_r.
  - repeat first [rewrite bind_assoc | rewrite bind_update].
    match goal with
    | |- context [updateWindowCache ?k ?v ?W] =>
        pose proof (updateWindowCache_completion k v W) as Hn
    end.
    rewrite (bind_events _ _ _ _ Hn), (bind_world _ _ _ _ Hn),
      (bind_completion _ _ _ _ Hn).
    rewrite !bind_ret, Hnone. cbn [ret events world completion].
    by rewrite !app_nil_r.
  - rewrite !bind_ret, Hnone. done.
Qed.

(** *** What a retired timer leaves *)































Lemma validatorBegins_run (w : World) :
  validatorBegins w
  = mkRun (match waiting w with Some t => [EvClearTimeout t] | None => [] end
           ++ [EvTabsQuery])
          (canceled w) (Normal (mTargetWindow w)).
Proof.
  unfold validatorBegins.
  rewrite (bind_run _ _ _ _ _ _ (cancel_run w)).
  unfold bind, emit, read. cbn [events world completion app].
  f_equal. unfold canceled. by destruct (waiting w).
Qed.




(** *** Timers alone write no snapshot *)






Lemma quiet_validatorBegins : quiet validatorBegins.
Proof.
  intros w Hw. rewrite validatorBegins_run. cbn [events world]. split.
  - destruct (waiting w); repeat constructor; by intros [].
  - unfold canceled. destruct (waiting w) as [t|]; [|done].
    intros t' Ht'. cbn in Ht'.
    apply lookup_delete_Some in Ht' as [_ Ht']. by apply (Hw t').
Qed.








(** ** The applier *)

Lemma string_of_uint_chars (d : Decimal.uint) :
  Forall (fun c => c <> ","%char) (JS.chars (NilEmpty.string_of_uint d)).
Proof. induction d; simpl; constructor; done. Qed.

Lemma stringOfInt_no_comma (n : Z) :
  Forall (fun c => c <> ","%char) (JS.chars (JS.stringOfInt n)).
Proof.
  unfold JS.stringOfInt. destruct (Z.to_int n) as [d|d]; simpl.
  - apply string_of_uint_chars.
  - constructor; [done|apply string_of_uint_chars].
Qed.

Lemma stringOfInt_nonempty (n : Z) : JS.chars (JS.stringOfInt n) <> [].
Proof.
  unfold JS.stringOfInt. destruct n as [|p|p]; simpl; [done| |done].
  pose proof (DecimalPos.Unsigned.to_uint_nonnil p) as H.
  by destruct (Pos.to_uint p).
Qed.

Lemma stringOfInt_inj (a b : Z) : JS.stringOfInt a = JS.stringOfInt b -> a = b.
Proof.
  unfold JS.stringOfInt. intros H.
  apply DecimalZ.to_int_inj.
  pose proof (NilEmpty.isi (Z.to_int a)) as Ha.
  pose proof (NilEmpty.isi (Z.to_int b)) as Hb.
  rewrite H in Ha. congruence.
Qed.

Lemma chars_inj (s1 s2 : string) : JS.chars s1 = JS.chars s2 -> s1 = s2.
Proof. intros H. by rewrite <- (text_chars s1), <- (text_chars s2), H. Qed.

Lemma intercalate_nonempty (sep : ascii) (parts : list (list ascii)) :
  parts <> [] -> Forall (fun part => part <> []) parts ->
  intercalate sep parts <> [].
Proof.
  intros Hne H. destruct H as [|x l Hx _]; [done|].
  destruct l; simpl; [done|]. by destruct x.
Qed.

(** Joining is injective on parts that are not empty and do not hold the
    separator. *)
Lemma intercalate_inj (sep : ascii) (l1 l2 : list (list ascii)) :
  Forall (fun part => part <> []) l1 -> Forall (Forall (fun c => c <> sep)) l1 ->
  Forall (fun part => part <> []) l2 -> Forall (Forall (fun c => c <> sep)) l2 ->
  intercalate sep l1 = intercalate sep l2 -> l1 = l2.
Proof.
  intros N1 S1 N2 S2 H.
  destruct (decide (l1 = [])) as [->|H1]; destruct (decide (l2 = [])) as [->|H2].
  - done.
  - exfalso. symmetry in H. by apply intercalate_nonempty in H.
  - exfalso. by apply intercalate_nonempty in H.
  - rewrite <- (split_chars_intercalate sep l1), <- (split_chars_intercalate sep l2)
      by done.
    by rewrite H.
Qed.

(** The comparison of the joined parents is the comparison of the two
    sequences of parents. *)
Lemma parentChain_inj (s1 s2 : list StructureItem) :
  parentChain s1 = parentChain s2 -> map parent s1 = map parent s2.
Proof.
  unfold parentChain. intros H. apply (f_equal JS.chars) in H.
  change ","%string with (String ","%char EmptyString) in H.
  rewrite !chars_join in H.
  apply intercalate_inj in H.
  - apply (f_equal (map JS.text)) in H.
    rewrite !map_map in H.
    assert (forall s : list StructureItem,
              map (fun x => JS.text (JS.chars (JS.stringOfInt (parent x)))) s
              = map JS.stringOfInt (map parent s)) as Hm.
    { intros s. rewrite map_map. apply map_ext. intros x. apply text_chars. }
    rewrite !Hm in H. clear Hm.
    revert H. generalize (map parent s1) (map parent s2).
    induction l as [|a l IH]; intros [|b l']; simpl; try done.
    intros [= Hab Hl]. f_equal; [by apply stringOfInt_inj|by apply IH].
  - rewrite map_map. apply Forall_map, Forall_forall. intros x _.
    apply stringOfInt_nonempty.
  - rewrite map_map. apply Forall_map, Forall_forall. intros x _.
    apply stringOfInt_no_comma.
  - rewrite map_map. apply Forall_map, Forall_forall. intros x _.
    apply stringOfInt_nonempty.
  - rewrite map_map. apply Forall_map, Forall_forall. intros x _.
    apply stringOfInt_no_comma.
Qed.

Lemma applyCache_target cache params :
  unchanged mTargetWindow (applyCache cache params).
Proof.
  unfold applyCache, removeContainer. frame. by intros w.
Qed.

(** C4: when the cached contents were applied and the parents recomputed from
    the live tabs differ, at some position or in number, from those of the
    structure pulled from the background page, [restoreTabsFromCache]
    returns [false] and the target window is left without a container. *)
Theorem restoreTabsFromCache_rollback
        (cache : Tabbar) (params : Params) (w : World)
        (master : list StructureItem) :
  completion (applyCache cache params w) = Normal true ->
  treeStructures (world (applyCache cache params w)) !! mTargetWindow w
  = Some master ->
  map parent
      (getTreeStructureFromTabs (getAllTabs (world (applyCache cache params w))))
  <> map parent master ->
  completion (restoreTabsFromCache cache params w) = Normal false
  /\ getTabsContainer (mTargetWindow w)
       (world (restoreTabsFromCache cache params w)) = None.
Proof.
  intros Happlied Hmaster Hdiff.
  pose proof (applyCache_target cache params w) as Htarget.
  unfold restoreTabsFromCache.
  rewrite (bind_prepend _ _ w true Happlied).
  set (w1 := world (applyCache cache params w)) in *.
  rewrite bind_read, Htarget. unfold pullTreeStructure.
  rewrite bind_assoc, bind_emit_prepend, bind_assoc, bind_read, Hmaster.
  rewrite bind_ret, bind_read.
  assert (String.eqb
            (parentChain (getTreeStructureFromTabs (getAllTabs w1)))
            (parentChain master) = false) as ->.
  { apply String.eqb_neq. intros H. by apply Hdiff, parentChain_inj. }
  cbn [negb]. rewrite !bind_assoc, bind_read.
  unfold getTabsContainer, prepend. cbn [events world completion].
  destruct (containers w1 !! mTargetWindow w) eqn:Hc.
  - unfold removeContainer, when.
    repeat (progress (rewrite ?bind_assoc, ?bind_update, ?bind_ret, ?bind_emit;
                      cbn [andb])).
    cbn. split; [done|]. apply lookup_delete_eq.
  - unfold when.
    repeat (progress (rewrite ?bind_assoc, ?bind_update, ?bind_ret, ?bind_emit;
                      cbn [andb])).
    cbn. done.
Qed.

(** ** The discipline on the rebuild timer is kept *)

Lemma noRebuildPending_tracked (w : World) :
  noRebuildPending (timers w) -> rebuildTracked w.
Proof. intros H t Ht. by destruct (H t). Qed.

Lemma rebuildTracked_frame (w w' : World) :
  timers w' = timers w -> waiting w' = waiting w ->
  rebuildTracked w -> rebuildTracked w'.
Proof. intros Ht Hw H t. rewrite Ht, Hw. apply H. Qed.

Lemma clearWindowCache_timers (w : World) :
  timers (world (clearWindowCache w)) = timers w
  /\ waiting (world (clearWindowCache w)) = waiting w
  /\ nextTimer (world (clearWindowCache w)) = nextTimer w.
Proof.
  rewrite clearWindowCache_world. unfold cleared.
  destruct (mLastWindowCacheOwner w) as [o|]; [|done].
  by destruct (getTabById o w).
Qed.

(** X2: [reserveToUpdateCachedTabbar] keeps the discipline of the rebuild
    timer: where every scheduled rebuild is the one
    [updateCachedTabbar.waiting] holds, the same is true after the call, so
    calls in a row leave at most one rebuild scheduled. *)
Theorem reserveToUpdateCachedTabbar_tracked (w : World) :
  rebuildTracked w -> rebuildTracked (world (reserveToUpdateCachedTabbar w)).
Proof.
  intros Hinv. unfold reserveToUpdateCachedTabbar, hasCreatingTab.
  rewrite !bind_read.
  destruct (negb (mTracking w) || negb (useCachedTree w)); [done|].
  rewrite bind_read.
  assert (forall w' : World,
            timers w' = timers w -> waiting w' = waiting w ->
            rebuildTracked
              (world
                 ((container <- read (fun w => getTabsContainer (mTargetWindow w) w) ;;
                   match container with
                   | None => throw (TypeError "container is null")
                   | Some c =>
                       if allTabsRestored c then ret tt
                       else
                         clearWindowCache ;;
                         t <- read waiting ;;
                         match t with
                         | Some t => clearTimeout t
                         | None => ret tt
                         end ;;
                         t' <- setTimeout TaskUpdateCachedTabbar ;;
                         update (set_waiting (Some t'))
                   end) w'))) as Hcore.
  { intros w' Ht Hw. rewrite bind_read.
    destruct (getTabsContainer (mTargetWindow w') w') as [c|];
      [|by apply (rebuildTracked_frame w)].
    destruct (allTabsRestored c); [by apply (rebuildTracked_frame w)|].
    rewrite (bind_world _ _ _ tt) by apply clearWindowCache_completion.
    destruct (clearWindowCache_timers w') as (Ht' & Hw' & _).
    set (w2 := world (clearWindowCache w')) in *.
    rewrite bind_read, Hw', Hw.
    intros t. destruct (waiting w) as [t0|] eqn:Hw0.
    - unfold clearTimeout, setTimeout, bind, update. simpl.
      rewrite Ht', Ht. intros Hl.
      apply lookup_insert_Some in Hl as [[-> _]|[Hne Hl]]; [done|].
      rewrite lookup_delete in Hl. case_decide; [done|].
      apply Hinv in Hl. congruence.
    - rewrite bind_ret. unfold setTimeout, bind, update. simpl.
      rewrite Ht', Ht. intros Hl.
      apply lookup_insert_Some in Hl as [[-> _]|[Hne Hl]]; [done|].
      apply Hinv in Hl. congruence. }
  destruct (creatingTab w); unfold when.
  - unfold waitUntilAllTabsAreCreated. rewrite bind_update. by apply Hcore.
  - rewrite bind_ret. by apply Hcore.
Qed.

Lemma updateCachedTabbar_timers :
  unchanged timers updateCachedTabbar /\ unchanged waiting updateCachedTabbar.
Proof.
  unfold updateCachedTabbar, hasCreatingTab, waitUntilAllTabsAreCreated,
    assignOwner.
  split; frame; by apply updateWindowCache_unchanged.
Qed.

(** X3: a timer that fires (the rebuild of the snapshot, or the reset of a
    dirty flag) leaves the discipline of the rebuild timer in place. *)
Theorem fireTimer_tracked (t : positive) (w : World) :
  rebuildTracked w -> rebuildTracked (world (fireTimer t w)).
Proof.
  intros Hinv. unfold fireTimer. rewrite bind_read.
  destruct (timers w !! t) as [[|akey]|] eqn:Ht; [| |done].
  - rewrite !bind_update. apply noRebuildPending_tracked.
    change (timers (world (detached updateCachedTabbar ?x)))
      with (timers (world (updateCachedTabbar x))).
    rewrite (proj1 updateCachedTabbar_timers). simpl.
    intros t' Hl. rewrite lookup_delete in Hl. case_decide; [done|].
    apply Hinv in Hl. apply Hinv in Ht. congruence.
  - rewrite !bind_update. intros t'.
    rewrite (updateWindowCache_unchanged timers) by done.
    rewrite (updateWindowCache_unchanged waiting) by done.
    simpl. intros Hl. rewrite lookup_delete in Hl. case_decide; [done|].
    by apply Hinv.
Qed.

(** X4: [getEffectiveWindowCache] leaves the discipline of the rebuild timer
    in place. *)
Theorem getEffectiveWindowCache_tracked options (w : World) :
  rebuildTracked w ->
  rebuildTracked (world (getEffectiveWindowCache options w)).
Proof.
  intros Hinv.
  destruct (getEffectiveWindowCache_after_cancel options w)
    as (rest & _ & _ & Ht & _).
  apply noRebuildPending_tracked. rewrite Ht.
  by apply canceled_noRebuildPending.
Qed.

(** ** The store adapter, read after written *)

Lemma getWindowCache_run (key : CacheKey) (w : World) (o : ApiTab) :
  mLastWindowCacheOwner w = Some o ->
  getWindowCache key w
  = mkRun [EvGetTabValue (id o) key] w (Normal (sessionValues w !! (id o, key))).
Proof.
  intros Ho. unfold getWindowCache. rewrite bind_read, Ho. reflexivity.
Qed.

(** The world a write or a delete leaves, with a usable owner. *)
Lemma updateWindowCache_world (key : CacheKey) (value : option Value)
      (w : World) (o : ApiTab) :
  mLastWindowCacheOwner w = Some o ->
  is_Some (getTabById o w) ->
  world (updateWindowCache key value w)
  = set_sessionValues
      (match value with
       | Some v => <[(id o, key) := v]> (sessionValues w)
       | None => delete (id o, key) (sessionValues w)
       end) w.
Proof.
  intros Ho [el Hel]. unfold updateWindowCache.
  rewrite bind_read, Ho, bind_read, Hel. by destruct value.
Qed.

(** X5: with a usable owner, what [updateWindowCache] wrote under a key is
    what [getWindowCache] reads under that key next ([undefined] after a
    delete), and the values under the other keys are read as before. *)
Theorem updateWindowCache_then_getWindowCache
        (key : CacheKey) (value : option Value) (w : World) (o : ApiTab) :
  mLastWindowCacheOwner w = Some o ->
  is_Some (getTabById o w) ->
  completion ((updateWindowCache key value ;; getWindowCache key) w)
  = Normal value
  /\ forall key' : CacheKey,
       key' <> key ->
       completion ((updateWindowCache key value ;; getWindowCache key') w)
       = completion (getWindowCache key' w).
Proof.
  intros Ho Hel.
  pose proof (updateWindowCache_world key value w o Ho Hel) as Hw.
  assert (mLastWindowCacheOwner (world (updateWindowCache key value w))
          = Some o) as Ho' by by rewrite Hw.
  split; [|intros key' Hne];
    rewrite (bind_completion _ _ _ tt) by apply updateWindowCache_completion;
    rewrite (getWindowCache_run _ _ o Ho'); cbn [completion];
    rewrite Hw; cbn [sessionValues set_sessionValues].
  - destruct value; [by rewrite lookup_insert_eq|by rewrite lookup_delete_eq].
  - rewrite (getWindowCache_run _ _ o Ho). cbn [completion].
    destruct value;
      [rewrite lookup_insert_ne by congruence
      |rewrite lookup_delete_ne by congruence]; done.
Qed.

(** ** What a validation pass leaves *)

Lemma cleared_lookup (w : World) (o : ApiTab) (key : CacheKey) :
  mLastWindowCacheOwner w = Some o ->
  is_Some (getTabById o w) ->
  sessionValues (cleared w) !! (id o, key) = None.
Proof.
  intros Ho [el Hel]. unfold cleared. rewrite Ho, Hel. simpl.
  rewrite !lookup_delete. destruct key; repeat case_decide; congruence.
Qed.



(** What the first block leaves as cache comes from the stored snapshot: it
    passed the consistency test, has the current version, and carries the
    stored dirty flags. *)
Lemma validated_Some options o (w : World) c cs :
  validated options o w = (Some c, cs) ->
  isBroken (storedCache o w) (option_map signature (storedCache o w)) = false
  /\ exists c0,
       storedCache o w = Some c0
       /\ version c0 = kSIDEBAR_CONTENTS_VERSION
       /\ version c = kSIDEBAR_CONTENTS_VERSION
       /\ tabsDirty (tabbar c) = asFlag (storedTabsDirty o w)
       /\ collapsedDirty (tabbar c) = asFlag (storedCollapsedDirty o w)
       /\ style (tabbar c) = style (tabbar c0)
       /\ pinnedTabsCount (tabbar c) = pinnedTabsCount (tabbar c0)
       /\ indent c = indent c0
       /\ signature c = JS.stringOfNullable cs.
Proof.
  unfold validated.
  destruct (isBroken _ _) eqn:Hb; [by intros [=]|].
  destruct (storedCache o w) as [c0|] eqn:Hc0; [|by intros [=]].
  simpl. unfold verifyVersion.
  destruct (ignorePinnedTabs options && _ && _); simpl;
    (destruct (Z.eqb_spec (version c0) kSIDEBAR_CONTENTS_VERSION) as [Hv|Hv];
     [|by intros [=]]);
    intros [= <- <-]; (split; [done|]); exists c0; by repeat split.
Qed.

(** X6: when [getEffectiveWindowCache] returns a cache, it has not written to
    the store; the cache is the stored snapshot of the owner (the last tab of
    the current window), of the current version, with the two dirty flags as
    they are stored and the live signature of the window as
    [actualSignature]. *)
Theorem getEffectiveWindowCache_success
        (options : Options) (w : World) (o : ApiTab) (c : Cache) :
  fetchedOwner w = Some o ->
  completion (getEffectiveWindowCache options w) = Normal (Some c) ->
  sessionValues (world (getEffectiveWindowCache options w)) = sessionValues w
  /\ Forall (fun e => match e with
                      | EvSetTabValue _ _ _ | EvRemoveTabValue _ _ => False
                      | _ => True
                      end)
            (events (getEffectiveWindowCache options w))
  /\ exists c0,
       sessionValues w !! (id o, kWINDOW_STATE_CACHED_SIDEBAR) = Some (VCache c0)
       /\ version c = kSIDEBAR_CONTENTS_VERSION
       /\ tabsDirty (tabbar c) = asFlag (storedTabsDirty o w)
       /\ collapsedDirty (tabbar c) = asFlag (storedCollapsedDirty o w)
       /\ style (tabbar c) = style (tabbar c0)
       /\ indent c = indent c0
       /\ actualSignature c = Some (getWindowSignature (mTargetWindow w) w).
Proof.
  intros Ho. rewrite (getEffectiveWindowCache_run options w o Ho).
  cbn [events world completion]. intros [= Heff]. rewrite Heff.
  assert (fetchedOwner (canceled w) = Some o) as Ho'
      by by rewrite canceled_fetchedOwner.
  rewrite (fetchStoredCache_run options _ o Ho'). cbn [events].
  assert (storedCache o (canceled w) = storedCache o w) as ->
      by (unfold canceled; by destruct (waiting w)).
  unfold effectiveCache in Heff.
  destruct (validated options o w) as [[c1|] cs] eqn:Hval; [|done].
  destruct (matcheSignatures _ cs); [|done].
  injection Heff as <-.
  apply validated_Some in Hval
    as (Hb & c0 & Hc0 & _ & Hv & Htd & Hcd & Hst & _ & Hin & _).
  unfold fetched. rewrite Hb. split; [apply canceled_sessionValues|].
  split.
  - rewrite app_nil_r. apply Forall_app. split.
    + by destruct (waiting w); repeat constructor.
    + by repeat constructor.
  - exists c0. unfold storedCache in Hc0.
    destruct (sessionValues w !! _) as [[b|c0']|]; simpl in Hc0; try done.
    injection Hc0 as ->. by repeat split.
Qed.


(** X8: when the query for the tabs of the current window gives no tab,
    [getEffectiveWindowCache] throws once the owner handle is read (line 66);
    by then the scheduled rebuild is canceled and the owner handle is
    [undefined], and the store has not been touched. *)
Theorem getEffectiveWindowCache_no_tabs (options : Options) (w : World) :
  fetchedOwner w = None ->
  (exists e, completion (getEffectiveWindowCache options w) = Thrown e)
  /\ mLastWindowCacheOwner (world (getEffectiveWindowCache options w)) = None
  /\ waiting (world (getEffectiveWindowCache options w)) = None
  /\ sessionValues (world (getEffectiveWindowCache options w)) = sessionValues w
  /\ Forall (fun e => storageTab e = None)
            (events (getEffectiveWindowCache options w)).
Proof.
  intros Ho. unfold getEffectiveWindowCache.
  rewrite (bind_run _ _ _ _ _ _ (cancel_run w)).
  assert (fetchedOwner (canceled w) = None) as Ho'
      by by rewrite canceled_fetchedOwner.
  rewrite (bind_thrown _ _ _ _ _ _ (fetchStoredCache_no_tab options _ Ho')).
  cbn [events world completion].
  split; [by eexists|]. split; [done|].
  split; [unfold canceled; by destruct (waiting w) eqn:Hw|].
  split; [apply canceled_sessionValues|].
  destruct (waiting w); by repeat constructor.
Qed.

(** ** A snapshot written, then validated *)

Lemma getLastTab_getTabById (w : World) (el : TabElement) :
  getLastTab w = Some el -> is_Some (getTabById (apiTab el) w).
Proof.
  unfold getLastTab, getAllTabs, getTabsContainer, getTabById.
  destruct (containers w !! mTargetWindow w) as [c|] eqn:Hc; [|done].
  intros Hl. apply last_Some_elem_of in Hl.
  assert (el ∈ allTabElements w) as Hin.
  { unfold allTabElements. apply list_elem_of_In, in_concat.
    exists (tabElements c). split; [|by apply list_elem_of_In].
    apply in_map_iff. exists (mTargetWindow w, c). split; [done|].
    by apply list_elem_of_In, elem_of_map_to_list. }
  assert (el ∈ filter (fun t => id (apiTab t) = id (apiTab el))
                      (allTabElements w)) as Hf
      by by apply list_elem_of_filter.
  destruct (filter _ _); [by apply elem_of_nil in Hf|by eexists].
Qed.

(** A run of [updateCachedTabbar] that gets as far as its write, on a window
    with a last tab. *)
Lemma updateCachedTabbar_run (w : World) (c : Container) (el : TabElement) :
  useCachedTree w = true ->
  getTabsContainer (mTargetWindow w) w = Some c ->
  allTabsRestored c = false ->
  getLastTab w = Some el ->
  let o := apiTab el in
  let w1 := set_mLastWindowCacheOwner
              (Some o) (if creatingTab w then set_creatingTab false w else w) in
  let cache := newCache c (getWindowSignature (mTargetWindow w) w) w1 in
  updateCachedTabbar w
  = mkRun [EvOwnerAssigned (Some o);
           EvSetTabValue (id o) kWINDOW_STATE_CACHED_SIDEBAR (VCache cache)]
          (set_sessionValues
             (<[(id o, kWINDOW_STATE_CACHED_SIDEBAR) := VCache cache]>
                (sessionValues w)) w1)
          (Normal tt).
Proof.
  intros Hu Hc Hr Hl o w1 cache.
  destruct (getLastTab_getTabById w el Hl) as [el' Hel].
  assert (forall w0 : World,
            w0 = w \/ w0 = set_creatingTab false w ->
            (container <- read (fun w => getTabsContainer (mTargetWindow w) w) ;;
             signature <- read (fun w => getWindowSignature (mTargetWindow w) w) ;;
             match container with
             | None => throw (TypeError "container is null")
             | Some c =>
                 if allTabsRestored c then ret tt
                 else
                   owner <- read getWindowCacheOwner ;;
                   assignOwner owner ;;
                   cache <- read (newCache c signature) ;;
                   updateWindowCache kWINDOW_STATE_CACHED_SIDEBAR
                     (Some (VCache cache))
             end) w0
            = let w1 := set_mLastWindowCacheOwner (Some o) w0 in
              let cache := newCache c (getWindowSignature (mTargetWindow w) w)
                             w1 in
              mkRun [EvOwnerAssigned (Some o);
                     EvSetTabValue (id o) kWINDOW_STATE_CACHED_SIDEBAR
                       (VCache cache)]
                    (set_sessionValues
                       (<[(id o, kWINDOW_STATE_CACHED_SIDEBAR) := VCache cache]>
                          (sessionValues w)) w1)
                    (Normal tt)) as Hcore.
  { intros w0 Hw0.
    assert (getTabsContainer (mTargetWindow w0) w0 = Some c
            /\ getWindowSignature (mTargetWindow w0) w0
               = getWindowSignature (mTargetWindow w) w
            /\ getWindowCacheOwner w0 = Some o
            /\ sessionValues w0 = sessionValues w
            /\ getTabById o (set_mLastWindowCacheOwner (Some o) w0) = Some el')
      as (Hc0 & Hs0 & Ho0 & Hv0 & Hel0).
    { unfold getWindowCacheOwner.
      destruct Hw0 as [-> | ->]; repeat split;
        first [ exact Hc | exact Hel
              | by (change (getLastTab _) with (getLastTab w); rewrite Hl)
              | done ]. }
    rewrite !bind_read, Hc0, Hs0, Hr, bind_read, Ho0. unfold assignOwner.
    rewrite bind_assoc, bind_emit, bind_update, bind_read.
    unfold updateWindowCache.
    rewrite bind_read. cbn [mLastWindowCacheOwner set_mLastWindowCacheOwner].
    rewrite bind_read, Hel0, bind_emit. cbn. by rewrite Hv0. }
  unfold updateCachedTabbar. rewrite bind_read, Hu. cbn [negb].
  unfold hasCreatingTab. rewrite bind_read. subst w1 cache.
  destruct (creatingTab w); unfold when.
  - unfold waitUntilAllTabsAreCreated. rewrite bind_update.
    apply Hcore. by right.
  - rewrite bind_ret. apply Hcore. by left.
Qed.

(** Against itself, a signature leaves no record. *)
Lemma offsetOf_same (s : string) : offsetOf s (Some s) = 0%nat.
Proof.
  unfold offsetOf, JS.replace. simpl.
  rewrite <- (app_nil_r (JS.chars s)) at 2.
  rewrite replace_chars_prefix. reflexivity.
Qed.

(** X9: the snapshot [updateCachedTabbar] writes is the one the next
    [getEffectiveWindowCache] returns, with an offset of zero, when the last
    tab of the current window is the last tab of the sidebar and
    [Cache.matcheSignatures] takes a signature against itself: the markup,
    the style and the count of pinned tabs come back as they were at the
    write. *)
Theorem updateCachedTabbar_then_getEffectiveWindowCache
        (options : Options) (w : World) (c : Container) (el : TabElement)
        (o : ApiTab) :
  useCachedTree w = true ->
  getTabsContainer (mTargetWindow w) w = Some c ->
  allTabsRestored c = false ->
  getLastTab w = Some el ->
  fetchedOwner w = Some o ->
  id o = id (apiTab el) ->
  ignorePinnedTabs options = false ->
  matcheSignatures (getWindowSignature (mTargetWindow w) w)
                   (Some (getWindowSignature (mTargetWindow w) w)) = true ->
  exists c',
    completion (getEffectiveWindowCache options (world (updateCachedTabbar w)))
    = Normal (Some c')
    /\ contents (tabbar c') = innerHTML (containers w)
    /\ style (tabbar c') = mTabBarStyle w
    /\ pinnedTabsCount (tabbar c') = Z.of_nat (length (getPinnedTabs c))
    /\ signature c' = getWindowSignature (mTargetWindow w) w
    /\ actualSignature c' = Some (getWindowSignature (mTargetWindow w) w)
    /\ offset c' = Some 0%nat.
Proof.
  intros Hu Hc Hr Hl Ho Hid Hopt Hm.
  rewrite (updateCachedTabbar_run w c el Hu Hc Hr Hl). cbn [world].
  set (w1 := set_mLastWindowCacheOwner _ _).
  set (sig := getWindowSignature (mTargetWindow w) w) in *.
  set (cache := newCache c sig w1).
  set (w2 := set_sessionValues _ w1).
  assert (fetchedOwner w2 = Some o) as Ho2
      by (unfold w2, w1; by destruct (creatingTab w)).
  assert (getWindowSignature (mTargetWindow w2) w2 = sig) as Hs2
      by (unfold w2, w1; by destruct (creatingTab w)).
  rewrite (getEffectiveWindowCache_run options w2 o Ho2). cbn [completion].
  assert (storedCache o w2 = Some cache) as Hsc.
  { unfold storedCache, w2. cbn [sessionValues set_sessionValues].
    by rewrite Hid, lookup_insert_eq. }
  assert (validated options o w2
          = (Some (with_signature sig
                     (with_tabbar
                        (with_dirty (asFlag (storedTabsDirty o w2))
                                    (asFlag (storedCollapsedDirty o w2))
                                    (tabbar cache)) cache)),
             Some sig)) as Hval.
  { unfold validated. rewrite Hsc. simpl. rewrite Hopt. simpl.
    by rewrite Z.eqb_refl. }
  unfold effectiveCache. rewrite Hval, Hs2, Hm, offsetOf_same.
  eexists. split; [reflexivity|]. simpl. repeat split.
  - unfold w1. by destruct (creatingTab w).
  - unfold w1. by destruct (creatingTab w).
Qed.

(** ** The dirty flags *)

(** X10: [markWindowCacheDirty] debounces: after a call, the one scheduled
    write of a flag is the one just scheduled, for the key of this call (a
    write that was pending for another key is dropped with its timer), and
    nothing has been written to the store yet. *)
Theorem markWindowCacheDirty_debounces (akey : CacheKey) (w : World) :
  dirtyTracked w ->
  completion (markWindowCacheDirty akey w) = Normal tt
  /\ timeout (world (markWindowCacheDirty akey w)) = Some (nextTimer w)
  /\ (forall t k,
        timers (world (markWindowCacheDirty akey w)) !! t
        = Some (TaskMarkWindowCacheDirty k)
        <-> t = nextTimer w /\ k = akey)
  /\ sessionValues (world (markWindowCacheDirty akey w)) = sessionValues w
  /\ Forall isTimerEffect (events (markWindowCacheDirty akey w)).
Proof.
  intros Hinv. unfold markWindowCacheDirty.
  rewrite bind_read.
  destruct (timeout w) as [t0|] eqn:Ht0.
  - unfold clearTimeout, setTimeout, bind, update. simpl.
    split; [done|]. split; [done|]. split; [|split; [done|by repeat constructor]].
    intros t k. split.
    + intros Hl. apply lookup_insert_Some in Hl as [[<- [= <-]]|[Hne Hl]]; [done|].
      rewrite lookup_delete in Hl. case_decide; [done|].
      apply Hinv in Hl. congruence.
    + intros [-> ->]. apply lookup_insert_eq.
  - rewrite bind_ret. unfold setTimeout, bind, update. simpl.
    split; [done|]. split; [done|]. split; [|split; [done|by repeat constructor]].
    intros t k. split.
    + intros Hl. apply lookup_insert_Some in Hl as [[<- [= <-]]|[Hne Hl]]; [done|].
      apply Hinv in Hl. congruence.
    + intros [-> ->]. apply lookup_insert_eq.
Qed.

(** A timer of a dirty flag fires, the owner being usable. *)
Lemma fireTimer_dirty_run (t : positive) (akey : CacheKey) (w : World)
      (o : ApiTab) :
  timers w !! t = Some (TaskMarkWindowCacheDirty akey) ->
  mLastWindowCacheOwner w = Some o ->
  is_Some (getTabById o w) ->
  fireTimer t w
  = mkRun [EvSetTabValue (id o) akey (VBool true)]
          (set_sessionValues
             (<[(id o, akey) := VBool true]> (sessionValues w))
             (set_timeout None
                (set_timers (delete t (timers w)) (nextTimer w) w)))
          (Normal tt).
Proof.
  intros Ht Ho [el Hel]. unfold fireTimer.
  rewrite bind_read, Ht, !bind_update. unfold updateWindowCache.
  rewrite bind_read. cbn [mLastWindowCacheOwner set_timeout set_timers].
  rewrite Ho, bind_read.
  change (getTabById o (set_timeout _ _)) with (getTabById o w).
  rewrite Hel. reflexivity.
Qed.

Lemma effectiveCache_flags options o (w : World) c :
  effectiveCache options o w = Some c ->
  tabsDirty (tabbar c) = asFlag (storedTabsDirty o w)
  /\ collapsedDirty (tabbar c) = asFlag (storedCollapsedDirty o w).
Proof.
  unfold effectiveCache.
  destruct (validated options o w) as [[c1|] cs] eqn:Hval; [|done].
  destruct (matcheSignatures _ cs); [|done].
  intros [= <-].
  apply validated_Some in Hval as (_ & c0 & _ & _ & _ & Htd & Hcd & _).
  done.
Qed.

(** X11: a flag that [markWindowCacheDirty] scheduled reaches the cache: once
    its timer has fired on a usable owner, a cache that the next
    [getEffectiveWindowCache] returns for that owner has the flag of that key
    set. *)
Theorem dirty_flag_reaches_effective_cache
        (options : Options) (t : positive) (akey : CacheKey) (w : World)
        (o o' : ApiTab) (c : Cache) :
  timers w !! t = Some (TaskMarkWindowCacheDirty akey) ->
  mLastWindowCacheOwner w = Some o ->
  is_Some (getTabById o w) ->
  fetchedOwner w = Some o' ->
  id o' = id o ->
  completion (getEffectiveWindowCache options (world (fireTimer t w)))
  = Normal (Some c) ->
  match akey with
  | kWINDOW_STATE_CACHED_SIDEBAR => True
  | kWINDOW_STATE_CACHED_SIDEBAR_TABS_DIRTY => tabsDirty (tabbar c) = Some true
  | kWINDOW_STATE_CACHED_SIDEBAR_COLLAPSED_DIRTY =>
      collapsedDirty (tabbar c) = Some true
  end.
Proof.
  intros Ht Ho Hel Ho' Hid.
  rewrite (fireTimer_dirty_run t akey w o Ht Ho Hel). cbn [world].
  set (w1 := set_sessionValues _ _).
  assert (fetchedOwner w1 = Some o') as Ho1 by done.
  rewrite (getEffectiveWindowCache_run options w1 o' Ho1). cbn [completion].
  intros [= Heff]. apply effectiveCache_flags in Heff as [Htd Hcd].
  destruct akey; [done| |].
  - rewrite Htd. unfold storedTabsDirty, w1.
    cbn [sessionValues set_sessionValues]. by rewrite Hid, lookup_insert_eq.
  - rewrite Hcd. unfold storedCollapsedDirty, w1.
    cbn [sessionValues set_sessionValues]. by rewrite Hid, lookup_insert_eq.
Qed.

(** ** The applier, in full *)

Lemma parentChain_parents (s1 s2 : list StructureItem) :
  map parent s1 = map parent s2 -> parentChain s1 = parentChain s2.
Proof.
  unfold parentChain. intros H.
  rewrite <- !(map_map parent JS.stringOfInt). by rewrite H.
Qed.

(** The [forEach] over the tabs completes when the structure has an item for
    each tab, and performs no effect on the browser. *)
Lemma collapseExpandAll_completes (tabs : list TabElement)
      (structure : list StructureItem) (w : World) :
  (length tabs <= length structure)%nat ->
  completion (collapseExpandAll tabs structure w) = Normal tt
  /\ events (collapseExpandAll tabs structure w) = [].
Proof.
  revert structure w.
  induction tabs as [|tab tabs IH]; intros structure w Hlen; [done|].
  destruct structure as [|item structure]; simpl in Hlen; [lia|].
  cbn [collapseExpandAll]. rewrite bind_update. apply IH. lia.
Qed.

Lemma restoreInternal_events i tabs offset cache shouldUpdate (w : World) :
  events (restoreInternal i tabs offset cache shouldUpdate w) = [].
Proof. reflexivity. Qed.

Lemma applyCache_events cache params (w : World) :
  events (applyCache cache params w) = [].
Proof.
  assert (effects (fun _ => False) (applyCache cache params)) as H.
  { unfold applyCache, removeContainer. frame.
    intros w'. rewrite restoreInternal_events. constructor. }
  specialize (H w). by destruct H.
Qed.

Lemma restoredDispatches_app (l1 l2 : list Event) :
  restoredDispatches (l1 ++ l2)
  = (restoredDispatches l1 + restoredDispatches l2)%nat.
Proof. unfold restoredDispatches. by rewrite filter_app, length_app. Qed.

(** X12: once [Cache.restoreTabsFromCacheInternal] reported success and the
    background page answered with its structure, [restoreTabsFromCache]
    returns [true] exactly when the parents recomputed from the live tabs are
    those of the answer, position by position; in both cases [onRestored] is
    dispatched once, as the last effect (so also after the container was
    removed on a mismatch).  With [cache.collapsedDirty] set, the recomputed
    structure is taken to have an item for every tab. *)
Theorem restoreTabsFromCache_verdict
        (cache : Tabbar) (params : Params) (w : World)
        (master : list StructureItem) :
  completion (applyCache cache params w) = Normal true ->
  treeStructures (world (applyCache cache params w)) !! mTargetWindow w
  = Some master ->
  (flagSet (collapsedDirty cache) = true ->
   (length (getAllTabs (world (applyCache cache params w)))
    <= length (getTreeStructureFromTabs
                 (getAllTabs (world (applyCache cache params w)))))%nat) ->
  completion (restoreTabsFromCache cache params w)
  = Normal (bool_decide
              (map parent
                 (getTreeStructureFromTabs
                    (getAllTabs (world (applyCache cache params w))))
               = map parent master))
  /\ restoredDispatches (events (restoreTabsFromCache cache params w)) = 1%nat
  /\ last (events (restoreTabsFromCache cache params w))
     = Some EvRestoredDispatched.
Proof.
  intros Happlied Hmaster Hlen.
  pose proof (applyCache_target cache params w) as Htarget.
  unfold restoreTabsFromCache.
  rewrite (bind_prepend _ _ w true Happlied), applyCache_events.
  set (w1 := world (applyCache cache params w)) in *.
  rewrite bind_read, Htarget. unfold pullTreeStructure.
  rewrite bind_assoc, bind_emit_prepend, bind_assoc, bind_read, Hmaster.
  rewrite bind_ret, bind_read.
  set (current := getTreeStructureFromTabs (getAllTabs w1)) in *.
  destruct (String.eqb (parentChain current) (parentChain master)) eqn:Heq.
  - apply String.eqb_eq, parentChain_inj in Heq.
    rewrite bool_decide_eq_true_2 by done.
    cbn [negb]. rewrite bind_ret. cbn [andb]. unfold when.
    destruct (flagSet (collapsedDirty cache)).
    + destruct (collapseExpandAll_completes (rev (getAllTabs w1)) (rev current)
                  w1) as [Hc He].
      { rewrite !length_rev. by apply Hlen. }
      rewrite (bind_prepend _ _ _ tt Hc), He, bind_emit.
      by cbn.
    + rewrite bind_ret, bind_emit. by cbn.
  - assert (map parent current <> map parent master) as Hne.
    { intros H. apply parentChain_parents in H.
      apply String.eqb_neq in Heq. done. }
    rewrite bool_decide_eq_false_2 by done.
    cbn [negb]. rewrite !bind_assoc, bind_read. unfold removeContainer, when.
    destruct (getTabsContainer (mTargetWindow w) w1);
      repeat (progress (rewrite ?bind_assoc, ?bind_update, ?bind_ret, ?bind_emit;
                        cbn [andb]));
      by cbn.
Qed.

(** X13: when the background page does not answer the request for its
    structure, [restoreTabsFromCache] throws: [onRestored] is not dispatched,
    and the sidebar is left as [Cache.restoreTabsFromCacheInternal] built it,
    with the container that came from the cache. *)
Theorem restoreTabsFromCache_pull_failure
        (cache : Tabbar) (params : Params) (w : World) :
  completion (applyCache cache params w) = Normal true ->
  treeStructures (world (applyCache cache params w)) !! mTargetWindow w = None ->
  (exists e, completion (restoreTabsFromCache cache params w) = Thrown e)
  /\ containers (world (restoreTabsFromCache cache params w))
     = containers (world (applyCache cache params w))
  /\ restoredDispatches (events (restoreTabsFromCache cache params w)) = 0%nat.
Proof.
  intros Happlied Hmaster.
  pose proof (applyCache_target cache params w) as Htarget.
  unfold restoreTabsFromCache.
  rewrite (bind_prepend _ _ w true Happlied), applyCache_events.
  set (w1 := world (applyCache cache params w)) in *.
  rewrite bind_read, Htarget. unfold pullTreeStructure.
  rewrite bind_assoc, bind_emit_prepend, bind_assoc, bind_read, Hmaster.
  cbn. split; [by eexists|done].
Qed.

Lemma collapseExpandAll_style tabs structure :
  unchanged mTabBarStyle (collapseExpandAll tabs structure).
Proof.
  revert structure. induction tabs as [|tab tabs IH]; intros structure; simpl.
  - frame.
  - destruct structure as [|item structure]; [frame|].
    specialize (IH structure). frame. apply IH.
Qed.

(** X14: [restoreTabsFromCache] sets the style of the tab bar only for a
    restoration from the first tab: with an offset of zero (or none) the
    attribute is the text of [cache.style] afterwards, ["null"] for a cache
    taken when the tab bar had no style; with a positive offset it is left as
    it was, on every path through the function. *)
Theorem restoreTabsFromCache_style
        (cache : Tabbar) (params : Params) (w : World) :
  mTabBarStyle (world (restoreTabsFromCache cache params w))
  = match params_offset params with
    | Some n => if (n <=? 0)%Z then Some (JS.stringOfNullable (style cache))
                else mTabBarStyle w
    | None => Some (JS.stringOfNullable (style cache))
    end.
Proof.
  assert (forall b : bool,
             unchanged mTabBarStyle
               (if b then
                  target <- read mTargetWindow ;;
                  masterStructure <- pullTreeStructure target ;;
                  allTabs <- read getAllTabs ;;
                  let currentStructrue := getTreeStructureFromTabs allTabs in
                  restored <-
                    (if negb (String.eqb (parentChain currentStructrue)
                                         (parentChain masterStructure))
                     then
                       container <- read (getTabsContainer target) ;;
                       match container with
                       | Some _ => removeContainer target
                       | None => ret tt
                       end ;;
                       ret false
                     else ret true) ;;
                  when (restored && flagSet (collapsedDirty cache))
                    (collapseExpandAll (rev allTabs) (rev currentStructrue)) ;;
                  emit EvRestoredDispatched ;;
                  ret restored
                else ret false)) as Hrest.
  { intros b. unfold pullTreeStructure, removeContainer.
    frame; apply collapseExpandAll_style. }
  unfold restoreTabsFromCache.
  assert (completion (applyCache cache params w) = Normal true
          \/ completion (applyCache cache params w) = Normal false) as Hc.
  { unfold applyCache.
    rewrite !(bind_completion _ _ _ (mTargetWindow w)) by done.
    cbn [world read].
    rewrite (bind_completion _ _ _
               (getTabsContainer (mTargetWindow w) w)) by done.
    cbn [world read].
    match goal with
    | |- context [when ?b ?m] =>
        assert (completion (when b m w) = Normal tt) as Hw
    end.
    { unfold when, removeContainer. destruct (_ <=? _)%Z; [|done].
      by destruct (getTabsContainer _ w). }
    rewrite (bind_completion _ _ _ tt Hw). unfold restoreInternal. cbn.
    destruct (fst _); auto. }
  assert (mTabBarStyle (world (applyCache cache params w))
          = match params_offset params with
            | Some n => if (n <=? 0)%Z
                        then Some (JS.stringOfNullable (style cache))
                        else mTabBarStyle w
            | None => Some (JS.stringOfNullable (style cache))
            end) as Hs.
  { unfold applyCache, removeContainer, when, restoreInternal.
    rewrite !bind_read.
    destruct (params_offset params) as [n|]; [destruct (n <=? 0)%Z|];
      cbn [Z.leb Z.compare];
      destruct (getTabsContainer (mTargetWindow w) w);
      repeat (progress (rewrite ?bind_assoc, ?bind_update, ?bind_ret));
      reflexivity. }
  destruct Hc as [Hc|Hc]; rewrite (bind_world _ _ _ _ Hc);
    first [rewrite (Hrest true)|rewrite (Hrest false)]; exact Hs.
Qed.

(** ** The listeners and the scheduling of a rebuild *)

Lemma reserveToUpdateCachedTabbar_guard (w : World) :
  mTracking w = false \/ useCachedTree w = false ->
  reserveToUpdateCachedTabbar w = mkRun [] w (Normal tt).
Proof.
  intros H. unfold reserveToUpdateCachedTabbar. rewrite !bind_read.
  destruct H as [-> | ->]; [done|]. by rewrite orb_true_r.
Qed.

(** X15: the cases in which a listener does nothing at all: [onRemoved] with
    [configs.animation] off, [onDetached] for a tab that is not alive, and
    any listener that would schedule a rebuild while tracking has not started
    or [configs.useCachedTree] is off.  Then no key of the store is removed
    and no timer is armed. *)
Theorem onTabsEvent_idle (e : TabsEvent) (w : World) :
  (e = onRemoved /\ animation w = false)
  \/ (exists tab, e = onTabsDetached tab /\ ensureLivingTab tab = false)
  \/ (isStructural e = true
      /\ (mTracking w = false \/ useCachedTree w = false)) ->
  onTabsEvent e w = mkRun [] w (Normal tt).
Proof.
  intros [[-> Ha]|[(tab & -> & Hl)|[Hs Hg]]].
  - unfold onTabsEvent. rewrite bind_read, Ha. reflexivity.
  - unfold onTabsEvent. by rewrite Hl.
  - pose proof (reserveToUpdateCachedTabbar_guard w Hg) as Hr.
    assert (detached reserveToUpdateCachedTabbar w = mkRun [] w (Normal tt))
      as Hd by (unfold detached; by rewrite Hr).
    destruct e; try discriminate Hs; unfold onTabsEvent; try exact Hd.
    + rewrite bind_read. by destruct (animation w).
    + by destruct (ensureLivingTab tab).
Qed.

Lemma updateWindowCache_removes key :
  effects (fun e => ~ isStoreWrite e) (updateWindowCache key None).
Proof. unfold updateWindowCache. frame. Qed.

Lemma clearWindowCache_removes :
  effects (fun e => ~ isStoreWrite e) clearWindowCache.
Proof. unfold clearWindowCache. frame; apply updateWindowCache_removes. Qed.

Lemma reserveToUpdateCachedTabbar_removes :
  effects (fun e => ~ isStoreWrite e) reserveToUpdateCachedTabbar.
Proof.
  unfold reserveToUpdateCachedTabbar, hasCreatingTab,
    waitUntilAllTabsAreCreated.
  frame; first [apply clearWindowCache_removes
               | intros w'; repeat constructor; by intros []].
Qed.

Lemma markWindowCacheDirty_removes akey :
  effects (fun e => ~ isStoreWrite e) (markWindowCacheDirty akey).
Proof.
  unfold markWindowCacheDirty.
  frame; intros w'; repeat constructor; by intros [].
Qed.

Lemma markWindowCacheDirty_completion akey (w : World) :
  completion (markWindowCacheDirty akey w) = Normal tt.
Proof.
  unfold markWindowCacheDirty. rewrite bind_read.
  by destruct (timeout w).
Qed.

(** X16: no listener writes a value to the store: a listener at most removes
    the owner's keys and arms or clears a timer, and the writes are left to
    the timers.  Every listener but [onRemoved], which awaits
    [reserveToUpdateCachedTabbar], completes normally in every state. *)
Theorem onTabsEvent_never_writes (e : TabsEvent) :
  effects (fun ev => ~ isStoreWrite ev) (onTabsEvent e)
  /\ (e <> onRemoved -> forall w, completion (onTabsEvent e w) = Normal tt).
Proof.
  split.
  - unfold onTabsEvent.
    destruct e; frame;
      first [apply markWindowCacheDirty_removes
            | apply reserveToUpdateCachedTabbar_removes].
  - intros Hne w. unfold onTabsEvent.
    destruct e; try done; try apply markWindowCacheDirty_completion.
    by destruct (ensureLivingTab tab).
Qed.

(** X17: a change of another key than [useCachedTree], and the change of
    [useCachedTree] to off, leave everything as it is: the stored snapshot is
    not removed when the cached tree is switched off. *)
Theorem onConfigChange_idle (changedKey : string) (w : World) :
  changedKey <> "useCachedTree" \/ useCachedTree w = false ->
  onConfigChange changedKey w = mkRun [] w (Normal tt).
Proof.
  intros H. unfold onConfigChange.
  destruct (String.eqb_spec changedKey "useCachedTree") as [->|Hne].
  - destruct H as [H|H]; [done|].
    rewrite bind_read, H. cbn [negb]. unfold detached.
    rewrite reserveToUpdateCachedTabbar_guard by by right. reflexivity.
  - reflexivity.
Qed.

(** X18: the change of [useCachedTree] to on removes the owner's three keys
    from the store and then reloads the sidebar. *)
Theorem onConfigChange_enabled (w : World) (o : ApiTab) :
  useCachedTree w = true ->
  mLastWindowCacheOwner w = Some o ->
  is_Some (getTabById o w) ->
  completion (onConfigChange "useCachedTree" w) = Normal tt
  /\ last (events (onConfigChange "useCachedTree" w)) = Some EvReload
  /\ forall key : CacheKey,
       sessionValues (world (onConfigChange "useCachedTree" w)) !! (id o, key)
       = None.
Proof.
  intros Hu Ho Hel. unfold onConfigChange.
  change (String.eqb "useCachedTree" "useCachedTree") with true. cbv iota.
  rewrite bind_read, Hu. cbn [negb].
  rewrite (bind_prepend _ _ _ tt) by apply clearWindowCache_completion.
  rewrite clearWindowCache_world. cbn.
  split; [done|]. split; [by rewrite last_snoc|].
  intros key. by apply cleared_lookup.
Qed.

Lemma cleared_frame {X} (proj : World -> X) (w : World) :
  (forall m w, proj (set_sessionValues m w) = proj w) ->
  proj (cleared w) = proj w.
Proof.
  intros H. unfold cleared.
  destruct (mLastWindowCacheOwner w) as [o|]; [|done].
  by destruct (getTabById o w).
Qed.

(** A run of [reserveToUpdateCachedTabbar] that schedules a rebuild. *)
Lemma reserveToUpdateCachedTabbar_run (w : World) (c : Container) :
  mTracking w = true ->
  useCachedTree w = true ->
  getTabsContainer (mTargetWindow w) w = Some c ->
  allTabsRestored c = false ->
  let w0 := cleared (if creatingTab w then set_creatingTab false w else w) in
  world (reserveToUpdateCachedTabbar w)
  = set_waiting (Some (nextTimer w))
      (set_timers (<[nextTimer w := TaskUpdateCachedTabbar]>
                     (match waiting w with
                      | Some t => delete t (timers w)
                      | None => timers w
                      end))
                  (Pos.succ (nextTimer w)) w0)
  /\ completion (reserveToUpdateCachedTabbar w) = Normal tt.
Proof.
  intros Ht Hu Hc Hr.
  assert (forall w' : World,
            w' = w \/ w' = set_creatingTab false w ->
            let r :=
              (container <- read (fun w => getTabsContainer (mTargetWindow w) w) ;;
               match container with
               | None => throw (TypeError "container is null")
               | Some c =>
                   if allTabsRestored c then ret tt
                   else
                     clearWindowCache ;;
                     t <- read waiting ;;
                     match t with
                     | Some t => clearTimeout t
                     | None => ret tt
                     end ;;
                     t' <- setTimeout TaskUpdateCachedTabbar ;;
                     update (set_waiting (Some t'))
               end) w' in
            world r
            = set_waiting (Some (nextTimer w))
                (set_timers (<[nextTimer w := TaskUpdateCachedTabbar]>
                               (match waiting w with
                                | Some t => delete t (timers w)
                                | None => timers w
                                end))
                            (Pos.succ (nextTimer w)) (cleared w'))
            /\ completion r = Normal tt) as Hcore.
  { intros w' Hw'.
    assert (getTabsContainer (mTargetWindow w') w' = Some c
            /\ waiting (cleared w') = waiting w
            /\ timers (cleared w') = timers w
            /\ nextTimer (cleared w') = nextTimer w) as (Hc' & Hwt & Htm & Hn).
    { rewrite !cleared_frame by done. by destruct Hw' as [-> | ->]. }
    cbv zeta. rewrite bind_read, Hc', Hr.
    rewrite (bind_world _ _ _ tt) by apply clearWindowCache_completion.
    rewrite (bind_completion _ _ _ tt) by apply clearWindowCache_completion.
    rewrite clearWindowCache_world, !bind_read, Hwt.
    destruct (waiting w) as [t0|].
    - unfold clearTimeout, setTimeout, bind, update. cbn.
      by rewrite Htm, Hn.
    - rewrite !bind_ret. unfold setTimeout, bind, update. cbn.
      by rewrite Htm, Hn. }
  unfold reserveToUpdateCachedTabbar.
  rewrite !bind_read, Ht, Hu. cbn [negb orb].
  unfold hasCreatingTab. rewrite bind_read.
  destruct (creatingTab w); unfold when.
  - unfold waitUntilAllTabsAreCreated. rewrite bind_update.
    apply Hcore. by right.
  - rewrite bind_ret. apply Hcore. by left.
Qed.

(** X19: when [reserveToUpdateCachedTabbar] schedules (tracking and
    [useCachedTree] on, a container that is not being restored), the stale
    snapshot and the dirty flags are removed from the usable owner at once,
    and the rebuild is the timer [updateCachedTabbar.waiting] holds. *)
Theorem reserveToUpdateCachedTabbar_schedules
        (w : World) (c : Container) (o : ApiTab) :
  mTracking w = true ->
  useCachedTree w = true ->
  getTabsContainer (mTargetWindow w) w = Some c ->
  allTabsRestored c = false ->
  mLastWindowCacheOwner w = Some o ->
  is_Some (getTabById o w) ->
  completion (reserveToUpdateCachedTabbar w) = Normal tt
  /\ waiting (world (reserveToUpdateCachedTabbar w)) = Some (nextTimer w)
  /\ timers (world (reserveToUpdateCachedTabbar w)) !! nextTimer w
     = Some TaskUpdateCachedTabbar
  /\ forall key : CacheKey,
       sessionValues (world (reserveToUpdateCachedTabbar w)) !! (id o, key)
       = None.
Proof.
  intros Ht Hu Hc Hr Ho Hel.
  destruct (reserveToUpdateCachedTabbar_run w c Ht Hu Hc Hr) as [-> ->].
  split; [done|]. split; [done|].
  split; [apply lookup_insert_eq|].
  intros key. cbn [sessionValues set_waiting set_timers].
  apply cleared_lookup; by destruct (creatingTab w).
Qed.

(** X20: two calls of [reserveToUpdateCachedTabbar] in a row leave one
    rebuild scheduled, the one of the second call: the timer of the first
    call is cleared, so that it writes nothing when its time comes. *)
Theorem reserveToUpdateCachedTabbar_coalesces (w : World) (c : Container) :
  mTracking w = true ->
  useCachedTree w = true ->
  getTabsContainer (mTargetWindow w) w = Some c ->
  allTabsRestored c = false ->
  rebuildTracked w ->
  let w2 := world ((reserveToUpdateCachedTabbar ;;
                    reserveToUpdateCachedTabbar) w) in
  (forall t, timers w2 !! t = Some TaskUpdateCachedTabbar
             <-> t = Pos.succ (nextTimer w))
  /\ waiting w2 = Some (Pos.succ (nextTimer w))
  /\ fireTimer (nextTimer w) w2 = mkRun [] w2 (Normal tt).
Proof.
  intros Ht Hu Hc Hr Hinv.
  destruct (reserveToUpdateCachedTabbar_run w c Ht Hu Hc Hr) as [Hw1 Hc1].
  cbv zeta. rewrite (bind_world _ _ _ tt Hc1).
  set (w1 := world (reserveToUpdateCachedTabbar w)) in *.
  assert (mTracking w1 = true /\ useCachedTree w1 = true
          /\ getTabsContainer (mTargetWindow w1) w1 = Some c
          /\ waiting w1 = Some (nextTimer w)
          /\ nextTimer w1 = Pos.succ (nextTimer w)
          /\ timers w1 = <[nextTimer w := TaskUpdateCachedTabbar]>
                           (match waiting w with
                            | Some t => delete t (timers w)
                            | None => timers w
                            end))
    as (Ht1 & Hu1 & Hcc1 & Hwt1 & Hn1 & Htm1).
  { rewrite Hw1. unfold getTabsContainer.
    cbn [mTracking useCachedTree mTargetWindow containers waiting nextTimer
         timers set_waiting set_timers].
    rewrite !(cleared_frame mTracking), !(cleared_frame useCachedTree),
      !(cleared_frame mTargetWindow), !(cleared_frame containers) by done.
    by destruct (creatingTab w). }
  destruct (reserveToUpdateCachedTabbar_run w1 c Ht1 Hu1 Hcc1 Hr) as [-> _].
  cbn [timers waiting set_waiting set_timers]. rewrite Hwt1, Hn1, Htm1.
  assert (forall t,
            <[Pos.succ (nextTimer w) := TaskUpdateCachedTabbar]>
              (delete (nextTimer w)
                 (<[nextTimer w := TaskUpdateCachedTabbar]>
                    (match waiting w with
                     | Some t => delete t (timers w)
                     | None => timers w
                     end))) !! t = Some TaskUpdateCachedTabbar
            <-> t = Pos.succ (nextTimer w)) as Hone.
  { intros t. split; [|intros ->; apply lookup_insert_eq].
    intros Hl. apply lookup_insert_Some in Hl as [[<- _]|[Hne Hl]]; [done|].
    rewrite lookup_delete in Hl. case_decide; [done|].
    rewrite lookup_insert_ne in Hl by done.
    destruct (waiting w) as [t0|] eqn:Hw0.
    - rewrite lookup_delete in Hl. case_decide; [done|].
      apply Hinv in Hl. congruence.
    - apply Hinv in Hl. congruence. }
  split; [exact Hone|]. split; [done|].
  unfold fireTimer. rewrite bind_read.
  cbn [timers set_waiting set_timers].
  rewrite lookup_insert_ne by lia. by rewrite lookup_delete_eq.
Qed.

End SidebarCache.

(** * The signature of the background page *)

Lemma readQuoted_escape (c : ascii) (rest : list ascii) :
  readQuoted (JSON.escape c ++ rest) = consFirst c (readQuoted rest).
Proof. destruct c as [[] [] [] [] [] [] [] []]; reflexivity. Qed.

Lemma readQuoted_body (s rest : list ascii) :
  readQuoted (concat (map JSON.escape s) ++ DQUOTE :: rest) = Some (s, rest).
Proof.
  induction s as [|c s IH]; [reflexivity|].
  change (concat (map JSON.escape (c :: s)))
    with (JSON.escape c ++ concat (map JSON.escape s)).
  rewrite <- app_assoc, readQuoted_escape, IH. reflexivity.
Qed.

Lemma readString_quote (s rest : list ascii) :
  readString (JSON.quote_chars s ++ rest) = Some (s, rest).
Proof.
  unfold JSON.quote_chars. simpl.
  rewrite <- app_assoc. apply readQuoted_body.
Qed.

Lemma chars_quote (s : string) :
  JS.chars (JSON.quote s) = JSON.quote_chars (JS.chars s).
Proof. apply chars_text. Qed.

Lemma strip_app (literal rest : list ascii) :
  strip literal (literal ++ rest) = Some rest.
Proof.
  unfold strip. rewrite isPrefix_chars_app. by rewrite drop_app_length.
Qed.

Lemma strip_key (key : string) (rest : list ascii) :
  strip (keyChars "" key)
        (JSON.quote_chars (JS.chars key) ++ JS.chars ":" ++ rest)
  = Some rest.
Proof.
  unfold keyChars. rewrite chars_quote. simpl app at 1.
  rewrite app_assoc. apply strip_app.
Qed.

Lemma strip_comma_key (key : string) (rest : list ascii) :
  strip (keyChars "," key)
        (JS.chars "," ++ JSON.quote_chars (JS.chars key) ++ JS.chars ":" ++ rest)
  = Some rest.
Proof.
  unfold keyChars. rewrite chars_quote.
  rewrite !app_assoc. rewrite <- (app_assoc (JS.chars ",")).
  apply strip_app.
Qed.

Lemma readBoolean_boolean (b : bool) (rest : list ascii) :
  readBoolean (JS.chars (JSON.boolean b) ++ rest) = Some (b, rest).
Proof.
  unfold readBoolean. destruct b; simpl JSON.boolean.
  - by rewrite strip_app.
  - replace (strip (JS.chars "true") (JS.chars "false" ++ rest))
      with (@None (list ascii)) by reflexivity.
    by rewrite strip_app.
Qed.

(** Follows the reader along a text [stringifySource] wrote. *)
Ltac read_source :=
  unfold stringifySource, JSON.object, JSON.property, JS.join;
  cbn [option_map omap list_omap source_audible source_incognito source_pinned
       source_title source_url String.concat];
  rewrite ?chars_append, ?chars_quote, <- ?app_assoc;
  unfold readSource;
  change (JS.chars "{") with ["{"%char];
  change (JS.chars "}") with ["}"%char];
  repeat first
    [ progress cbv beta iota zeta
    | rewrite strip_key
    | rewrite strip_comma_key
    | rewrite readBoolean_boolean
    | rewrite readString_quote
    | rewrite text_chars
    | rewrite strip_app
    | progress change (JS.chars ",") with [","%char]
    | match goal with
      | |- context [strip ?a ?b] =>
          replace (strip a b) with (@None (list ascii)) by reflexivity
      end ];
  reflexivity.

(** The reader gives back the source [stringifySource] wrote. *)
Lemma readSource_stringify (x : SignatureSource) (rest : list ascii) :
  readSource (JS.chars (stringifySource x) ++ rest) = Some (x, rest).
Proof.
  destruct x as [[a|] i p [t|] [u|]]; read_source.
Qed.

Lemma chars_stringifySource_head (x : SignatureSource) :
  exists l, JS.chars (stringifySource x) = "{"%char :: l.
Proof.
  unfold stringifySource, JSON.object. rewrite chars_append. by eexists.
Qed.

(** The texts of the elements of an array, joined by commas and closed by
    the bracket, determine the elements. *)
Lemma array_body_cons (z : SignatureSource) (l : list SignatureSource)
      (r : list ascii) :
  intercalate ","%char (map (fun x => JS.chars (stringifySource x)) (z :: l))
    ++ "]"%char :: r
  = JS.chars (stringifySource z)
      ++ match l with
         | [] => "]"%char :: r
         | _ :: _ =>
             ","%char
             :: intercalate ","%char
                  (map (fun x => JS.chars (stringifySource x)) l)
                  ++ "]"%char :: r
         end.
Proof. destruct l as [|z' l]; [done|]. simpl. by rewrite <- app_assoc. Qed.

Lemma array_body_inj (l1 l2 : list SignatureSource) (r1 r2 : list ascii) :
  intercalate ","%char (map (fun x => JS.chars (stringifySource x)) l1)
    ++ "]"%char :: r1
  = intercalate ","%char (map (fun x => JS.chars (stringifySource x)) l2)
    ++ "]"%char :: r2 ->
  l1 = l2.
Proof.
  revert l2. induction l1 as [|x l1 IH]; intros [|y l2] H.
  - done.
  - exfalso. rewrite array_body_cons in H.
    destruct (chars_stringifySource_head y) as [l Hl].
    rewrite Hl in H. discriminate H.
  - exfalso. rewrite array_body_cons in H.
    destruct (chars_stringifySource_head x) as [l Hl].
    rewrite Hl in H. discriminate H.
  - rewrite !array_body_cons in H.
    apply (f_equal readSource) in H.
    rewrite !readSource_stringify in H.
    injection H as -> Hrest. f_equal.
    destruct l1 as [|x' l1], l2 as [|y' l2]; try discriminate Hrest; [done|].
    injection Hrest as Hrest. by apply IH.
Qed.

(** [JSON.stringify] is injective on the sources of signatures. *)
Lemma stringify_inj (l1 l2 : list SignatureSource) :
  stringify l1 = stringify l2 -> l1 = l2.
Proof.
  unfold stringify, JSON.array. intros H.
  apply (f_equal JS.chars) in H. rewrite !chars_append in H.
  change ","%string with (String ","%char EmptyString) in H.
  rewrite !chars_join, !map_map in H.
  simpl in H. injection H as H.
  by apply (array_body_inj l1 l2 [] []).
Qed.

(** ** Digests are too few *)

Lemma bounded_search (f : nat -> nat) (v n : nat) :
  (exists i, (i <= n)%nat /\ f i = v) \/ (forall i, (i <= n)%nat -> f i <> v).
Proof.
  induction n as [|n [(i & Hi & Hf)|IH]].
  - destruct (decide (f 0%nat = v)) as [H|H].
    + left. exists 0%nat. by split.
    + right. intros i Hi. by replace i with 0%nat by lia.
  - left. exists i. split; [lia|done].
  - destruct (decide (f (S n) = v)) as [H|H].
    + left. exists (S n). by split.
    + right. intros i Hi.
      destruct (decide (i = S n)) as [->|Hne]; [done|]. apply IH. lia.
Qed.

(** Among [n + 1] values below [n], two are equal. *)
Lemma pigeonhole (n : nat) (f : nat -> nat) :
  (forall i, (i <= n)%nat -> (f i < n)%nat) ->
  exists i j, (i < j)%nat /\ (j <= n)%nat /\ f i = f j.
Proof.
  revert f. induction n as [|n IH]; intros f Hf.
  - specialize (Hf 0%nat). lia.
  - destruct (bounded_search f (f (S n)) n) as [(i & Hi & Hv)|Hnone].
    + exists i, (S n). split; [lia|]. split; [lia|done].
    + set (v := f (S n)) in *.
      destruct (IH (fun i => if (f i <? v)%nat then f i else (f i - 1)%nat))
        as (i & j & Hij & Hj & Heq).
      * intros i Hi. specialize (Hnone i Hi).
        assert (v < S n)%nat by (apply Hf; lia).
        assert (f i < S n)%nat by (apply Hf; lia).
        destruct (Nat.ltb_spec (f i) v); lia.
      * exists i, j. split; [lia|]. split; [lia|].
        pose proof (Hnone i). pose proof (Hnone j).
        destruct (Nat.ltb_spec (f i) v), (Nat.ltb_spec (f j) v); lia.
Qed.

Lemma hexValue_lt (c : ascii) : (hexValue c < 16)%nat.
Proof.
  destruct c as [[] [] [] [] [] [] [] []]; vm_compute; lia.
Qed.

Lemma hexDigit_hexValue (c : ascii) :
  c ∈ JSON.hexDigits -> JSON.hexDigit (hexValue c) = c.
Proof.
  unfold JSON.hexDigits. simpl. intros H.
  repeat (apply elem_of_cons in H as [->|H]; [reflexivity|]).
  by apply elem_of_nil in H.
Qed.

Lemma digestValue_lt (l : list ascii) :
  (digestValue l < 16 ^ N.of_nat (length l))%N.
Proof.
  induction l as [|c l IH]; [done|].
  change (digestValue (c :: l))
    with (N.of_nat (hexValue c) + 16 * digestValue l)%N.
  change (length (c :: l)) with (S (length l)).
  rewrite Nat2N.inj_succ, N.pow_succ_r'.
  pose proof (hexValue_lt c). lia.
Qed.

Lemma digestValue_inj (l1 l2 : list ascii) :
  Forall (fun c => c ∈ JSON.hexDigits) l1 ->
  Forall (fun c => c ∈ JSON.hexDigits) l2 ->
  length l1 = length l2 ->
  digestValue l1 = digestValue l2 -> l1 = l2.
Proof.
  intros H1. revert l2.
  induction H1 as [|c1 l1 Hc1 _ IH]; intros l2 H2 Hlen Hv;
    destruct H2 as [|c2 l2 Hc2 H2]; try discriminate Hlen; [done|].
  change (N.of_nat (hexValue c1) + 16 * digestValue l1
          = N.of_nat (hexValue c2) + 16 * digestValue l2)%N in Hv.
  pose proof (hexValue_lt c1). pose proof (hexValue_lt c2).
  assert (hexValue c1 = hexValue c2) as Hh by lia.
  assert (digestValue l1 = digestValue l2) as Hd by lia.
  f_equal.
  - by rewrite <- (hexDigit_hexValue c1), <- (hexDigit_hexValue c2), Hh.
  - apply IH; [done| |done]. by injection Hlen.
Qed.

Lemma isDigest_value (s : string) :
  isDigest s -> (digestValue (JS.chars s) < digestCount)%N.
Proof.
  intros [Hlen _]. pose proof (digestValue_lt (JS.chars s)) as H.
  rewrite Hlen in H. exact H.
Qed.

Lemma isDigest_inj (s1 s2 : string) :
  isDigest s1 -> isDigest s2 ->
  digestValue (JS.chars s1) = digestValue (JS.chars s2) -> s1 = s2.
Proof.
  intros [L1 H1] [L2 H2] Hv. apply chars_inj.
  apply digestValue_inj; [done|done|congruence|done].
Qed.

Lemma getTabsSignatureSource_length (T : list ApiTab) :
  length (getTabsSignatureSource T) = length T.
Proof. apply length_map. Qed.

(** Whatever function gives the digests, two windows with different numbers
    of tabs have the same signature. *)
Lemma digests_collide (md5 : string -> string) :
  (forall s, isDigest (md5 s)) ->
  exists T1 T2, length T1 <> length T2
                /\ getTabsSignature md5 T1 = getTabsSignature md5 T2.
Proof.
  intros Hd.
  set (f := fun i : nat =>
              N.to_nat (digestValue
                          (JS.chars (getTabsSignature md5 (repeat tabA i))))).
  destruct (pigeonhole (N.to_nat digestCount) f) as (i & j & Hij & _ & Heq).
  - intros i _. unfold f.
    pose proof (isDigest_value _ (Hd (stringify
                  (getTabsSignatureSource (repeat tabA i))))) as H.
    unfold getTabsSignature. lia.
  - exists (repeat tabA i), (repeat tabA j). split.
    + rewrite !repeat_length. lia.
    + unfold f in Heq. apply N2Nat.inj in Heq.
      unfold getTabsSignature in *.
      apply isDigest_inj; [apply Hd|apply Hd|exact Heq].
Qed.

(** ** The claims on the background page's signature *)

(** C7: the signature is a function of the ordered field tuples: sequences
    that are equal field by field and in order have equal signatures.  The
    text that is digested is different for different sequences, so that two
    different sequences have the same signature only when [md5] gives one
    digest to two texts. *)
Theorem getTabsSignature_of_source (md5 : string -> string)
        (T1 T2 : list ApiTab) :
  (getTabsSignatureSource T1 = getTabsSignatureSource T2 ->
   getTabsSignature md5 T1 = getTabsSignature md5 T2)
  /\ (stringify (getTabsSignatureSource T1) = stringify (getTabsSignatureSource T2)
      <-> getTabsSignatureSource T1 = getTabsSignatureSource T2)
  /\ (getTabsSignature md5 T1 = getTabsSignature md5 T2 ->
      getTabsSignatureSource T1 <> getTabsSignatureSource T2 ->
      exists s1 s2, s1 <> s2 /\ md5 s1 = md5 s2).
Proof.
  unfold getTabsSignature. split; [|split].
  - by intros ->.
  - split; [apply stringify_inj|by intros ->].
  - intros Heq Hne.
    exists (stringify (getTabsSignatureSource T1)),
           (stringify (getTabsSignatureSource T2)).
    split; [|done]. intros H. by apply Hne, stringify_inj.
Qed.

(** C7, as stated, fails: no function that gives digests of 128 bits makes
    the signatures equal only for sequences that are equal field by field. *)
Lemma getTabsSignature_not_injective :
  ~ exists md5 : string -> string,
      (forall s, isDigest (md5 s)) /\
      forall T1 T2 : list ApiTab,
        getTabsSignature md5 T1 = getTabsSignature md5 T2
        <-> getTabsSignatureSource T1 = getTabsSignatureSource T2.
Proof.
  intros (md5 & Hd & Hiff).
  destruct (digests_collide md5 Hd) as (T1 & T2 & Hlen & Heq).
  apply Hiff in Heq. apply Hlen.
  by rewrite <- (getTabsSignatureSource_length T1),
             <- (getTabsSignatureSource_length T2), Heq.
Qed.

(** * The tree structures of the background page *)

Section TreeStructureFacts.

Variable md5 : string -> string.
Variable getTreeStructureFromTabs : list TabElement -> list StructureItem.
Variable applyTreeStructureToTabs :
  N -> list StructureItem -> gmap N TabsContainer -> gmap N TabsContainer.

(** The loop over any list of keys: a signature ends with the structure of
    the last key of the list that has a record with it. *)
Lemma sanitize_loop (m : gmap N TreeEntry) (l : list N) (s : string)
      (st : list StructureItem) :
  foldl (sanitizeEntry m) ∅ l !! s = Some st
  <-> exists j e,
        m !! j = Some e /\ entry_signature e = s /\ entry_structure e = st
        /\ lastWithSignature m l j s.
Proof.
  revert s st. induction l as [|x l IH] using rev_ind; intros s st.
  - simpl. split; [done|]. intros (j & e & _ & _ & _ & l1 & l2 & Hl & _).
    by destruct l1.
  - assert (forall j (P : N -> Prop),
              (exists l1 l2, l ++ [x] = l1 ++ j :: l2 /\ forall k, k ∈ l2 -> P k)
              <-> (j = x /\ True) \/
                  (P x /\ exists l1 l2, l = l1 ++ j :: l2
                                        /\ forall k, k ∈ l2 -> P k)) as Hsplit.
    { intros j P. split.
      - intros (l1 & l2 & Hl & HP).
        destruct l2 as [|y l2 _] using rev_ind.
        + apply app_inj_tail in Hl as [_ ->]. by left.
        + rewrite app_comm_cons, app_assoc in Hl.
          apply app_inj_tail in Hl as [-> ->]. right. split.
          * apply HP, elem_of_app. right. by apply list_elem_of_singleton.
          * exists l1, l2. split; [done|]. intros k Hk.
            apply HP, elem_of_app. by left.
      - intros [[-> _]|(HPx & l1 & l2 & -> & HP)].
        + exists l, []. split; [done|]. intros k Hk. by apply elem_of_nil in Hk.
        + exists l1, (l2 ++ [x]). split; [by rewrite <- app_assoc|].
          intros k Hk. apply elem_of_app in Hk as [Hk|Hk]; [by apply HP|].
          apply list_elem_of_singleton in Hk. by subst k. }
    assert (forall j,
              lastWithSignature m (l ++ [x]) j s
              <-> j = x \/
                  ((forall e, m !! x = Some e -> entry_signature e <> s)
                   /\ lastWithSignature m l j s)) as Hlast.
    { intros j. unfold lastWithSignature.
      pose proof (Hsplit j (fun k => forall e, m !! k = Some e ->
                                               entry_signature e <> s)) as H.
      cbv beta in H. rewrite H. clear H.
      split.
      - intros [[-> _]|H]; [by left|by right].
      - intros [->|H]; [by left|by right]. }
    rewrite foldl_app. cbn [foldl]. unfold sanitizeEntry at 1.
    destruct (m !! x) as [ex|] eqn:Hmx.
    + destruct (decide (entry_signature ex = s)) as [<-|Hne].
      * rewrite lookup_insert_eq. split.
        -- intros [= <-]. exists x, ex. repeat split; try done.
           apply Hlast. by left.
        -- intros (j & e & Hmj & Hsig & Hst & Hj).
           apply Hlast in Hj as [->|[Hx _]]; [congruence|].
           by destruct (Hx ex).
      * rewrite lookup_insert_ne by done. rewrite IH. split.
        -- intros (j & e & Hmj & Hsig & Hst & Hj).
           exists j, e. repeat split; try done. apply Hlast. right.
           split; [|done]. intros e' [= <-]. done.
        -- intros (j & e & Hmj & Hsig & Hst & Hj).
           exists j, e. repeat split; try done.
           apply Hlast in Hj as [->|[_ Hj]]; [congruence|done].
    + rewrite IH. split.
      * intros (j & e & Hmj & Hsig & Hst & Hj).
        exists j, e. repeat split; try done. apply Hlast. right.
        split; [|done]. by intros e' [=].
      * intros (j & e & Hmj & Hsig & Hst & Hj).
        exists j, e. repeat split; try done.
        apply Hlast in Hj as [->|[_ Hj]]; [congruence|done].
Qed.

(** The keys that index an array come in ascending order, each once, and
    before the other keys. *)
Lemma objectKeys_index (m : gmap N TreeEntry) (created : list N) (j : N) :
  is_Some (m !! j) -> isArrayIndex j = true ->
  exists keys1 keys2,
    objectKeys m created = keys1 ++ j :: keys2
    /\ forall k, k ∈ keys2 -> (j < k)%N.
Proof.
  intros [e He] Hj. unfold objectKeys.
  set (indices := filter (fun k => isArrayIndex k = true)
                         (map fst (map_to_list m))).
  assert (j ∈ merge_sort N.le indices) as Hin.
  { rewrite merge_sort_Permutation. unfold indices.
    apply list_elem_of_filter. split; [done|].
    apply list_elem_of_In, in_map_iff. exists (j, e). split; [done|].
    by apply list_elem_of_In, elem_of_map_to_list. }
  assert (NoDup (merge_sort N.le indices)) as Hnd.
  { rewrite merge_sort_Permutation. unfold indices. apply NoDup_filter.
    apply (NoDup_fst_map_to_list m). }
  assert (StronglySorted N.le (merge_sort N.le indices)) as Hs
      by (apply StronglySorted_merge_sort; apply _).
  apply list_elem_of_split in Hin as (a & b & Hab).
  rewrite Hab in *. exists a. eexists.
  split; [rewrite <- app_assoc, <- app_comm_cons; reflexivity|].
  intros k Hk. apply elem_of_app in Hk as [Hk|Hk].
  - apply StronglySorted_app in Hs as (_ & _ & Hs).
    apply StronglySorted_cons in Hs as [Hle _].
    rewrite Forall_forall in Hle. specialize (Hle k Hk).
    apply NoDup_app in Hnd as (_ & _ & Hnd).
    apply NoDup_cons in Hnd as [Hnot _].
    assert (k <> j) by (intros ->; done). lia.
  - apply list_elem_of_filter in Hk as [[Hk _] _].
    unfold isArrayIndex in *.
    apply N.ltb_lt in Hj. apply N.ltb_ge in Hk. lia.
Qed.

(** Every recorded key is listed, when its creation was recorded. *)
Lemma objectKeys_elem_of (m : gmap N TreeEntry) (created : list N) (j : N) :
  is_Some (m !! j) -> j ∈ created -> j ∈ objectKeys m created.
Proof.
  intros Hj Hc. unfold objectKeys. apply elem_of_app.
  destruct (isArrayIndex j) eqn:Hi.
  - left. rewrite merge_sort_Permutation. apply list_elem_of_filter.
    split; [done|]. destruct Hj as [e He].
    apply list_elem_of_In, in_map_iff. exists (j, e). split; [done|].
    by apply list_elem_of_In, elem_of_map_to_list.
  - right. by apply list_elem_of_filter.
Qed.

(** What [sanitizedStructure] holds comes from the records. *)
Lemma sanitize_sound (m : gmap N TreeEntry) (created : list N) (s : string)
      (st : list StructureItem) :
  sanitize m created !! s = Some st ->
  exists j e,
    m !! j = Some e /\ entry_signature e = s /\ entry_structure e = st.
Proof.
  unfold sanitize. rewrite sanitize_loop.
  intros (j & e & Hj & Hs & Hst & _). by exists j, e.
Qed.

(** A signature that one recorded window has is saved with the structure of
    that window. *)
Lemma sanitize_unique (m : gmap N TreeEntry) (created : list N) (j : N)
      (e : TreeEntry) :
  m !! j = Some e -> j ∈ created ->
  (forall k e', m !! k = Some e' -> entry_signature e' = entry_signature e ->
                k = j) ->
  sanitize m created !! entry_signature e = Some (entry_structure e).
Proof.
  intros Hj Hc Hu. unfold sanitize. apply sanitize_loop.
  exists j, e. split; [done|]. split; [done|]. split; [done|].
  assert (j ∈ objectKeys m created) as Hin
      by (apply objectKeys_elem_of; [by eexists|done]).
  apply list_elem_of_split_r in Hin as (l1 & l2 & Hl & Hnot).
  exists l1, l2. split; [done|]. intros k Hk e' Hmk Hsig.
  apply (Hu k e' Hmk) in Hsig. by subst k.
Qed.

(** Of the recorded windows with one signature, the one with the greatest id
    gives the saved structure, when that id indexes an array. *)
Lemma sanitize_greatest (m : gmap N TreeEntry) (created : list N) (j : N)
      (e : TreeEntry) :
  m !! j = Some e -> isArrayIndex j = true ->
  greatestWithSignature m j (entry_signature e) ->
  sanitize m created !! entry_signature e = Some (entry_structure e).
Proof.
  intros Hj Hi Hmax. unfold sanitize. apply sanitize_loop.
  exists j, e. split; [done|]. split; [done|]. split; [done|].
  destruct (objectKeys_index m created j) as (l1 & l2 & Hl & Hlt);
    [by eexists|done|].
  exists l1, l2. split; [done|]. intros k Hk e' Hmk Hsig.
  apply Hlt in Hk. apply (Hmax k e' Hmk) in Hsig. lia.
Qed.

(** The list of the created keys stays complete. *)
Lemma keysAfterAssign_recorded (m : gmap N TreeEntry) (created : list N)
      (i : N) (e : TreeEntry) :
  (forall k, is_Some (m !! k) -> k ∈ created) ->
  forall k, is_Some (<[i := e]> m !! k) -> k ∈ keysAfterAssign m i created.
Proof.
  intros Hinv k Hk. unfold keysAfterAssign.
  destruct (decide (k = i)) as [->|Hne].
  - case_decide; [by apply Hinv|].
    apply elem_of_app. right. by apply list_elem_of_singleton.
  - rewrite lookup_insert_ne in Hk by done.
    case_decide; [by apply Hinv|]. apply elem_of_app. left. by apply Hinv.
Qed.

Local Abbreviation save := (saveTreeStructure md5 getTreeStructureFromTabs).
Local Abbreviation load := (loadTreeStructure md5 applyTreeStructureToTabs).

(** Every [saveTreeStructure] keeps the list of the created keys complete. *)
Lemma saveTreeStructure_keysRecorded (i : N) (b : Background) :
  keysRecorded b -> keysRecorded (fst (save i b)).
Proof.
  intros Hinv. unfold saveTreeStructure.
  destruct (tabsContainers b !! i) as [container|].
  - destruct (windowsGet i _) as [tabs|]; [|done].
    intros k. by apply keysAfterAssign_recorded.
  - intros k [e Hk]. cbn in Hk.
    apply lookup_delete_Some in Hk as [Hne Hk]. cbn.
    apply list_elem_of_filter. split; [done|]. apply Hinv. by eexists.
Qed.

(** A run of [saveTreeStructure] for a window that has a container and that
    the browser knows. *)
Lemma saveTreeStructure_run
      (i : N) (b : Background) (container : TabsContainer)
      (tabs : list ApiTab) :
  tabsContainers b !! i = Some container ->
  windowsGet i b = Some tabs ->
  let records :=
    <[i := {| entry_signature := getTabsSignature md5 tabs;
              entry_structure :=
                getTreeStructureFromTabs (containerTabs container) |}]>
      (gTreeStructures b) in
  let keys := keysAfterAssign (gTreeStructures b) i (gTreeStructuresKeys b) in
  snd (save i b) = Fulfilled
  /\ gTreeStructures (fst (save i b)) = records
  /\ gTreeStructuresKeys (fst (save i b)) = keys
  /\ treeStructure (fst (save i b)) = Some (sanitize records keys)
  /\ normalWindows (fst (save i b)) = normalWindows b.
Proof.
  intros Hc Hw. unfold saveTreeStructure. rewrite Hc.
  change (windowsGet i (set_tabsContainers _ b)) with (windowsGet i b).
  by rewrite Hw.
Qed.

(** X21: [saveTreeStructure] for a window that has a container and that the
    browser knows records the signature of the window's tabs with the
    structure of its tab elements, and saves to [configs.treeStructure],
    under each signature, the structure of the recorded window that comes
    last in the order of [Object.keys] among those with that signature.  So
    a signature that one recorded window has is saved with that window's
    structure; and of several recorded windows with one signature, the one
    with the greatest id is saved, when that id indexes an array (it is below
    2^32 - 1). *)
Theorem saveTreeStructure_saves
        (i : N) (b : Background) (container : TabsContainer)
        (tabs : list ApiTab) :
  tabsContainers b !! i = Some container ->
  windowsGet i b = Some tabs ->
  keysRecorded b ->
  snd (save i b) = Fulfilled
  /\ gTreeStructures (fst (save i b))
     = <[i := {| entry_signature := getTabsSignature md5 tabs;
                 entry_structure :=
                   getTreeStructureFromTabs (containerTabs container) |}]>
         (gTreeStructures b)
  /\ keysRecorded (fst (save i b))
  /\ exists saved,
       treeStructure (fst (save i b)) = Some saved
       /\ (forall s st,
             saved !! s = Some st
             <-> exists j e,
                   gTreeStructures (fst (save i b)) !! j = Some e
                   /\ entry_signature e = s /\ entry_structure e = st
                   /\ lastWithSignature
                        (gTreeStructures (fst (save i b)))
                        (objectKeys (gTreeStructures (fst (save i b)))
                           (gTreeStructuresKeys (fst (save i b))))
                        j s)
       /\ (forall j e,
             gTreeStructures (fst (save i b)) !! j = Some e ->
             (forall k e',
                 gTreeStructures (fst (save i b)) !! k = Some e' ->
                 entry_signature e' = entry_signature e -> k = j) ->
             saved !! entry_signature e = Some (entry_structure e))
       /\ (forall j e,
             gTreeStructures (fst (save i b)) !! j = Some e ->
             isArrayIndex j = true ->
             greatestWithSignature (gTreeStructures (fst (save i b))) j
               (entry_signature e) ->
             saved !! entry_signature e = Some (entry_structure e)).
Proof.
  intros Hc Hw Hinv.
  destruct (saveTreeStructure_run i b container tabs Hc Hw)
    as (Ho & Hm & Hk & Hs & _).
  assert (keysRecorded (fst (save i b))) as Hinv'.
  { unfold keysRecorded. rewrite Hm, Hk.
    by apply keysAfterAssign_recorded. }
  split; [done|]. split; [done|]. split; [done|].
  eexists. split; [exact Hs|]. rewrite <- Hm, <- Hk. split; [|split].
  - intros s st. apply sanitize_loop.
  - intros j e Hj Hu. apply (sanitize_unique _ _ j); [done| |done].
    apply Hinv'. by eexists.
  - intros j e Hj Hi Hmax. by apply (sanitize_greatest _ _ j).
Qed.

(** The messages [loadTreeStructure] sends, one for each window whose
    signature has a saved structure, in the order of the windows. *)
Lemma loadWindow_sent (structures : gmap string (list StructureItem))
      (windows : list (N * list ApiTab))
      (state : Background * list (N * list StructureItem)) :
  snd (foldl (loadWindow md5 applyTreeStructureToTabs structures) state
             windows)
  = snd state
    ++ omap (fun window =>
               option_map (pair (fst window))
                 (structures !! getTabsSignature md5 (snd window)))
            windows.
Proof.
  revert state. induction windows as [|window windows IH]; intros state.
  - by rewrite app_nil_r.
  - cbn [foldl]. rewrite IH. unfold loadWindow.
    cbn [omap list_omap]. cbv beta.
    destruct (structures !! getTabsSignature md5 (snd window)) as [st|].
    + cbn. by rewrite <- app_assoc.
    + reflexivity.
Qed.

Lemma loadTreeStructure_sent (b : Background)
      (structures : gmap string (list StructureItem))
      (i : N) (st : list StructureItem) :
  treeStructure b = Some structures ->
  (i, st) ∈ snd (load b)
  <-> exists tabs, (i, tabs) ∈ normalWindows b
                   /\ structures !! getTabsSignature md5 tabs = Some st.
Proof.
  intros Hs. unfold loadTreeStructure. rewrite Hs, loadWindow_sent.
  cbn [snd]. rewrite app_nil_l, list_elem_of_omap. split.
  - intros ([j tabs] & Hin & Hsome). cbn [fst snd] in Hsome.
    destruct (structures !! _) as [st'|] eqn:Hl; [|done].
    injection Hsome as <- <-. by exists tabs.
  - intros (tabs & Hin & Hl). exists (i, tabs). split; [done|].
    cbn [fst snd]. by rewrite Hl.
Qed.

(** X22: [loadTreeStructure] finds the structure of a window by the
    signature of its tabs alone: a message is sent for a window exactly when
    a structure is saved under the signature of its tabs, and two windows
    whose tabs are equal in the five fields of the signature get the same
    structure.  Without a saved [configs.treeStructure] nothing is sent. *)
Theorem loadTreeStructure_by_signature (b : Background) :
  match treeStructure b with
  | None => load b = (b, [])
  | Some structures =>
      (forall i st,
          (i, st) ∈ snd (load b)
          <-> exists tabs, (i, tabs) ∈ normalWindows b
                           /\ structures !! getTabsSignature md5 tabs = Some st)
      /\ forall i j tabs1 tabs2 st,
           (i, tabs1) ∈ normalWindows b ->
           (j, tabs2) ∈ normalWindows b ->
           getTabsSignatureSource tabs1 = getTabsSignatureSource tabs2 ->
           structures !! getTabsSignature md5 tabs1 = Some st ->
           (i, st) ∈ snd (load b) /\ (j, st) ∈ snd (load b)
  end.
Proof.
  destruct (treeStructure b) as [structures|] eqn:Hs.
  - split.
    + intros i st. by apply loadTreeStructure_sent.
    + intros i j tabs1 tabs2 st Hi Hj Heq Hl.
      split; apply (loadTreeStructure_sent b structures _ _ Hs).
      * by exists tabs1.
      * exists tabs2. split; [done|].
        unfold getTabsSignature in *. by rewrite <- Heq.
  - unfold loadTreeStructure. by rewrite Hs.
Qed.

Lemma windowsGet_elem_of (i : N) (b : Background) (tabs : list ApiTab) :
  windowsGet i b = Some tabs -> (i, tabs) ∈ normalWindows b.
Proof.
  unfold windowsGet.
  destruct (List.find _ _) as [[j tabs']|] eqn:Hf; [|done].
  intros [= <-]. apply find_some in Hf as [Hin Heq]. cbn in Heq.
  apply N.eqb_eq in Heq as ->. by apply list_elem_of_In.
Qed.

(** X23: a structure saved is the structure loaded: after
    [saveTreeStructure] for a window, [loadTreeStructure] sends that window
    the structure that was recorded for it, when no other recorded window
    has the signature of its tabs, or when the window's id indexes an array
    and no recorded window with a greater id has that signature.  The keys
    of the records are taken to be in the list of their creation, as they
    are from the empty object on. *)
Theorem saveTreeStructure_then_loadTreeStructure
        (i : N) (b : Background) (container : TabsContainer)
        (tabs : list ApiTab) :
  tabsContainers b !! i = Some container ->
  windowsGet i b = Some tabs ->
  keysRecorded b ->
  (forall k e, gTreeStructures b !! k = Some e -> k <> i ->
               entry_signature e <> getTabsSignature md5 tabs)
  \/ (isArrayIndex i = true
      /\ greatestWithSignature (gTreeStructures b) i
           (getTabsSignature md5 tabs)) ->
  (i, getTreeStructureFromTabs (containerTabs container))
  ∈ snd (load (fst (save i b))).
Proof.
  intros Hc Hw Hinv Hlast.
  destruct (saveTreeStructure_run i b container tabs Hc Hw)
    as (_ & _ & _ & Hs & Hn).
  apply (loadTreeStructure_sent _ _ _ _ Hs).
  exists tabs. rewrite Hn. split; [by apply windowsGet_elem_of|].
  set (e := {| entry_signature := getTabsSignature md5 tabs;
               entry_structure :=
                 getTreeStructureFromTabs (containerTabs container) |}).
  change (getTabsSignature md5 tabs) with (entry_signature e).
  change (getTreeStructureFromTabs (containerTabs container))
    with (entry_structure e).
  destruct Hlast as [Hu|[Hi Hmax]].
  - apply (sanitize_unique _ _ i); [apply lookup_insert_eq| |].
    + unfold keysAfterAssign. case_decide as Hp; [by apply Hinv|].
      apply elem_of_app. right. by apply list_elem_of_singleton.
    + intros k e' Hk Hsig. destruct (decide (k = i)) as [->|Hne]; [done|].
      rewrite lookup_insert_ne in Hk by done. by destruct (Hu k e' Hk Hne).
  - apply (sanitize_greatest _ _ i); [apply lookup_insert_eq|done|].
    intros k e' Hk Hsig. apply lookup_insert_Some in Hk as [[<- _]|[_ Hk]];
      [lia|by apply (Hmax k e')].
Qed.

(** X24: [saveTreeStructure] for a window without a container forgets the
    window: its record is deleted, and what is saved to
    [configs.treeStructure] comes from the other windows only. *)
Theorem saveTreeStructure_forgets (i : N) (b : Background) :
  tabsContainers b !! i = None ->
  snd (save i b) = Fulfilled
  /\ gTreeStructures (fst (save i b)) !! i = None
  /\ exists saved,
       treeStructure (fst (save i b)) = Some saved
       /\ forall s st,
            saved !! s = Some st ->
            exists j e,
              j <> i /\ gTreeStructures b !! j = Some e
              /\ entry_signature e = s /\ entry_structure e = st.
Proof.
  intros Hc. unfold saveTreeStructure. rewrite Hc. cbn.
  split; [done|]. split; [apply lookup_delete_eq|].
  eexists. split; [reflexivity|]. intros s st Hl.
  apply sanitize_sound in Hl as (j & e & Hj & Hsig & Hst).
  apply lookup_delete_Some in Hj as [Hne Hj]. by exists j, e.
Qed.

(** X25: [saveTreeStructure] for a window that has a container but that the
    browser does not know is rejected by [browser.windows.get]: the timer
    handle of the container is reset, and neither the records nor
    [configs.treeStructure] change, so the stale record of the window
    stays. *)
Theorem saveTreeStructure_rejected
        (i : N) (b : Background) (container : TabsContainer) :
  tabsContainers b !! i = Some container ->
  windowsGet i b = None ->
  snd (save i b) = Rejected
  /\ gTreeStructures (fst (save i b)) = gTreeStructures b
  /\ treeStructure (fst (save i b)) = treeStructure b
  /\ tabsContainers (fst (save i b))
     = <[i := {| waitingToSaveTreeStructure := None;
                 containerTabs := containerTabs container |}]>
         (tabsContainers b).
Proof.
  intros Hc Hw. unfold saveTreeStructure. rewrite Hc.
  change (windowsGet i (set_tabsContainers _ b)) with (windowsGet i b).
  by rewrite Hw.
Qed.

Lemma saveTreeStructure_timers (i : N) (b : Background) :
  saveTimers (fst (save i b)) = saveTimers b.
Proof.
  unfold saveTreeStructure.
  destruct (tabsContainers b !! i); [|done].
  by destruct (windowsGet i _).
Qed.

Lemma saveTreeStructure_containers (i : N) (b : Background) :
  tabsContainers (fst (save i b))
  = match tabsContainers b !! i with
    | Some container =>
        <[i := {| waitingToSaveTreeStructure := None;
                  containerTabs := containerTabs container |}]>
          (tabsContainers b)
    | None => tabsContainers b
    end.
Proof.
  unfold saveTreeStructure.
  destruct (tabsContainers b !! i); [|done].
  by destruct (windowsGet i _).
Qed.

(** X26: the saves are debounced for each window: where every timer of a
    scheduled save is the one the container of its window holds, this is so
    after [reserveToSaveTreeStructure] and after a timer has fired, so that
    a window has at most one save scheduled; for a window without a
    container nothing is scheduled. *)
Theorem reserveToSaveTreeStructure_tracked (aHint : N) (b : Background) :
  saveTracked b ->
  saveTracked (reserveToSaveTreeStructure aHint b)
  /\ (forall t, saveTracked (fireSaveTimer md5 getTreeStructureFromTabs t b))
  /\ (tabsContainers b !! aHint = None ->
      reserveToSaveTreeStructure aHint b = b).
Proof.
  intros Hinv. split; [|split].
  - unfold reserveToSaveTreeStructure.
    destruct (tabsContainers b !! aHint) as [container|] eqn:Hc; [|done].
    intros t i. cbn [saveTimers tabsContainers set_tabsContainers set_saveTimers].
    intros Hl. apply lookup_insert_Some in Hl as [[<- <-]|[Hne Hl]].
    + eexists. split; [apply lookup_insert_eq|done].
    + assert (saveTimers b !! t = Some i
              /\ waitingToSaveTreeStructure container <> Some t) as [Hl' Hw].
      { destruct (waitingToSaveTreeStructure container) as [t0|]; [|done].
        apply lookup_delete_Some in Hl as [Hne' Hl]. split; congruence. }
      destruct (Hinv t i Hl') as (c & Hci & Hwc).
      assert (i <> aHint) by (intros ->; congruence).
      exists c. by rewrite lookup_insert_ne.
  - intros t. unfold fireSaveTimer.
    destruct (saveTimers b !! t) as [aWindowId|] eqn:Ht; [|done].
    intros t' i. rewrite saveTreeStructure_timers, saveTreeStructure_containers.
    cbn [saveTimers tabsContainers set_saveTimers].
    intros Hl. apply lookup_delete_Some in Hl as [Hne Hl].
    destruct (Hinv t' i Hl) as (c & Hci & Hwc).
    destruct (tabsContainers b !! aWindowId) as [container|] eqn:Hc;
      [|by exists c].
    assert (i <> aWindowId).
    { intros ->. destruct (Hinv t aWindowId Ht) as (c' & Hc' & Hw').
      congruence. }
    exists c. by rewrite lookup_insert_ne.
  - intros Hc. unfold reserveToSaveTreeStructure. by rewrite Hc.
Qed.

End TreeStructureFacts.

(** * Waiting for the restoration of the session *)

(** While the promise is pending there is one timer, the one [timeout]
    holds; once resolved, nothing is left. *)
Lemma restoring_invariant (next : positive) (trace : list RestoringEvent) :
  let r := foldl restoringStep (waitUntilCompletelyRestored next) trace in
  (resolutions r = 0%nat
   /\ onCreatedListening r = true
   /\ exists t, restoringTimeout r = Some t
                /\ restoringTimers r = {[ t := pendingDelay trace ]})
  \/ (resolutions r = 1%nat
      /\ onCreatedListening r = false
      /\ restoringTimeout r = None
      /\ restoringTimers r = ∅).
Proof.
  induction trace as [|e trace IH] using rev_ind; cbv zeta.
  - left. repeat split. by eexists.
  - rewrite foldl_app. cbn [foldl].
    set (r := foldl restoringStep (waitUntilCompletelyRestored next) trace)
      in *.
    cbv zeta in IH.
    assert (pendingDelay (trace ++ [e])
            = if isTabCreated e then 100%nat else pendingDelay trace) as Hd.
    { unfold pendingDelay. rewrite existsb_app. cbn [existsb].
      rewrite orb_false_r.
      destruct (existsb isTabCreated trace), (isTabCreated e); reflexivity. }
    rewrite Hd.
    destruct IH as [(Hr & Hl & t & Ht & Htm)|(Hr & Hl & Ht & Htm)].
    + destruct e as [|t']; cbn [restoringStep isTabCreated].
      * left. unfold onNewTabRestored. rewrite Hl, Ht, Htm. cbn.
        repeat split; [done|]. eexists. split; [done|].
        by rewrite delete_singleton_eq, insert_empty.
      * unfold resolver. rewrite Htm.
        destruct (decide (t' = t)) as [->|Hne].
        -- rewrite lookup_singleton_eq. right. cbn.
           rewrite Hr, delete_singleton_eq. done.
        -- rewrite lookup_singleton_ne by done. left.
           repeat split; try done. by exists t.
    + right. destruct e as [|t']; cbn [restoringStep].
      * unfold onNewTabRestored. by rewrite Hl.
      * unfold resolver. by rewrite Htm, lookup_empty.
Qed.

(** X27: the promise of [waitUntilCompletelyRestored] is resolved at most
    once, whatever tabs are created and whatever timers fire: until then one
    timer is pending, the one [timeout] holds, of 500 ms if no tab has been
    created since the call and of 100 ms otherwise; once it has fired, the
    listener is removed and no timer is left. *)
Theorem waitUntilCompletelyRestored_resolves_once
        (next : positive) (trace : list RestoringEvent) :
  (resolutions (foldl restoringStep (waitUntilCompletelyRestored next) trace)
   <= 1)%nat
  /\ (resolutions
        (foldl restoringStep (waitUntilCompletelyRestored next) trace) = 0%nat
      <-> exists t,
            restoringTimers
              (foldl restoringStep (waitUntilCompletelyRestored next) trace)
            = {[ t := pendingDelay trace ]}
            /\ restoringTimeout
                 (foldl restoringStep (waitUntilCompletelyRestored next) trace)
               = Some t)
  /\ (resolutions
        (foldl restoringStep (waitUntilCompletelyRestored next) trace) = 1%nat
      <-> onCreatedListening
            (foldl restoringStep (waitUntilCompletelyRestored next) trace)
          = false).
Proof.
  destruct (restoring_invariant next trace)
    as [(Hr & Hl & t & Ht & Htm)|(Hr & Hl & Ht & Htm)];
    rewrite Hr, Hl.
  - split; [lia|]. split; [|done]. split; [|done].
    intros _. by exists t.
  - split; [lia|]. split; [|done]. split; [done|].
    intros (t & Htm' & _). rewrite Htm in Htm'.
    apply (f_equal (fun m => m !! t)) in Htm'.
    by rewrite lookup_empty, lookup_singleton_eq in Htm'.
Qed.

(** * The claims on sample worlds *)

(** In [pendingWorld] the one timer is the rebuild that [waiting] holds. *)
Ltac pending_tracked :=
  let t := fresh "t" in
  let Ht := fresh "Ht" in
  intros t Ht;
  change (timers pendingWorld)
    with ({[ 1%positive := TaskUpdateCachedTabbar ]} : gmap positive TimerTask)
    in Ht;
  apply lookup_singleton_Some in Ht as [<- _]; reflexivity.

Lemma getEffectiveWindowCache_keeps_inconsistent_cache_witness :
  exists c,
    completion
      (getEffectiveWindowCache sampleVersion sampleSignatureFromTabsCache
         sampleTrim sampleTrim sampleMatch sampleRecord noOptions
         (storing sampleCache)) = Normal (Some c)
    /\ contents (tabbar c) = contents (tabbar sampleCache)
    /\ signature c = signature sampleCache
    /\ sessionValues
         (world
            (getEffectiveWindowCache sampleVersion sampleSignatureFromTabsCache
               sampleTrim sampleTrim sampleMatch sampleRecord noOptions
               (storing sampleCache)))
       = sessionValues (storing sampleCache).
Proof.
  apply (getEffectiveWindowCache_keeps_inconsistent_cache
           sampleVersion sampleSignatureFromTabsCache sampleTrim sampleTrim
           sampleMatch sampleRecord noOptions (storing sampleCache) tabB
           sampleCache).
  - reflexivity.
  - reflexivity.
  - reflexivity.
  - vm_compute. discriminate.
  - reflexivity.
  - reflexivity.
  - vm_compute. reflexivity.
Defined.

Lemma getEffectiveWindowCache_version_gate_witness :
  completion
    (getEffectiveWindowCache sampleVersion sampleSignatureFromTabsCache
       sampleTrim sampleTrim sampleMatch sampleRecord noOptions
       (storing oldCache)) = Normal None.
Proof.
  apply (getEffectiveWindowCache_version_gate
           sampleVersion sampleSignatureFromTabsCache sampleTrim sampleTrim
           sampleMatch sampleRecord noOptions (storing oldCache) tabB oldCache).
  - reflexivity.
  - reflexivity.
  - vm_compute. discriminate.
Defined.

Lemma getEffectiveWindowCache_offset_witness :
  exists c,
    completion
      (getEffectiveWindowCache sampleVersion sampleSignatureFromTabsCache
         sampleTrim sampleTrim sampleMatch sampleRecord noOptions
         (storing shortCache)) = Normal (Some c)
    /\ offset c = Some 1%nat.
Proof.
  eexists. split.
  - vm_compute. reflexivity.
  - apply (getEffectiveWindowCache_offset
             sampleVersion sampleSignatureFromTabsCache sampleTrim sampleTrim
             sampleMatch sampleRecord noOptions (storing shortCache)
             [tabA] [tabB]
             (with_signature "1"
                (with_tabbar (with_dirty None None sampleTabbar) shortCache))).
    + repeat constructor; vm_compute; discriminate.
    + reflexivity.
    + vm_compute. reflexivity.
    + vm_compute. reflexivity.
Defined.

Lemma restoreTabsFromCache_rollback_witness :
  completion
    (restoreTabsFromCache sampleRestore sampleTree sampleCollapse
       sampleTabbar sampleParams shownWorld) = Normal false
  /\ getTabsContainer (mTargetWindow shownWorld)
       (world
          (restoreTabsFromCache sampleRestore sampleTree sampleCollapse
             sampleTabbar sampleParams shownWorld)) = None.
Proof.
  apply (restoreTabsFromCache_rollback sampleRestore sampleTree sampleCollapse
           sampleTabbar sampleParams shownWorld
           [ {| parent := -1; collapsed := false |};
             {| parent := 0; collapsed := false |} ]).
  - reflexivity.
  - reflexivity.
  - vm_compute. discriminate.
Defined.

Lemma getEffectiveWindowCache_cancels_first_witness :
  noRebuildPending
    (timers
       (world
          (getEffectiveWindowCache sampleVersion sampleSignatureFromTabsCache
             sampleTrim sampleTrim sampleMatch sampleRecord noOptions
             pendingWorld))).
Proof.
  apply (getEffectiveWindowCache_cancels_first
           sampleVersion sampleSignatureFromTabsCache sampleTrim sampleTrim
           sampleMatch sampleRecord sampleHTML sampleIndent noOptions
           pendingWorld).
  pending_tracked.
Defined.



(** Nor is a rebuild that a listener schedules while the pass awaits the
    tabs: its timer fires while the pass awaits the stored values, and it
    writes the snapshot before the pass compares the signatures. *)
Lemma scheduled_rebuild_writes_during_validation :
  writesAfterRead
    (events
       (getEffectiveWindowCacheInterrupted sampleVersion
          sampleSignatureFromTabsCache sampleTrim sampleTrim sampleMatch
          sampleRecord (fun _ => true) sampleHTML sampleIndent noOptions []
          [ListenerCalled onCreated]
          [TimerElapses 2%positive; RebuildResumes 0] [] pendingWorld))
  = true.
Proof. vm_compute. reflexivity. Qed.

(** C9, as stated, fails: the handle is not assigned in successful fetches
    only.  On a stored snapshot of an earlier release the validator ends
    with null, and has assigned the handle. *)
Theorem owner_handle_assigned_by_failed_fetch :
  ~ (forall options w,
       ownerAssignments
         (events
            (getEffectiveWindowCache sampleVersion sampleSignatureFromTabsCache
               sampleTrim sampleTrim sampleMatch sampleRecord options w)) <> []
       -> exists c,
            completion
              (getEffectiveWindowCache sampleVersion
                 sampleSignatureFromTabsCache sampleTrim sampleTrim sampleMatch
                 sampleRecord options w) = Normal (Some c)).
Proof.
  intros H. destruct (H noOptions (storing oldCache)) as [c Hc].
  - vm_compute. discriminate.
  - vm_compute in Hc. discriminate.
Qed.

(** One sequence of operations on one window reaches the store through two
    handles: while the sidebar does not show the last tab yet, the validator
    reads on the browser's last tab and the rebuild that follows writes on
    the sidebar's. *)
Lemma store_accesses_on_two_handles :
  let evs :=
    events
      (performAll sampleVersion sampleSignatureFromTabsCache sampleTrim
         sampleTrim sampleMatch sampleRecord sampleRestore sampleTree
         sampleCollapse (fun _ => true) sampleHTML sampleIndent
         [CallGetEffectiveWindowCache noOptions;
          CallReserveToUpdateCachedTabbar;
          TimerFires 1%positive]
         laggingWorld) in
  ownerAssignments evs = [Some tabB; Some tabA]
  /\ omap storageTab evs = [id tabB; id tabB; id tabB; id tabA]
  /\ Exists isSnapshotWrite evs.
Proof.
  split; [|split].
  - vm_compute. reflexivity.
  - vm_compute. reflexivity.
  - apply Exists_exists. eexists. split.
    + apply list_elem_of_In. vm_compute. do 7 right. left. reflexivity.
    + exact I.
Qed.


Lemma reserveToUpdateCachedTabbar_tracked_witness :
  rebuildTracked (world (reserveToUpdateCachedTabbar pendingWorld)).
Proof.
  apply (reserveToUpdateCachedTabbar_tracked pendingWorld).
  pending_tracked.
Defined.

Lemma fireTimer_tracked_witness :
  rebuildTracked
    (world
       (fireTimer sampleVersion sampleRecord sampleHTML sampleIndent 1%positive
          pendingWorld)).
Proof.
  apply (fireTimer_tracked sampleVersion sampleRecord sampleHTML sampleIndent
           1%positive pendingWorld).
  pending_tracked.
Defined.

Lemma getEffectiveWindowCache_tracked_witness :
  rebuildTracked
    (world
       (getEffectiveWindowCache sampleVersion sampleSignatureFromTabsCache
          sampleTrim sampleTrim sampleMatch sampleRecord noOptions
          pendingWorld)).
Proof.
  apply (getEffectiveWindowCache_tracked
           sampleVersion sampleSignatureFromTabsCache sampleTrim sampleTrim
           sampleMatch sampleRecord noOptions pendingWorld).
  pending_tracked.
Defined.

(** ** The further properties on sample worlds *)

Abbreviation sampleGetEffectiveWindowCache :=
  (getEffectiveWindowCache sampleVersion sampleSignatureFromTabsCache
     sampleTrim sampleTrim sampleMatch sampleRecord).

Abbreviation sampleUpdateCachedTabbar :=
  (updateCachedTabbar sampleVersion sampleRecord sampleHTML sampleIndent).

Abbreviation sampleFireTimer :=
  (fireTimer sampleVersion sampleRecord sampleHTML sampleIndent).

Abbreviation sampleRestoreTabsFromCache :=
  (restoreTabsFromCache sampleRestore sampleTree sampleCollapse).

Abbreviation sampleApplyCache := (applyCache sampleRestore).

Abbreviation sampleSave := (saveTreeStructure sampleDigest sampleTree).

Abbreviation sampleLoad := (loadTreeStructure sampleDigest sampleApply).

Lemma updateWindowCache_then_getWindowCache_witness :
  completion
    ((updateWindowCache kWINDOW_STATE_CACHED_SIDEBAR_TABS_DIRTY
        (Some (VBool true)) ;;
      getWindowCache kWINDOW_STATE_CACHED_SIDEBAR_TABS_DIRTY) ownedWorld)
  = Normal (Some (VBool true)).
Proof.
  apply (updateWindowCache_then_getWindowCache
           kWINDOW_STATE_CACHED_SIDEBAR_TABS_DIRTY (Some (VBool true))
           ownedWorld tabB).
  - reflexivity.
  - eexists. reflexivity.
Defined.

Lemma getEffectiveWindowCache_success_witness :
  sessionValues (world (sampleGetEffectiveWindowCache noOptions
                          (storing sampleCache)))
  = sessionValues (storing sampleCache).
Proof.
  eapply (getEffectiveWindowCache_success
            sampleVersion sampleSignatureFromTabsCache sampleTrim sampleTrim
            sampleMatch sampleRecord noOptions (storing sampleCache) tabB).
  - reflexivity.
  - vm_compute. reflexivity.
Defined.


Lemma getEffectiveWindowCache_no_tabs_witness :
  exists e,
    completion (sampleGetEffectiveWindowCache noOptions freshWorld) = Thrown e.
Proof.
  apply (getEffectiveWindowCache_no_tabs
           sampleVersion sampleSignatureFromTabsCache sampleTrim sampleTrim
           sampleMatch sampleRecord noOptions freshWorld).
  reflexivity.
Defined.

Lemma updateCachedTabbar_then_getEffectiveWindowCache_witness :
  exists c',
    completion
      (sampleGetEffectiveWindowCache noOptions
         (world (sampleUpdateCachedTabbar shownWorld))) = Normal (Some c')
    /\ contents (tabbar c') = sampleHTML (containers shownWorld)
    /\ style (tabbar c') = mTabBarStyle shownWorld
    /\ pinnedTabsCount (tabbar c')
       = Z.of_nat
           (length
              (getPinnedTabs
                 {| allTabsRestored := false;
                    tabElements := [elementOf tabA; elementOf tabB] |}))
    /\ signature c'
       = getWindowSignature sampleRecord (mTargetWindow shownWorld) shownWorld
    /\ actualSignature c'
       = Some (getWindowSignature sampleRecord (mTargetWindow shownWorld)
                 shownWorld)
    /\ offset c' = Some 0%nat.
Proof.
  apply (updateCachedTabbar_then_getEffectiveWindowCache
           sampleVersion sampleSignatureFromTabsCache sampleTrim sampleTrim
           sampleMatch sampleRecord sampleHTML sampleIndent noOptions
           shownWorld
           {| allTabsRestored := false;
              tabElements := [elementOf tabA; elementOf tabB] |}
           (elementOf tabB) tabB).
  - reflexivity.
  - reflexivity.
  - reflexivity.
  - reflexivity.
  - reflexivity.
  - reflexivity.
  - reflexivity.
  - vm_compute. reflexivity.
Defined.

Lemma markWindowCacheDirty_debounces_witness :
  timeout
    (world (markWindowCacheDirty kWINDOW_STATE_CACHED_SIDEBAR_TABS_DIRTY
              shownWorld))
  = Some (nextTimer shownWorld).
Proof.
  apply (markWindowCacheDirty_debounces
           kWINDOW_STATE_CACHED_SIDEBAR_TABS_DIRTY shownWorld).
  intros t akey Ht. vm_compute in Ht. discriminate.
Defined.

Lemma dirty_flag_reaches_effective_cache_witness :
  exists c,
    completion
      (sampleGetEffectiveWindowCache noOptions
         (world (sampleFireTimer 1%positive dirtyPendingWorld)))
    = Normal (Some c)
    /\ tabsDirty (tabbar c) = Some true.
Proof.
  eexists. split.
  - vm_compute. reflexivity.
  - apply (dirty_flag_reaches_effective_cache
             sampleVersion sampleSignatureFromTabsCache sampleTrim sampleTrim
             sampleMatch sampleRecord sampleHTML sampleIndent noOptions
             1%positive kWINDOW_STATE_CACHED_SIDEBAR_TABS_DIRTY
             dirtyPendingWorld tabB tabB).
    + reflexivity.
    + reflexivity.
    + eexists. reflexivity.
    + reflexivity.
    + reflexivity.
    + vm_compute. reflexivity.
Defined.

Lemma restoreTabsFromCache_verdict_witness :
  completion (sampleRestoreTabsFromCache sampleTabbar sampleParams shownWorld)
  = Normal false
  /\ restoredDispatches
       (events (sampleRestoreTabsFromCache sampleTabbar sampleParams shownWorld))
     = 1%nat
  /\ last (events (sampleRestoreTabsFromCache sampleTabbar sampleParams
                     shownWorld))
     = Some EvRestoredDispatched.
Proof.
  apply (restoreTabsFromCache_verdict sampleRestore sampleTree sampleCollapse
           sampleTabbar sampleParams shownWorld
           [ {| parent := -1; collapsed := false |};
             {| parent := 0; collapsed := false |} ]).
  - reflexivity.
  - reflexivity.
  - vm_compute. discriminate.
Defined.

Lemma restoreTabsFromCache_pull_failure_witness :
  (exists e,
      completion (sampleRestoreTabsFromCache sampleTabbar sampleParams
                    unansweredWorld) = Thrown e)
  /\ containers (world (sampleRestoreTabsFromCache sampleTabbar sampleParams
                          unansweredWorld))
     = containers (world (sampleApplyCache sampleTabbar sampleParams
                            unansweredWorld))
  /\ restoredDispatches
       (events (sampleRestoreTabsFromCache sampleTabbar sampleParams
                  unansweredWorld)) = 0%nat.
Proof.
  apply (restoreTabsFromCache_pull_failure sampleRestore sampleTree
           sampleCollapse sampleTabbar sampleParams unansweredWorld).
  - reflexivity.
  - reflexivity.
Defined.

Lemma onTabsEvent_idle_witness :
  onTabsEvent (fun _ => true) onMoved freshWorld = mkRun [] freshWorld (Normal tt).
Proof.
  apply (onTabsEvent_idle (fun _ => true) onMoved freshWorld).
  right. right. split; [reflexivity|]. left. reflexivity.
Defined.

Lemma onConfigChange_idle_witness :
  onConfigChange "animation" ownedWorld = mkRun [] ownedWorld (Normal tt).
Proof.
  apply (onConfigChange_idle "animation" ownedWorld).
  left. discriminate.
Defined.

Lemma onConfigChange_enabled_witness :
  completion (onConfigChange "useCachedTree" ownedWorld) = Normal tt
  /\ last (events (onConfigChange "useCachedTree" ownedWorld)) = Some EvReload
  /\ forall key : CacheKey,
       sessionValues (world (onConfigChange "useCachedTree" ownedWorld))
       !! (id tabB, key) = None.
Proof.
  apply (onConfigChange_enabled ownedWorld tabB).
  - reflexivity.
  - reflexivity.
  - eexists. reflexivity.
Defined.

Lemma reserveToUpdateCachedTabbar_schedules_witness :
  completion (reserveToUpdateCachedTabbar ownedWorld) = Normal tt
  /\ waiting (world (reserveToUpdateCachedTabbar ownedWorld))
     = Some (nextTimer ownedWorld)
  /\ timers (world (reserveToUpdateCachedTabbar ownedWorld))
     !! nextTimer ownedWorld = Some TaskUpdateCachedTabbar
  /\ forall key : CacheKey,
       sessionValues (world (reserveToUpdateCachedTabbar ownedWorld))
       !! (id tabB, key) = None.
Proof.
  apply (reserveToUpdateCachedTabbar_schedules ownedWorld
           {| allTabsRestored := false;
              tabElements := [elementOf tabA; elementOf tabB] |} tabB).
  - reflexivity.
  - reflexivity.
  - reflexivity.
  - reflexivity.
  - reflexivity.
  - eexists. reflexivity.
Defined.

Lemma reserveToUpdateCachedTabbar_coalesces_witness :
  waiting (world ((reserveToUpdateCachedTabbar ;;
                   reserveToUpdateCachedTabbar) pendingWorld))
  = Some (Pos.succ (nextTimer pendingWorld)).
Proof.
  apply (reserveToUpdateCachedTabbar_coalesces
           sampleVersion sampleRecord sampleHTML sampleIndent pendingWorld
           {| allTabsRestored := false;
              tabElements := [elementOf tabA; elementOf tabB] |}).
  - reflexivity.
  - reflexivity.
  - reflexivity.
  - reflexivity.
  - pending_tracked.
Defined.

(** In [recordedBackground] the one key is in the list of the created. *)
Ltac recorded_keys :=
  let k := fresh "k" in
  let e := fresh "e" in
  let Hk := fresh "Hk" in
  intros k [e Hk];
  unfold recordedBackground in Hk; cbn [gTreeStructures] in Hk;
  apply lookup_singleton_Some in Hk as [<- _];
  unfold recordedBackground; cbn [gTreeStructuresKeys]; constructor.

Lemma saveTreeStructure_saves_witness :
  snd (sampleSave 1%N recordedBackground) = Fulfilled
  /\ exists saved,
       treeStructure (fst (sampleSave 1%N recordedBackground)) = Some saved
       /\ saved !! getTabsSignature sampleDigest [tabA; tabB]
          = Some (sampleTree [elementOf tabA; elementOf tabB]).
Proof.
  destruct (saveTreeStructure_saves sampleDigest sampleTree 1%N
              recordedBackground
              {| waitingToSaveTreeStructure := None;
                 containerTabs := [elementOf tabA; elementOf tabB] |}
              [tabA; tabB])
    as (Ho & Hm & _ & saved & Hs & _ & _ & Hg).
  - reflexivity.
  - reflexivity.
  - recorded_keys.
  - split; [exact Ho|]. exists saved. split; [exact Hs|].
    apply (Hg 1%N
              {| entry_signature := getTabsSignature sampleDigest [tabA; tabB];
                 entry_structure :=
                   sampleTree [elementOf tabA; elementOf tabB] |}).
    + rewrite Hm. apply lookup_insert_eq.
    + reflexivity.
    + intros k e Hk _. rewrite Hm in Hk.
      apply lookup_insert_Some in Hk as [[<- _]|[_ Hk]]; [lia|].
      unfold recordedBackground in Hk. cbn [gTreeStructures] in Hk.
      apply lookup_singleton_Some in Hk as [<- _]. lia.
Defined.

Lemma saveTreeStructure_then_loadTreeStructure_witness :
  (1%N, sampleTree [elementOf tabA; elementOf tabB])
  ∈ snd (sampleLoad (fst (sampleSave 1%N recordedBackground))).
Proof.
  apply (saveTreeStructure_then_loadTreeStructure
           sampleDigest sampleTree sampleApply 1%N recordedBackground
           {| waitingToSaveTreeStructure := None;
              containerTabs := [elementOf tabA; elementOf tabB] |}
           [tabA; tabB]).
  - reflexivity.
  - reflexivity.
  - recorded_keys.
  - right. split; [reflexivity|].
    intros k e Hk _. unfold recordedBackground in Hk.
    cbn [gTreeStructures] in Hk.
    apply lookup_singleton_Some in Hk as [<- _]. lia.
Defined.

Lemma saveTreeStructure_forgets_witness :
  snd (sampleSave 1%N emptiedBackground) = Fulfilled
  /\ gTreeStructures (fst (sampleSave 1%N emptiedBackground)) !! 1%N = None
  /\ exists saved,
       treeStructure (fst (sampleSave 1%N emptiedBackground)) = Some saved
       /\ forall s st,
            saved !! s = Some st ->
            exists j e,
              j <> 1%N /\ gTreeStructures emptiedBackground !! j = Some e
              /\ entry_signature e = s /\ entry_structure e = st.
Proof.
  apply (saveTreeStructure_forgets sampleDigest sampleTree 1%N
           emptiedBackground).
  reflexivity.
Defined.

Lemma saveTreeStructure_rejected_witness :
  snd (sampleSave 1%N closedBackground) = Rejected
  /\ gTreeStructures (fst (sampleSave 1%N closedBackground))
     = gTreeStructures closedBackground
  /\ treeStructure (fst (sampleSave 1%N closedBackground))
     = treeStructure closedBackground
  /\ tabsContainers (fst (sampleSave 1%N closedBackground))
     = <[1%N := {| waitingToSaveTreeStructure := None;
                   containerTabs := [elementOf tabA; elementOf tabB] |}]>
         (tabsContainers closedBackground).
Proof.
  apply (saveTreeStructure_rejected sampleDigest sampleTree 1%N
           closedBackground
           {| waitingToSaveTreeStructure := None;
              containerTabs := [elementOf tabA; elementOf tabB] |}).
  - reflexivity.
  - reflexivity.
Defined.

Lemma reserveToSaveTreeStructure_tracked_witness :
  saveTracked (reserveToSaveTreeStructure 1%N sampleBackground).
Proof.
  apply (reserveToSaveTreeStructure_tracked sampleDigest sampleTree 1%N
           sampleBackground).
  intros t aWindowId Ht. vm_compute in Ht. discriminate.
Defined.
